(** * Depthmap toolkit: a shallow embedding of
      [src/common/depthmap_toolkit/depthmap.py]

    Number model.  The toolkit computes on float64 values.  They are
    embedded as exact rationals ([Q]); the comparisons of the source
    ([== 0.], [> 0.5], [< 0.1]) become the decidable comparisons of [Q].
    The one quotient whose divisor is routinely zero, the L1 normalisation
    of a normal vector, is embedded with an explicit not-a-number value
    ([fnum]).  The other quotients (by [fx], [fy] and by the homogeneous
    coordinate) use the quotient of [Q].  Rounding is not embedded: a
    statement that gives a computed value as an equality of rationals
    holds of the source up to the rounding of float64; the statements on
    zeros, signs, labels, shapes and exceptions do not depend on it.

    numpy arrays of shape (width, height) are embedded as lists of rows
    ([grid]), indexed [x] first and [y] second, as in the source.  Indexing
    with integers follows numpy: an index in [-n, 0) counts from the end,
    an index outside [-n, n) raises [IndexError]. *)

From Stdlib Require Import ZArith QArith Qabs Qfield Lia.
From Stdlib.Strings Require Import Byte.
From stdpp Require Import prelude.

Local Open Scope Z_scope.

(** ** Exceptions and results *)

Inductive exn : Type :=
| IndexError
| AssertionError
| RuntimeError
| ValueError
| ZeroDivisionError.

(** [OutOfFuel] is not a Python exception: it is the answer of a fuelled
    loop of the embedding that was given too little fuel. *)
Inductive result (A : Type) : Type :=
| Ok (a : A)
| Raise (e : exn)
| OutOfFuel.

Arguments Ok {A} a.
Arguments Raise {A} e.
Arguments OutOfFuel {A}.

#[global] Instance result_ret : MRet result := fun A a => Ok a.

#[global] Instance result_bind : MBind result := fun A B f m =>
  match m with
  | Ok a => f a
  | Raise e => Raise e
  | OutOfFuel => OutOfFuel
  end.

#[global] Instance result_fmap : FMap result := fun A B f m =>
  match m with
  | Ok a => Ok (f a)
  | Raise e => Raise e
  | OutOfFuel => OutOfFuel
  end.

(** [o is None] *)
Definition is_None {A} (o : option A) : bool :=
  match o with None => true | Some _ => false end.

Definition is_ok {A} (r : result A) : bool :=
  match r with Ok _ => true | _ => false end.

(** ** Rationals: boolean comparisons *)

Definition Qlt_bool (a b : Q) : bool := negb (Qle_bool b a).

(** ** Grids *)

Abbreviation grid A := (list (list A)).

Definition shape {A} (g : grid A) : nat * nat :=
  (length g, match g with [] => 0%nat | row :: _ => length row end).

(** [rect w h g]: [g] is a well-formed array of shape (w, h). *)
Definition rect {A} (w h : nat) (g : grid A) : Prop :=
  length g = w /\ Forall (fun row => length row = h) g.

Definition rectb {A} (w h : nat) (g : grid A) : bool :=
  (length g =? w)%nat && forallb (fun row => (length row =? h)%nat) g.

(** Element-wise construction of an array of shape (w, h). *)
Definition tabulate {A} (w h : nat) (f : nat -> nat -> A) : grid A :=
  (fun x => (fun y => f x y) <$> seq 0 h) <$> seq 0 w.

(** Element-wise image of an array. *)
Definition map_grid {A B} (f : A -> B) (g : grid A) : grid B :=
  (fun row : list A => f <$> row) <$> g.

(** In-range read. *)
Definition get {A} (g : grid A) (x y : nat) : option A :=
  row ← g !! x; row !! y.

(** In-range read of an array whose shape is known to cover (x, y). *)
Definition cell (g : grid Q) (x y : nat) : Q := default 0%Q (get g x y).
Definition cellb (g : grid bool) (x y : nat) : bool := default false (get g x y).
Definition cellz (g : grid Z) (x y : nat) : Z := default 0 (get g x y).

(** numpy's normalisation of an integer index against a dimension. *)
Definition py_index (n : nat) (i : Z) : option nat :=
  if (0 <=? i) && (i <? Z.of_nat n) then Some (Z.to_nat i)
  else if (- Z.of_nat n <=? i) && (i <? 0) then Some (Z.to_nat (i + Z.of_nat n))
  else None.

(** [g[x, y]] *)
Definition getitem {A} (g : grid A) (x y : Z) : result A :=
  let '(w, h) := shape g in
  match py_index w x, py_index h y with
  | Some i, Some j =>
      match get g i j with
      | Some v => Ok v
      | None => Raise IndexError
      end
  | _, _ => Raise IndexError
  end.

(** [g[x, y] = v] *)
Definition setitem {A} (g : grid A) (x y : Z) (v : A) : result (grid A) :=
  let '(w, h) := shape g in
  match py_index w x, py_index h y with
  | Some i, Some j =>
      match g !! i with
      | Some row => Ok (<[i := <[j := v]> row]> g)
      | None => Raise IndexError
      end
  | _, _ => Raise IndexError
  end.

(** ** Smoothing *)

(** [np.array([[0, 1, 0], [1, 1, 1], [0, 1, 0]])] divided by its sum:
    exact fifths here, the float 0.2 in the source, whose convolution
    gives the mean of the five cells up to rounding. *)
Definition conv_filter : list (list Q) :=
  let k := [[0; 1; 0]; [1; 1; 1]; [0; 1; 0]]%Q in
  let s := foldr Qplus 0%Q (concat k) in
  map_grid (fun v => v / s)%Q k.

(** Boundary handling of [ndimage.convolve] in its default mode
    ("reflect"): the array is mirrored about its edge, so that index -1
    reads index 0 and index n reads index n-1. *)
Definition reflect (n : nat) (i : Z) : nat :=
  if i <? 0 then Z.to_nat (- i - 1)
  else if Z.of_nat n <=? i then Z.to_nat (2 * Z.of_nat n - 1 - i)
  else Z.to_nat i.

(** [ndimage.convolve(image_arr, weights)] for a 3x3 kernel. *)
Definition convolve (image_arr : grid Q) (weights : list (list Q)) : grid Q :=
  let '(w, h) := shape image_arr in
  tabulate w h (fun x y =>
    foldr Qplus 0%Q
      (i ← seq 0 3; j ← seq 0 3;
       [(default 0%Q (row ← weights !! i; row !! j)
         * cell image_arr
             (reflect w (Z.of_nat x + 1 - Z.of_nat i))
             (reflect h (Z.of_nat y + 1 - Z.of_nat j)))%Q])).

Definition smoothen_depthmap_array (image_arr : grid Q) : grid Q :=
  let '(w, h) := shape image_arr in
  (* Apply a convolution *)
  let smooth_image_arr := convolve image_arr conv_filter in
  (* Create mask which is 0 if any of the pixels in the convolution is 0 *)
  let smooth_center := map_grid (fun v => Qeq_bool v 0) image_arr in
  let smooth_right := tabulate w h (fun x y =>
    match x with O => false | S x' => cellb smooth_center x' y end) in
  let smooth_left := tabulate w h (fun x y =>
    if (S x <? w)%nat then cellb smooth_center (S x) y else false) in
  let smooth_up := tabulate w h (fun x y =>
    match y with O => false | S y' => cellb smooth_center x y' end) in
  let smooth_down := tabulate w h (fun x y =>
    if (S y <? h)%nat then cellb smooth_center x (S y) else false) in
  let mask := tabulate w h (fun x y =>
    cellb smooth_center x y || cellb smooth_right x y || cellb smooth_left x y
    || cellb smooth_up x y || cellb smooth_down x y) in
  (* Apply mask *)
  tabulate w h (fun x y =>
    if cellb mask x y then 0%Q else cell smooth_image_arr x y).

(** ** Sentinels of the mask

    [MASK_FLOOR], [MASK_CHILD] and [MASK_INVALID] are imported from
    [common/depthmap_toolkit/constants.py], which is not among the
    sources: the embedding takes them as parameters. *)
Class Constants : Type := {
  MASK_FLOOR : Z;
  MASK_CHILD : Z;
  MASK_INVALID : Z
}.

(** Modelled from the spec: the values of the missing constants.  The
    specification describes the floor and invalid sentinels as small
    positive values, the child sentinel as a distinguished one, and floor
    and invalid as two labels of which a pixel never carries both. *)
Class PositiveSentinels (K : Constants) : Prop := {
  floor_positive : 0 < MASK_FLOOR;
  child_positive : 0 < MASK_CHILD;
  invalid_positive : 0 < MASK_INVALID;
  floor_not_invalid : MASK_FLOOR <> MASK_INVALID
}.

(** ** Floating point values that may be not-a-number *)

Inductive fnum : Type :=
| Fin (q : Q)
| NaN.

(** [np.abs(v) > t]; a comparison with not-a-number is false. *)
Definition abs_gt (v : fnum) (t : Q) : bool :=
  match v with
  | Fin q => Qlt_bool t (Qabs q)
  | NaN => false
  end.

(** A column of an array of shape (3, width, height). *)
Record vec3 : Type := V3 { v_x : Q; v_y : Q; v_z : Q }.

(** A column of the normal map. *)
Record normal3 : Type := N3 { n_x : fnum; n_y : fnum; n_z : fnum }.

(** ** Byte buffers *)

Definition byte_to_Z (b : byte) : Z := Z.of_N (Byte.to_N b).

(** [data[i]] on a [bytes] object. *)
Definition bytes_getitem (data : list byte) (i : Z) : result Z :=
  match py_index (length data) i with
  | Some k =>
      match data !! k with
      | Some b => Ok (byte_to_Z b)
      | None => Raise IndexError
      end
  | None => Raise IndexError
  end.

(** Truth value of an optional [bytes] object: [None] and the empty
    buffer are false. *)
Definition truthy (data : option (list byte)) : bool :=
  match data with
  | Some (_ :: _) => true
  | _ => false
  end.

(** ** Loops in the result monad *)

Fixpoint mapM {A B} (f : A -> result B) (l : list A) : result (list B) :=
  match l with
  | [] => Ok []
  | a :: l' => b ← f a; bs ← mapM f l'; Ok (b :: bs)
  end.

(** [output = np.zeros((w, h))] filled by
    [for x in range(w): for y in range(h): output[x, y] = f(x, y)]. *)
Definition tabulateM {A} (w h : nat) (f : nat -> nat -> result A)
  : result (grid A) :=
  mapM (fun x => mapM (fun y => f x y) (seq 0 h)) (seq 0 w).

(** [for a in l: st = body(st, a)] *)
Fixpoint for_each {S A} (body : S -> A -> result S) (l : list A) (st : S)
  : result S :=
  match l with
  | [] => Ok st
  | a :: l' => st' ← body st a; for_each body l' st'
  end.

(** [g[c] = v] for a boolean array [c] of the shape of [g]. *)
Definition mask_assign {A} (c : grid bool) (v : A) (g : grid A) : grid A :=
  zip_with (zip_with (fun (b : bool) (old : A) => if b then v else old)) c g.

(** [g[c]]: the entries selected by a boolean array, in row-major order. *)
Definition boolean_index {A} (g : grid A) (c : grid bool) : list A :=
  concat (zip_with (fun row crow =>
            omap (fun p : A * bool => if p.2 then Some p.1 else None)
                 (zip row crow)) g c).

(** ** The Depthmap *)

Record Depthmap : Type := {
  width : nat;
  height : nat;
  intrinsics : grid Q;
  sensor : Z;
  fx : Q;
  fy : Q;
  cx : Q;
  cy : Q;
  depth_scale : Q;
  max_confidence : Q;
  device_pose : list Q;
  device_pose_arr : grid Q;
  depthmap_arr : grid Q;
  depthmap_arr_smooth : grid Q;
  confidence_arr : option (grid Q)
}.

(** [np.array(device_pose).reshape(4, 4).T] *)
Definition reshape_4_4_T (pose : list Q) : result (grid Q) :=
  if (length pose =? 16)%nat
  then Ok (tabulate 4 4 (fun i j => default 0%Q (pose !! (4 * j + i)%nat)))
  else Raise ValueError.

Definition IDENTITY_MATRIX_4D : list Q :=
  [1; 0; 0; 0; 0; 1; 0; 0; 0; 0; 1; 0; 0; 0; 0; 1]%Q.

Section Parsing.
Variables (width height : nat) (depth_scale max_confidence : Q).

(** Get depth of the point in meters *)
Definition _parse_depth (data : list byte) (tx ty : Z) : result Q :=
  if (tx <? 1) || (ty <? 1) || (tx >=? Z.of_nat width)
     || (ty >=? Z.of_nat height)
  then Ok 0%Q
  else
    b0 ← bytes_getitem data ((ty * Z.of_nat width + tx) * 3 + 0);
    let depth := Z.shiftl b0 8 in
    b1 ← bytes_getitem data ((ty * Z.of_nat width + tx) * 3 + 1);
    let depth := depth + b1 in
    Ok (inject_Z depth * depth_scale)%Q.

Definition _parse_depth_data (data : list byte) : result (grid Q) :=
  tabulateM width height (fun x y =>
    _parse_depth data (Z.of_nat x) (Z.of_nat y)).

(** Get confidence of the point in scale 0-1.  The quotient of a Python
    int by the float zero raises [ZeroDivisionError]. *)
Definition _parse_confidence (data : list byte) (tx ty : Z) : result Q :=
  c ← bytes_getitem data ((ty * Z.of_nat width + tx) * 3 + 2);
  if Qeq_bool max_confidence 0 then Raise ZeroDivisionError
  else Ok (inject_Z c / max_confidence)%Q.

Definition _parse_confidence_data (data : list byte) : result (grid Q) :=
  tabulateM width height (fun x y =>
    _parse_confidence data (Z.of_nat x) (Z.of_nat y)).
End Parsing.

(** The constructor.  The RGB path and array are stored and never read by
    the operations embedded here; they are left out.

    [smoothen_depthmap_array(None)], reached when neither depth source is
    given, fails inside [ndimage.convolve], which rejects an input that is
    not an array of the dimension of its weights ([RuntimeError]). *)
Definition __init__
  (intrinsics : grid Q) (width height : nat)
  (data : option (list byte)) (depthmap_arr : option (grid Q))
  (depth_scale max_confidence : Q) (device_pose : list Q)
  : result Depthmap :=
  let sensor := 1 in
  i0 ← getitem intrinsics sensor 0;
  let fx := (i0 * inject_Z (Z.of_nat width))%Q in
  i1 ← getitem intrinsics sensor 1;
  let fy := (i1 * inject_Z (Z.of_nat height))%Q in
  i2 ← getitem intrinsics sensor 2;
  let cx := (i2 * inject_Z (Z.of_nat width))%Q in
  i3 ← getitem intrinsics sensor 3;
  let cy := (i3 * inject_Z (Z.of_nat height))%Q in
  device_pose_arr ← reshape_4_4_T device_pose;
  (* assert depthmap_arr is None or data is None *)
  if negb (is_None depthmap_arr || is_None data)
  then Raise AssertionError
  else
    depthmap_arr ←
      (if truthy data
       then Some <$> _parse_depth_data width height depth_scale (default [] data)
       else Ok depthmap_arr);
    match depthmap_arr with
    | None => Raise RuntimeError
    | Some depthmap_arr =>
        let depthmap_arr_smooth := smoothen_depthmap_array depthmap_arr in
        confidence_arr ←
          (if truthy data
           then Some <$> _parse_confidence_data width height max_confidence (default [] data)
           else Ok None);
        Ok {| width := width; height := height;
              intrinsics := intrinsics; sensor := sensor;
              fx := fx; fy := fy; cx := cx; cy := cy;
              depth_scale := depth_scale; max_confidence := max_confidence;
              device_pose := device_pose; device_pose_arr := device_pose_arr;
              depthmap_arr := depthmap_arr;
              depthmap_arr_smooth := depthmap_arr_smooth;
              confidence_arr := confidence_arr |}
    end.

(** ** Projection *)

(** Convert point in pixels into point in meters *)
Definition convert_2d_to_3d (d : Depthmap) (sensor : Z) (x y depth : Q)
  : result vec3 :=
  i0 ← getitem (intrinsics d) sensor 0;
  let fx := (i0 * inject_Z (Z.of_nat (width d)))%Q in
  i1 ← getitem (intrinsics d) sensor 1;
  let fy := (i1 * inject_Z (Z.of_nat (height d)))%Q in
  i2 ← getitem (intrinsics d) sensor 2;
  let cx := (i2 * inject_Z (Z.of_nat (width d)))%Q in
  i3 ← getitem (intrinsics d) sensor 3;
  let cy := (i3 * inject_Z (Z.of_nat (height d)))%Q in
  let tx := ((x - cx) * depth / fx)%Q in
  let ty := ((y - cy) * depth / fy)%Q in
  Ok (V3 tx ty depth).

(** [l[i]] on a Python list. *)
Definition list_getitem {A} (l : list A) (i : Z) : result A :=
  match py_index (length l) i with
  | Some k =>
      match l !! k with
      | Some v => Ok v
      | None => Raise IndexError
      end
  | None => Raise IndexError
  end.

(** Convert point in meters into point in pixels.  The intrinsics are a
    Python list and the arguments Python floats, so that the quotient by
    a depth of zero raises [ZeroDivisionError]. *)
Definition convert_3d_to_2d (intrinsics : list Q) (x y depth : Q)
  (width height : nat) : result vec3 :=
  i0 ← list_getitem intrinsics 0;
  let fx := (i0 * inject_Z (Z.of_nat width))%Q in
  i1 ← list_getitem intrinsics 1;
  let fy := (i1 * inject_Z (Z.of_nat height))%Q in
  i2 ← list_getitem intrinsics 2;
  let cx := (i2 * inject_Z (Z.of_nat width))%Q in
  i3 ← list_getitem intrinsics 3;
  let cy := (i3 * inject_Z (Z.of_nat height))%Q in
  if Qeq_bool depth 0 then Raise ZeroDivisionError
  else
    let tx := (x * fx / depth + cx)%Q in
    let ty := (y * fy / depth + cy)%Q in
    Ok (V3 tx ty depth).

(** Row [i] of [np.matmul(m, p)] for a column [p] of four entries. *)
Definition matmul_row (m : grid Q) (i : nat) (p : list Q) : Q :=
  foldr Qplus 0%Q
    (zip_with Qmult (default [] (m !! i)) p).

(** Convert points in pixels into points in meters (and applying
    rotation).  The result has one column per pixel; the three planes of
    the source array are the three fields of the column.  The depth array
    has the shape (width, height): the callers that matter assert it. *)
Definition convert_2d_to_3d_oriented (d : Depthmap) (should_smooth : bool)
  : grid vec3 :=
  let depth := if should_smooth then depthmap_arr_smooth d
               else depthmap_arr d in
  tabulate (width d) (height d) (fun x y =>
    let dep := cell depth x y in
    let xbig := inject_Z (Z.of_nat x) in
    let ybig := inject_Z (Z.of_nat y) in
    (* Convert point in pixels into point in meters *)
    let tx := (dep * (xbig - cx d) / fx d)%Q in
    let ty := (dep * (ybig - cy d) / fy d)%Q in
    let res := [(- tx)%Q; ty; dep; 1%Q] in
    (* Transformation of point by device pose matrix *)
    let out0 := matmul_row (device_pose_arr d) 0 res in
    let out1 := matmul_row (device_pose_arr d) 1 res in
    let out2 := matmul_row (device_pose_arr d) 2 res in
    let out3 := matmul_row (device_pose_arr d) 3 res in
    let out0 := (out0 / Qabs out3)%Q in
    let out1 := (out1 / Qabs out3)%Q in
    (* Invert y axis *)
    V3 out0 (- out1)%Q out2).

(** ** Normals *)

(** [np.cross] *)
Definition cross (u v : vec3) : vec3 :=
  V3 (v_y u * v_z v - v_z u * v_y v)%Q
     (v_z u * v_x v - v_x u * v_z v)%Q
     (v_x u * v_y v - v_y u * v_x v)%Q.

Definition vsub (p q : vec3) : vec3 :=
  V3 (v_x p - v_x q)%Q (v_y p - v_y q)%Q (v_z p - v_z q)%Q.

(** Ensure the normal has a length of one:
    abs(x) + abs(y) + abs(z) = 1.  When the length is zero, all three
    components are zero and each float quotient 0/0 is not-a-number. *)
Definition normalize (vectors : vec3) : normal3 :=
  let length := (Qabs (v_x vectors) + Qabs (v_y vectors)
                 + Qabs (v_z vectors))%Q in
  if Qeq_bool length 0 then N3 NaN NaN NaN
  else N3 (Fin (v_x vectors / length)) (Fin (v_y vectors / length))
          (Fin (v_z vectors / length)).

Definition zero_vec : vec3 := V3 0 0 0.
Definition zero_normal : normal3 := N3 (Fin 0) (Fin 0) (Fin 0).

(** Calculate normalmap consisting of normal vectors. *)
Definition calculate_normalmap_array (d : Depthmap) (points_3d_arr : grid vec3)
  : grid normal3 :=
  let at_ x y := default zero_vec (get points_3d_arr x y) in
  (* add black border to keep the dimensionality *)
  tabulate (width d) (height d) (fun x y =>
    match x, y with
    | S x', S y' =>
        (* Get depth of the neighbor pixels *)
        let depth_center := at_ x y in
        let depth_x_minus := at_ x' y in
        let depth_y_minus := at_ x y' in
        (* Calculate a normal of the triangle *)
        let vector_u := vsub depth_center depth_x_minus in
        let vector_v := vsub depth_center depth_y_minus in
        normalize (cross vector_u vector_v)
    | _, _ => zero_normal
    end).

(** ** Median *)

Fixpoint insert_sorted (q : Q) (l : list Q) : list Q :=
  match l with
  | [] => [q]
  | a :: l' => if Qle_bool q a then q :: l else a :: insert_sorted q l'
  end.

Definition sort (l : list Q) : list Q := foldr insert_sorted [] l.

(** [np.median]: the middle of the sorted values, the mean of the two
    middle values when their number is even, not-a-number when there is
    none. *)
Definition median (l : list Q) : fnum :=
  let s := sort l in
  let n := length s in
  if (n =? 0)%nat then NaN
  else if Nat.even n
       then Fin ((default 0%Q (s !! (n / 2 - 1)%nat)
                  + default 0%Q (s !! (n / 2)%nat)) / 2)%Q
       else Fin (default 0%Q (s !! (n / 2)%nat)).

(** ** Segments *)

Record Aabb : Type := mkAabb { aabb0 : Z; aabb1 : Z; aabb2 : Z; aabb3 : Z }.

Module Segment.
Record t : Type := mk { id : Z; aabb : Aabb }.
End Segment.

Definition sys_maxsize : Z := 2 ^ 63 - 1.

Definition dirs : list (Z * Z) := [(-1, 0); (1, 0); (0, -1); (0, 1)].

Section Pipeline.
Context {K : Constants}.

(** The floor test of one pixel. *)
Definition floor_cond (normal : normal3) (point : vec3) (floor : Q) : bool :=
  let cond1 := abs_gt (n_y normal) (1 # 2) in
  let cond2 := Qlt_bool (v_y point - floor) (1 # 10) in
  cond1 && cond2.

Definition detect_floor (d : Depthmap) (floor : Q) : result (grid Z) :=
  let mask := tabulate (width d) (height d) (fun _ _ => 0) in
  if negb (rectb (width d) (height d) (depthmap_arr_smooth d))
  then Raise AssertionError
  else
    let mask :=
      mask_assign (map_grid (fun v => Qeq_bool v 0) (depthmap_arr_smooth d))
                  MASK_INVALID mask in
    let points_3d_arr := convert_2d_to_3d_oriented d true in
    let normal := calculate_normalmap_array d points_3d_arr in
    let per_pixel_cond :=
      zip_with (zip_with (fun n p => floor_cond n p floor))
               normal points_3d_arr in
    Ok (mask_assign per_pixel_cond MASK_FLOOR mask).

(** Calculate an altitude of the floor in the world coordinates *)
Definition get_floor_level (d : Depthmap) : result fnum :=
  if negb (rectb (width d) (height d) (depthmap_arr_smooth d))
  then Raise AssertionError
  else
    let points_3d_arr := convert_2d_to_3d_oriented d true in
    let normal := calculate_normalmap_array d points_3d_arr in
    let cond := map_grid (fun n => abs_gt (n_y n) (1 # 2)) normal in
    let selection_of_points :=
      boolean_index (map_grid v_y points_3d_arr) cond in
    Ok (median selection_of_points).

(** The loop [for direction in dirs] of the flood fill. *)
Fixpoint push_neighbours (depthmap_arr : grid Q) (pixel : Z * Z)
  (depth_center : Q) (ds : list (Z * Z)) (stack : list (Z * Z))
  : result (list (Z * Z)) :=
  match ds with
  | [] => Ok stack
  | direction :: ds' =>
      let pixel_dir := (pixel.1 + direction.1, pixel.2 + direction.2) in
      depth_dir ← getitem depthmap_arr pixel_dir.1 pixel_dir.2;
      let stack :=
        if Qlt_bool 0 depth_dir
           && Qlt_bool (Qabs (depth_dir - depth_center)) (1 # 10)
        then pixel_dir :: stack
        else stack in
      push_neighbours depthmap_arr pixel depth_center ds' stack
  end.

Definition update_aabb (pixel : Z * Z) (aabb : Aabb) : Aabb :=
  mkAabb (Z.min pixel.1 (aabb0 aabb)) (Z.min pixel.2 (aabb1 aabb))
         (Z.max pixel.1 (aabb2 aabb)) (Z.max pixel.2 (aabb3 aabb)).

(** One turn of [while len(stack) > 0]; the stack is a list whose head
    is the end of the Python list. *)
Definition visit (depthmap_arr : grid Q) (current_id : Z)
  (mask : grid Z) (aabb : Aabb) (pixel : Z * Z) (stack : list (Z * Z))
  : result (grid Z * Aabb * list (Z * Z)) :=
  (* Get a next pixel from the stack *)
  depth_center ← getitem depthmap_arr pixel.1 pixel.2;
  (* Add neighbor points (if there is no floor and they are connected) *)
  m ← getitem mask pixel.1 pixel.2;
  stack ← (if m =? 0
           then push_neighbours depthmap_arr pixel depth_center dirs stack
           else Ok stack);
  (* Update AABB *)
  let aabb := update_aabb pixel aabb in
  (* Update the mask *)
  mask ← setitem mask pixel.1 pixel.2 current_id;
  Ok (mask, aabb, stack).

Fixpoint flood (fuel : nat) (depthmap_arr : grid Q) (current_id : Z)
  (mask : grid Z) (aabb : Aabb) (stack : list (Z * Z))
  : result (grid Z * Aabb) :=
  match stack with
  | [] => Ok (mask, aabb)
  | pixel :: stack =>
      match fuel with
      | O => OutOfFuel
      | S fuel =>
          '(mask, aabb, stack) ← visit depthmap_arr current_id mask aabb
                                   pixel stack;
          flood fuel depthmap_arr current_id mask aabb stack
      end
  end.

(** Fuel that lets a fill drain: every turn pops one pixel and pushes at
    most four, and pushes only when it labels a pixel that was 0. *)
Definition flood_fuel (mask : grid Z) : nat :=
  4 * length (concat mask) + 1.

(** The body of the two [for] loops of [detect_objects]. *)
Definition scan (d : Depthmap) (x y : nat)
  (st : grid Z * list Segment.t * Z) : result (grid Z * list Segment.t * Z) :=
  let '(mask, segments, current_id) := st in
  m ← getitem mask (Z.of_nat x) (Z.of_nat y);
  if negb (m =? 0) then Ok st
  else
    let pixel := (Z.of_nat x, Z.of_nat y) in
    let aabb := mkAabb pixel.1 pixel.2 pixel.1 pixel.2 in
    let stack := [pixel] in
    '(mask, aabb) ← flood (flood_fuel mask) (depthmap_arr d) current_id
                      mask aabb stack;
    (* Check if the object size is valid *)
    let object_size_pixels :=
      Z.max (aabb2 aabb - aabb0 aabb) (aabb3 aabb - aabb1 aabb) in
    let segments :=
      if Qlt_bool (inject_Z (Z.of_nat (width d)) / 4)
                  (inject_Z object_size_pixels)
      then segments ++ [Segment.mk current_id aabb]
      else segments in
    let current_id := current_id - 1 in
    Ok (mask, segments, current_id).

(** [for x in range(self.width): for y in range(self.height): ...] *)
Definition scan_all (d : Depthmap) (st : grid Z * list Segment.t * Z)
  : result (grid Z * list Segment.t * Z) :=
  for_each (fun st x =>
              for_each (fun st y => scan d x y st) (seq 0 (height d)) st)
           (seq 0 (width d)) st.

(** Detect objects/children using seed algorithm *)
Definition detect_objects (d : Depthmap) (floor : Q)
  : result (grid Z * list Segment.t) :=
  let current_id := -1 in
  let segments := [] in
  mask ← detect_floor d floor;
  '(mask, segments, _) ← scan_all d (mask, segments, current_id);
  Ok (mask, segments).

(** [int(n / 2)] for the dimension [n]. *)
Definition half (n : nat) : Z := Z.quot (Z.of_nat n) 2.

Definition distance (d : Depthmap) (segment : Segment.t) : Z :=
  let a := aabb0 (Segment.aabb segment) - half (width d) in
  let b := aabb1 (Segment.aabb segment) - half (height d) in
  let c := aabb2 (Segment.aabb segment) - half (width d) in
  let d' := aabb3 (Segment.aabb segment) - half (height d) in
  a * a + b * b + c * c + d' * d'.

(** Select the most focused segment: the loop of [segment_child],
    started from [(closest, focus)]. *)
Definition select_focus (d : Depthmap) (segments : list Segment.t)
  (start : Z * Z) : Z * Z :=
  fold_left (fun (st : Z * Z) segment =>
               let '(closest, focus) := st in
               if closest >? distance d segment
               then (distance d segment, Segment.id segment)
               else (closest, focus))
            segments start.

Definition segment_child (d : Depthmap) (floor : Q) : result (grid Z) :=
  '(mask, segments) ← detect_objects d floor;
  let closest := sys_maxsize in
  let focus := -1 in
  let '(_, focus) := select_focus d segments (closest, focus) in
  Ok (map_grid (fun v => if v =? focus then MASK_CHILD else v) mask).
End Pipeline.

(** ** Concrete captures *)

(** Modelled from the spec: the values of the sentinels of
    [constants.py], which is not among the sources.  The specification
    asks for small positive sentinels for floor and invalid and a
    distinguished one for the child; the concrete captures below use
    1, 2 and 3. *)
Definition sentinels : Constants :=
  {| MASK_FLOOR := 1; MASK_CHILD := 2; MASK_INVALID := 3 |}.

Definition byte_of_Z (z : Z) : byte := default x00 (Byte.of_N (Z.to_N z)).

(** The body of a capture: three bytes per pixel at offset
    (y * width + x) * 3, the depth in big-endian raw units and the
    confidence. *)
Definition encode_capture (w h : nat) (depth : nat -> nat -> Z)
  (confidence : Z) : list byte :=
  y ← seq 0 h; x ← seq 0 w;
  [byte_of_Z (depth x y / 256); byte_of_Z (depth x y mod 256);
   byte_of_Z confidence].

(** A calibration whose depth sensor has its optical centre in the middle
    of the image. *)
Definition centred_intrinsics : grid Q :=
  [[1; 1; 1 # 2; 1 # 2]; [1; 1; 1 # 2; 1 # 2]]%Q.

(** The Depthmap of a capture with the identity pose. *)
Definition capture (intrinsics : grid Q) (w h : nat) (depth_scale : Q)
  (depth : nat -> nat -> Z) : result Depthmap :=
  __init__ intrinsics w h (Some (encode_capture w h depth 7)) None
           depth_scale 7 IDENTITY_MATRIX_4D.

(** Every pixel at one metre. *)
Definition flat_3x3 : result Depthmap :=
  capture centred_intrinsics 3 3 (1 # 1000) (fun _ _ => 1000).

(** One metre everywhere but on the last row and column, which hold no
    measurement. *)
Definition framed_5x5 : result Depthmap :=
  capture centred_intrinsics 5 5 (1 # 1000) (fun x y =>
    if (x =? 4)%nat || (y =? 4)%nat then 0 else 1000).

(** As [framed_5x5], the centre pixel one metre in front of the rest. *)
Definition lone_pixel_5x5 : result Depthmap :=
  capture centred_intrinsics 5 5 (1 # 1000) (fun x y =>
    if (x =? 4)%nat || (y =? 4)%nat then 0
    else if (x =? 2)%nat && (y =? 2)%nat then 1000 else 2000).

(** A slope, in raw units of one metre: the depth grows by one metre per
    row, and the optical centre of the sensors lies on the corner
    (0, height) of the image. *)
Definition steep_4x4 : result Depthmap :=
  capture [[1; 1; 0; 1]; [1; 1; 0; 1]]%Q 4 4 1 (fun _ y =>
    1 + Z.of_nat y).

(** ** The specification's wording, for comparison with the code *)


(** The floor level as the specification words it: the median of the
    world-space y of the pixels that pass the floor test of
    [detect_floor] against a floor estimate of 0. *)
Definition floor_level_by_floor_test (d : Depthmap) : result fnum :=
  if negb (rectb (width d) (height d) (depthmap_arr_smooth d))
  then Raise AssertionError
  else
    let points_3d_arr := convert_2d_to_3d_oriented d true in
    let normal := calculate_normalmap_array d points_3d_arr in
    let cond := zip_with (zip_with (fun n p => floor_cond n p 0))
                         normal points_3d_arr in
    Ok (median (boolean_index (map_grid v_y points_3d_arr) cond)).

(** ** Predicates of the statements *)

(** The pixel (x', y') is the pixel (x, y) or one of its four direct
    neighbours. *)
Definition near (x y x' y' : nat) : Prop :=
  (x' = x /\ y' = y)
  \/ (y' = y /\ (x' = S x \/ x = S x'))
  \/ (x' = x /\ (y' = S y \/ y = S y')).

(** The input holds a zero at the in-bounds pixel (x, y). *)
Definition zero_at (g : grid Q) (x y : nat) : Prop :=
  exists v, get g x y = Some v /\ (v == 0)%Q.

(** Every cell of [m] holds the label of the floor mask [m0] or a
    negative segment id. *)
Definition labelled (m0 m : grid Z) : Prop :=
  forall x y c, get m x y = Some c -> get m0 x y = Some c \/ c < 0.

(** The bounding box lies in [-w, w) x [-h, h). *)
Definition aabb_in (w h : nat) (a : Aabb) : Prop :=
  (- Z.of_nat w <= aabb0 a < Z.of_nat w)
  /\ (- Z.of_nat h <= aabb1 a < Z.of_nat h)
  /\ (- Z.of_nat w <= aabb2 a < Z.of_nat w)
  /\ (- Z.of_nat h <= aabb3 a < Z.of_nat h).

(** The number of unlabeled cells. *)
Definition zeros (m : grid Z) : nat :=
  length (filter (fun c : Z => c = 0) (concat m)).

(** What a fill keeps true of the mask and of the bounding box. *)
Definition fill_inv (w h : nat) (m0 m : grid Z) (a : Aabb) : Prop :=
  rect w h m /\ labelled m0 m /\ aabb_in w h a.

(** What the two loops keep true of (mask, segments, current_id). *)
Definition scan_inv (d : Depthmap) (m0 : grid Z)
  (st : grid Z * list Segment.t * Z) : Prop :=
  let '(m, segments, current_id) := st in
  current_id < 0
  /\ rect (width d) (height d) m
  /\ labelled m0 m
  /\ Forall (fun s => aabb_in (width d) (height d) (Segment.aabb s))
            segments.

(** The size [detect_objects] compares with width / 4. *)
Definition box_size (a : Aabb) : Z :=
  Z.max (aabb2 a - aabb0 a) (aabb3 a - aabb1 a).

(** The bounding box has its minima below its maxima. *)
Definition box_wf (a : Aabb) : Prop :=
  aabb0 a <= aabb2 a /\ aabb1 a <= aabb3 a.

(** The ids of the list decrease strictly from one segment to the next. *)
Definition ids_decreasing (segments : list Segment.t) : Prop :=
  forall i j s s', (i < j)%nat ->
    segments !! i = Some s -> segments !! j = Some s' ->
    Segment.id s' < Segment.id s.

(** The pixel (x, y) of the mask carries a label. *)
Definition labelled_at (m : grid Z) (x y : nat) : Prop :=
  exists c, get m x y = Some c /\ c <> 0.

(** The state of the scan holds a negative current id. *)
Definition scanning (st : grid Z * list Segment.t * Z) : Prop := st.2 < 0.

(** The pixels of the first and last row and column of the mask carry a
    label. *)
Definition frame_labelled (w h : nat) (m : grid Z) : Prop :=
  forall x y, (x < w)%nat -> (y < h)%nat ->
    x = 0%nat \/ y = 0%nat \/ S x = w \/ S y = h ->
    labelled_at m x y.

(** The pixel lies inside an image of shape (w, h). *)
Definition in_grid (w h : nat) (p : Z * Z) : Prop :=
  0 <= p.1 < Z.of_nat w /\ 0 <= p.2 < Z.of_nat h.

(** The bounding box lies inside an image of shape (w, h). *)
Definition box_in_grid (w h : nat) (a : Aabb) : Prop :=
  0 <= aabb0 a /\ aabb2 a < Z.of_nat w /\ 0 <= aabb1 a /\ aabb3 a < Z.of_nat h.

(** No measurement at all. *)
Definition dark_3x3 : result Depthmap :=
  capture centred_intrinsics 3 3 (1 # 1000) (fun _ _ => 0).

(** The oriented point of a pixel without measurement: the image of the
    origin under the device pose. *)
Definition origin_point (d : Depthmap) : vec3 :=
  let res := [0; 0; 0; 1]%Q in
  V3 (matmul_row (device_pose_arr d) 0 res
      / Qabs (matmul_row (device_pose_arr d) 3 res))%Q
     (- (matmul_row (device_pose_arr d) 1 res
         / Qabs (matmul_row (device_pose_arr d) 3 res)))%Q
     (matmul_row (device_pose_arr d) 2 res).

(** Component-wise equality of rationals. *)
Definition vec3_eq (p q : vec3) : Prop :=
  (v_x p == v_x q /\ v_y p == v_y q /\ v_z p == v_z q)%Q.




(** ** The highest point *)

(** A cell of [y_array]: a height, or [-np.inf]. *)
Inductive ext : Type :=
| NegInf
| Finite (q : Q).

Definition ext_lt (a b : ext) : bool :=
  match a, b with
  | NegInf, Finite _ => true
  | Finite x, Finite y => Qlt_bool x y
  | _, NegInf => false
  end.

(** The scan of [np.argmax]: the index of the first of the largest
    values. *)
Fixpoint argmax_from (best : ext) (ibest i : nat) (l : list ext) : nat :=
  match l with
  | [] => ibest
  | a :: l' =>
      if ext_lt best a then argmax_from a i (S i) l'
      else argmax_from best ibest (S i) l'
  end.

(** [np.argmax(a, axis=None)] on the flattened array; an empty array
    raises [ValueError]. *)
Definition argmax (l : list ext) : result nat :=
  match l with
  | [] => Raise ValueError
  | a :: l' => Ok (argmax_from a 0 1 l')
  end.

Section HighestPoint.
Context {K : Constants}.

(** numpy checks a boolean index against the indexed array axis by
    axis, and leaves out of the check an axis of the index of length 0:
    the index is accepted when every axis of the mask that is not empty
    has the length of the axis of the array.  A grid that is not
    rectangular is no array. *)
Definition boolean_index_accepted (w h : nat) (mask : grid Z) : bool :=
  let '(mw, mh) := shape mask in
  rectb mw mh mask
  && ((mw =? 0)%nat || (mw =? w)%nat)
  && ((mh =? 0)%nat || (mh =? h)%nat).

(** [y_array] after [y_array[mask != MASK_CHILD] = -np.inf].  A mask
    with an axis of length 0 selects nothing, and the assignment leaves
    [y_array] as it is. *)
Definition y_array (d : Depthmap) (mask : grid Z) : grid ext :=
  let points_3d_arr := convert_2d_to_3d_oriented d false in
  let y_array := map_grid (fun p => Finite (v_y p)) points_3d_arr in
  let '(mw, mh) := shape mask in
  if (mw =? 0)%nat || (mh =? 0)%nat then y_array
  else
    zip_with (zip_with (fun (m : Z) (y : ext) =>
                          if negb (m =? MASK_CHILD) then NegInf else y))
             mask y_array.

(** A boolean index that is not accepted raises [IndexError];
    [np.unravel_index] splits the flat index of an array of shape
    (width, height) into (idx / height, idx mod height). *)
Definition get_highest_point (d : Depthmap) (mask : grid Z) : result vec3 :=
  let points_3d_arr := convert_2d_to_3d_oriented d false in
  if negb (boolean_index_accepted (width d) (height d) mask)
  then Raise IndexError
  else
    idx ← argmax (concat (y_array d mask));
    let idx_highest_child_point :=
      ((idx / height d)%nat, (idx mod height d)%nat) in
    match get points_3d_arr idx_highest_child_point.1
              idx_highest_child_point.2 with
    | Some highest_point => Ok highest_point
    | None => Raise IndexError
    end.
End HighestPoint.

(** The pixel (x, y) comes before the pixel (x', y') in the order of the
    flattened array. *)
Definition before (x y x' y' : nat) : Prop :=
  (x < x')%nat \/ (x = x' /\ (y < y')%nat).

(** The projection divides by no zero and its arrays are not empty: the
    image has at least one pixel, fx and fy are not 0 and the pose is
    affine, its last row being 0 0 0 1. *)
Definition regular (d : Depthmap) : Prop :=
  (1 <= width d)%nat /\ (1 <= height d)%nat
  /\ ~ (fx d == 0)%Q /\ ~ (fy d == 0)%Q
  /\ device_pose_arr d !! 3%nat = Some [0; 0; 0; 1]%Q.

(** The pixel (x, y) is selected by [get_floor_level]. *)
Definition floor_candidate (d : Depthmap) (x y : nat) : Prop :=
  exists n,
    get (calculate_normalmap_array d (convert_2d_to_3d_oriented d true)) x y
    = Some n
    /\ abs_gt (n_y n) (1 # 2) = true.

(** The bounding box holds the pixel (x, y). *)
Definition box_has (a : Aabb) (x y : nat) : Prop :=
  aabb0 a <= Z.of_nat x <= aabb2 a /\ aabb1 a <= Z.of_nat y <= aabb3 a.

(** What the scan keeps true of the accepted segments. *)
Definition segments_inv (d : Depthmap) (st : grid Z * list Segment.t * Z)
  : Prop :=
  let '(_, segments, current_id) := st in
  current_id <= -1
  /\ Forall (fun s => current_id < Segment.id s <= -1
                      /\ box_wf (Segment.aabb s)
                      /\ Z.of_nat (width d) < 4 * box_size (Segment.aabb s))
            segments
  /\ ids_decreasing segments.

(** What a fill keeps true when the frame of the mask is labelled. *)
Definition safe_inv (w h : nat) (m : grid Z) (a : Aabb)
  (st : list (Z * Z)) : Prop :=
  rect w h m /\ frame_labelled w h m /\ box_in_grid w h a
  /\ Forall (in_grid w h) st.

(** What the scan keeps true when the frame of the mask is labelled. *)
Definition safe_scan (d : Depthmap) (st : grid Z * list Segment.t * Z)
  : Prop :=
  let '(m, segments, current_id) := st in
  current_id < 0
  /\ rect (width d) (height d) m
  /\ frame_labelled (width d) (height d) m
  /\ Forall (fun s => box_in_grid (width d) (height d) (Segment.aabb s))
            segments.

(** What a fill with the id [cur], started on the mask [m_init], keeps
    true: a pixel carries [cur] only inside the bounding box, and any
    other label is the one the pixel had. *)
Definition sound_inv (w h : nat) (cur : Z) (m_init m : grid Z) (a : Aabb)
  (st : list (Z * Z)) : Prop :=
  safe_inv w h m a st
  /\ forall x y c, get m x y = Some c ->
       (c = cur /\ box_has a x y) \/ (c <> cur /\ get m_init x y = Some c).

(** What the scan keeps true: every label is above the current id, and
    the pixels that carry the id of an accepted segment lie in its
    bounding box. *)
Definition sound_scan (d : Depthmap) (st : grid Z * list Segment.t * Z)
  : Prop :=
  safe_scan d st
  /\ (forall x y c, get st.1.1 x y = Some c -> st.2 < c)
  /\ Forall (fun s => st.2 < Segment.id s
                      /\ forall x y, get st.1.1 x y = Some (Segment.id s) ->
                                     box_has (Segment.aabb s) x y)
            st.1.2.

(** The pixel [p], in the coordinates the fill holds on its stack, is
    the cell (i, j) of an array of shape (w, h). *)
Definition cell_of (w h : nat) (p : Z * Z) (i j : nat) : Prop :=
  py_index w p.1 = Some i /\ py_index h p.2 = Some j.

(** The test of the fill on the depth of a neighbour. *)
Definition continuous (depth_dir depth_center : Q) : Prop :=
  (0 < depth_dir)%Q /\ (Qabs (depth_dir - depth_center) < 1 # 10)%Q.

(** What a fill with the id [cur] on the depth array [depth], started on
    the mask [ms], keeps true: it writes [cur] only, and the continuous
    neighbours of a cell it has expanded carry [cur] or wait on the
    stack. *)
Definition expanding (w h : nat) (depth : grid Q) (cur : Z) (ms m : grid Z)
  (st : list (Z * Z)) : Prop :=
  rect w h m
  /\ (forall i j c, get m i j = Some c -> c = cur \/ get ms i j = Some c)
  /\ forall i j dir dc dq k l,
       get ms i j = Some 0 -> get m i j = Some cur ->
       dir ∈ dirs -> get depth i j = Some dc ->
       cell_of w h (Z.of_nat i + dir.1, Z.of_nat j + dir.2) k l ->
       get depth k l = Some dq -> continuous dq dc ->
       get m k l = Some cur
       \/ exists s, s ∈ st /\ cell_of w h s k l.

(** What the scan keeps true: the continuous neighbours of a cell that
    the floor mask [m0] left unlabeled, and that a fill has labeled
    since, carry a segment id. *)
Definition relabelled (w h : nat) (depth : grid Q) (m0 m : grid Z) : Prop :=
  forall i j c dir dc dq k l,
    get m0 i j = Some 0 -> get m i j = Some c -> c <> 0 ->
    dir ∈ dirs -> get depth i j = Some dc ->
    cell_of w h (Z.of_nat i + dir.1, Z.of_nat j + dir.2) k l ->
    get depth k l = Some dq -> continuous dq dc ->
    exists c', get m k l = Some c' /\ c' < 0.

(** * Lemmas on numbers *)

Lemma Qlt_bool_iff (a b : Q) : Qlt_bool a b = true <-> (a < b)%Q.
Proof.
  unfold Qlt_bool. rewrite negb_true_iff.
  split; intros H.
  - apply Qnot_le_lt. intros Hle. apply Qle_bool_iff in Hle. congruence.
  - destruct (Qle_bool b a) eqn:E; [|reflexivity].
    apply Qle_bool_iff in E. exfalso. exact (Qlt_not_le _ _ H E).
Qed.

(** * Lemmas on grids *)

Section GridFacts.
Context {A : Type}.

Lemma get_tabulate (w h : nat) (f : nat -> nat -> A) (x y : nat) :
  (x < w)%nat -> (y < h)%nat -> get (tabulate w h f) x y = Some (f x y).
Proof.
  intros Hx Hy. unfold get, tabulate.
  rewrite list_lookup_fmap, lookup_seq_lt by done. simpl.
  rewrite list_lookup_fmap, lookup_seq_lt by done. done.
Qed.

Lemma get_tabulate_None (w h : nat) (f : nat -> nat -> A) (x y : nat) :
  (w <= x)%nat \/ (h <= y)%nat -> get (tabulate w h f) x y = None.
Proof.
  intros Hxy. unfold get, tabulate.
  rewrite list_lookup_fmap.
  destruct (decide (x < w)%nat) as [Hx|Hx].
  - rewrite lookup_seq_lt by done. simpl.
    rewrite list_lookup_fmap, lookup_seq_ge by lia. done.
  - rewrite lookup_seq_ge by lia. done.
Qed.

Lemma rect_tabulate (w h : nat) (f : nat -> nat -> A) :
  rect w h (tabulate w h f).
Proof.
  split.
  - unfold tabulate. rewrite length_fmap, length_seq. done.
  - unfold tabulate. apply Forall_fmap, Forall_forall. intros x _.
    simpl. rewrite length_fmap, length_seq. done.
Qed.

Lemma rect_shape (w h : nat) (g : grid A) :
  rect w h g -> (0 < w)%nat -> shape g = (w, h).
Proof.
  intros [Hl Hr] Hw. unfold shape. destruct g as [|row g]; simpl in *.
  - lia.
  - inversion Hr; subst. done.
Qed.

Lemma rect_get (w h : nat) (g : grid A) (x y : nat) :
  rect w h g -> (x < w)%nat -> (y < h)%nat -> is_Some (get g x y).
Proof.
  intros [Hl Hr] Hx Hy. unfold get.
  destruct (lookup_lt_is_Some_2 g x) as [row Hrow]; [lia|].
  rewrite Hrow. simpl.
  apply lookup_lt_is_Some_2.
  rewrite Forall_forall in Hr.
  rewrite (Hr row); [done|]. by eapply list_elem_of_lookup_2.
Qed.

Lemma rectb_spec (w h : nat) (g : grid A) : rectb w h g = true <-> rect w h g.
Proof.
  unfold rectb, rect. rewrite andb_true_iff, Nat.eqb_eq, forallb_forall.
  rewrite Forall_forall. split; intros [H1 H2]; split; try done.
  - intros row Hin. apply Nat.eqb_eq, H2. by apply list_elem_of_In.
  - intros row Hin. apply Nat.eqb_eq, H2. by apply list_elem_of_In.
Qed.
End GridFacts.

Lemma get_map_grid {A B} (f : A -> B) (g : grid A) (x y : nat) :
  get (map_grid f g) x y = f <$> get g x y.
Proof.
  unfold get, map_grid. rewrite list_lookup_fmap.
  destruct (g !! x) as [row|]; simpl; [|done].
  by rewrite list_lookup_fmap.
Qed.

Lemma cellb_tabulate (w h : nat) (f : nat -> nat -> bool) (x y : nat) :
  (x < w)%nat -> (y < h)%nat -> cellb (tabulate w h f) x y = f x y.
Proof. intros Hx Hy. unfold cellb. by rewrite get_tabulate. Qed.

Lemma cell_tabulate (w h : nat) (f : nat -> nat -> Q) (x y : nat) :
  (x < w)%nat -> (y < h)%nat -> cell (tabulate w h f) x y = f x y.
Proof. intros Hx Hy. unfold cell. by rewrite get_tabulate. Qed.

(** * Smoothing: zeros spread to their 4-neighbourhood *)

Section Smoothing.
Variables (w h : nat) (image_arr : grid Q).
Hypothesis Hrect : rect w h image_arr.

Lemma zero_at_center (x y : nat) :
  zero_at image_arr x y ->
  cellb (map_grid (fun v => Qeq_bool v 0) image_arr) x y = true.
Proof.
  intros (v & Hv & Hz). unfold cellb. rewrite get_map_grid, Hv. simpl.
  by apply Qeq_bool_iff.
Qed.

Lemma zero_at_bounds (x y : nat) :
  zero_at image_arr x y -> (x < w)%nat /\ (y < h)%nat.
Proof.
  intros (v & Hv & _). unfold get in Hv.
  destruct (image_arr !! x) as [row|] eqn:Hrow; simpl in Hv; [|done].
  destruct Hrect as [Hl Hr]. rewrite Forall_forall in Hr.
  split.
  - rewrite <- Hl. by eapply lookup_lt_Some.
  - rewrite <- (Hr row) by (by eapply list_elem_of_lookup_2).
    by eapply lookup_lt_Some.
Qed.

Lemma smoothen_zero (x y x' y' : nat) :
  (x < w)%nat -> (y < h)%nat ->
  near x y x' y' -> zero_at image_arr x' y' ->
  get (smoothen_depthmap_array image_arr) x y = Some 0%Q.
Proof.
  intros Hx Hy Hnear Hz.
  pose proof (zero_at_bounds _ _ Hz) as [Hx' Hy'].
  pose proof (zero_at_center _ _ Hz) as Hc.
  unfold smoothen_depthmap_array.
  rewrite (rect_shape w h) by (done || lia).
  rewrite get_tabulate by done.
  rewrite cellb_tabulate by done.
  rewrite !cellb_tabulate by done.
  destruct Hnear as [[-> ->]|[[-> [->| ->]]|[-> [->| ->]]]].
  - by rewrite Hc.
  - apply Nat.ltb_lt in Hx' as ->. rewrite Hc.
    by rewrite !orb_true_r.
  - rewrite Hc. by rewrite !orb_true_r.
  - apply Nat.ltb_lt in Hy' as ->. rewrite Hc.
    by rewrite !orb_true_r.
  - rewrite Hc. by rewrite !orb_true_r.
Qed.
End Smoothing.

(** * The depth buffer decoder *)

Lemma mapM_Ok {A B} (f : A -> result B) (g : A -> B) (l : list A) :
  (forall a, a ∈ l -> f a = Ok (g a)) -> mapM f l = Ok (g <$> l).
Proof.
  induction l as [|a l IH]; intros Hf; simpl; [done|].
  rewrite Hf by left. simpl.
  rewrite IH by (intros b Hb; apply Hf; by right). done.
Qed.

Lemma tabulateM_Ok {A} (w h : nat) (f : nat -> nat -> result A)
  (g : nat -> nat -> A) :
  (forall x y, (x < w)%nat -> (y < h)%nat -> f x y = Ok (g x y)) ->
  tabulateM w h f = Ok (tabulate w h g).
Proof.
  intros Hf. unfold tabulateM, tabulate.
  apply (mapM_Ok _ (fun x => (fun y => g x y) <$> seq 0 h)).
  intros x Hx. apply elem_of_seq in Hx.
  apply mapM_Ok. intros y Hy. apply elem_of_seq in Hy.
  apply Hf; lia.
Qed.

Lemma byte_to_Z_range (b : byte) : 0 <= byte_to_Z b < 256.
Proof.
  unfold byte_to_Z. pose proof (Byte.to_N_bounded b). lia.
Qed.

(** The sum of the source ([depth = b0 << 8; depth += b1]) is the
    bitwise or of the specification. *)
Lemma shift_add_is_lor (b0 b1 : Z) :
  0 <= b1 < 256 -> Z.shiftl b0 8 + b1 = Z.lor (Z.shiftl b0 8) b1.
Proof.
  intros Hb1.
  assert (Hland : Z.land (Z.shiftl b0 8) b1 = 0).
  { apply Z.bits_inj'. intros n Hn.
    rewrite Z.land_spec, Z.bits_0.
    destruct (decide (n < 8)) as [Hlt|Hge].
    - rewrite Z.shiftl_spec_low by lia. done.
    - assert (Z.testbit b1 n = false) as ->; [|by rewrite andb_false_r].
      destruct (decide (b1 = 0)) as [->|Hnz]; [apply Z.bits_0|].
      apply Z.bits_above_log2; [lia|].
      apply Z.log2_lt_pow2; [lia|].
      assert (2 ^ 8 <= 2 ^ n) by (apply Z.pow_le_mono_r; lia).
      change (2 ^ 8) with 256 in *. lia. }
  rewrite Z.add_nocarry_lxor by done.
  by apply Z.lxor_lor.
Qed.

Lemma bytes_getitem_nat (data : list byte) (k : nat) (b : byte) :
  data !! k = Some b -> bytes_getitem data (Z.of_nat k) = Ok (byte_to_Z b).
Proof.
  intros Hk. pose proof (lookup_lt_Some _ _ _ Hk) as Hlt.
  unfold bytes_getitem, py_index.
  replace ((0 <=? Z.of_nat k) && (Z.of_nat k <? Z.of_nat (length data)))
    with true by (symmetry; apply andb_true_iff; split; lia).
  rewrite Nat2Z.id, Hk. done.
Qed.

(** C6.  Decoding a byte buffer that holds the three bytes of every
    pixel succeeds; at a pixel with x >= 1 and y >= 1 the depth is
    ((b0 << 8) | b1) * depth_scale for the first two bytes b0, b1 of the
    pixel's record at offset (y * width + x) * 3, and at a pixel of the
    first row or column (x < 1 or y < 1) it is exactly 0. *)
Theorem parse_depth_data_decodes
  (width height : nat) (depth_scale : Q) (data : list byte) :
  (3 * width * height <= length data)%nat ->
  exists output,
    _parse_depth_data width height depth_scale data = Ok output /\
    rect width height output /\
    forall x y, (x < width)%nat -> (y < height)%nat ->
      if (x <? 1)%nat || (y <? 1)%nat
      then get output x y = Some 0%Q
      else exists b0 b1,
        data !! ((y * width + x) * 3)%nat = Some b0 /\
        data !! ((y * width + x) * 3 + 1)%nat = Some b1 /\
        get output x y
        = Some (inject_Z (Z.lor (Z.shiftl (byte_to_Z b0) 8) (byte_to_Z b1))
                * depth_scale)%Q.
Proof.
  intros Hlen.
  set (byte_at k := byte_to_Z (default x00 (data !! k))).
  set (g x y :=
         if (x <? 1)%nat || (y <? 1)%nat then 0%Q
         else (inject_Z (Z.lor (Z.shiftl (byte_at ((y * width + x) * 3)%nat) 8)
                               (byte_at ((y * width + x) * 3 + 1)%nat))
               * depth_scale)%Q).
  assert (Hin : forall x y k, (x < width)%nat -> (y < height)%nat ->
            (k < 3)%nat -> ((y * width + x) * 3 + k < length data)%nat).
  { intros x y k Hx Hy Hk. nia. }
  exists (tabulate width height g). split; [|split].
  - apply tabulateM_Ok. intros x y Hx Hy.
    unfold _parse_depth, g.
    replace (Z.of_nat x <? 1) with (x <? 1)%nat
      by (destruct (Nat.ltb_spec x 1), (Z.ltb_spec (Z.of_nat x) 1); lia).
    replace (Z.of_nat y <? 1) with (y <? 1)%nat
      by (destruct (Nat.ltb_spec y 1), (Z.ltb_spec (Z.of_nat y) 1); lia).
    replace (Z.of_nat x >=? Z.of_nat width) with false by lia.
    replace (Z.of_nat y >=? Z.of_nat height) with false by lia.
    rewrite !orb_false_r.
    destruct ((x <? 1)%nat || (y <? 1)%nat); [done|].
    destruct (lookup_lt_is_Some_2 data ((y * width + x) * 3)%nat) as [b0 Hb0].
    { specialize (Hin x y 0%nat Hx Hy). lia. }
    destruct (lookup_lt_is_Some_2 data ((y * width + x) * 3 + 1)%nat)
      as [b1 Hb1].
    { apply Hin; lia. }
    replace ((Z.of_nat y * Z.of_nat width + Z.of_nat x) * 3 + 0)
      with (Z.of_nat ((y * width + x) * 3)) by lia.
    replace ((Z.of_nat y * Z.of_nat width + Z.of_nat x) * 3 + 1)
      with (Z.of_nat ((y * width + x) * 3 + 1)) by lia.
    rewrite (bytes_getitem_nat _ _ _ Hb0). simpl.
    rewrite (bytes_getitem_nat _ _ _ Hb1). simpl.
    unfold byte_at. rewrite Hb0, Hb1. simpl.
    rewrite shift_add_is_lor by apply byte_to_Z_range. done.
  - apply rect_tabulate.
  - intros x y Hx Hy. rewrite get_tabulate by done. unfold g.
    destruct ((x <? 1)%nat || (y <? 1)%nat); [done|].
    destruct (lookup_lt_is_Some_2 data ((y * width + x) * 3)%nat) as [b0 Hb0].
    { specialize (Hin x y 0%nat Hx Hy). lia. }
    destruct (lookup_lt_is_Some_2 data ((y * width + x) * 3 + 1)%nat)
      as [b1 Hb1].
    { apply Hin; lia. }
    exists b0, b1. unfold byte_at. rewrite Hb0, Hb1. done.
Qed.

(** * Smoothing *)

(** C7.  The smoothed array is exactly 0 at every pixel that is zero in
    the input or has an in-bounds direct neighbour that is zero in the
    input. *)
Theorem smoothen_zero_spreads
  (w h : nat) (image_arr : grid Q) (x y x' y' : nat) :
  rect w h image_arr ->
  (x < w)%nat -> (y < h)%nat ->
  near x y x' y' -> zero_at image_arr x' y' ->
  get (smoothen_depthmap_array image_arr) x y = Some 0%Q.
Proof. intros. by eapply smoothen_zero. Qed.

(** * Projection and its inverse *)

Lemma getitem_row {A} (n m : nat) (g : grid A) (s : Z) (row : list A)
  (k : nat) (v : A) :
  rect n m g -> list_getitem g s = Ok row -> row !! k = Some v ->
  getitem g s (Z.of_nat k) = Ok v.
Proof.
  intros Hrect Hrow Hk. unfold list_getitem in Hrow.
  destruct (py_index (length g) s) as [i|] eqn:Hi; [|done].
  destruct (g !! i) as [row'|] eqn:Hgi; [|done].
  injection Hrow as ->.
  assert (Hn : (0 < n)%nat).
  { destruct Hrect as [<- _]. apply lookup_lt_Some in Hgi. lia. }
  assert (Hm : length row = m).
  { destruct Hrect as [_ Hr]. rewrite Forall_forall in Hr. apply Hr.
    by eapply list_elem_of_lookup_2. }
  unfold getitem. rewrite (rect_shape n m) by done.
  destruct Hrect as [<- _]. rewrite Hi.
  apply lookup_lt_Some in Hk as Hlt.
  unfold py_index at 1.
  replace ((0 <=? Z.of_nat k) && (Z.of_nat k <? Z.of_nat m))
    with true by (symmetry; apply andb_true_iff; split; lia).
  rewrite Nat2Z.id. unfold get. rewrite Hgi. simpl. by rewrite Hk.
Qed.

Lemma convert_3d_to_2d_Ok (i0 i1 i2 i3 x y depth : Q) (w h : nat) :
  ~ (depth == 0)%Q ->
  convert_3d_to_2d [i0; i1; i2; i3] x y depth w h
  = Ok (V3 (x * (i0 * inject_Z (Z.of_nat w)) / depth
            + i2 * inject_Z (Z.of_nat w))%Q
           (y * (i1 * inject_Z (Z.of_nat h)) / depth
            + i3 * inject_Z (Z.of_nat h))%Q
           depth).
Proof.
  intros Hdepth. unfold convert_3d_to_2d.
  change (list_getitem [i0; i1; i2; i3] 0) with (Ok i0).
  change (list_getitem [i0; i1; i2; i3] 1) with (Ok i1).
  change (list_getitem [i0; i1; i2; i3] 2) with (Ok i2).
  change (list_getitem [i0; i1; i2; i3] 3) with (Ok i3).
  cbn [mbind result_bind].
  destruct (Qeq_bool depth 0) eqn:E; [|reflexivity].
  by apply Qeq_bool_iff in E.
Qed.

(** C8.  For the intrinsics row of a sensor with fx <> 0 and fy <> 0 and
    a non-zero depth, the 3D-to-2D conversion of the 2D-to-3D conversion
    of (x, y, depth) gives back x, y and depth. *)
Theorem convert_roundtrip
  (d : Depthmap) (sensor : Z) (n : nat) (i0 i1 i2 i3 x y depth : Q) :
  rect n 4 (intrinsics d) ->
  list_getitem (intrinsics d) sensor = Ok [i0; i1; i2; i3] ->
  ~ (i0 * inject_Z (Z.of_nat (width d)) == 0)%Q ->
  ~ (i1 * inject_Z (Z.of_nat (height d)) == 0)%Q ->
  ~ (depth == 0)%Q ->
  exists p q,
    convert_2d_to_3d d sensor x y depth = Ok p /\
    convert_3d_to_2d [i0; i1; i2; i3] (v_x p) (v_y p) (v_z p)
                     (width d) (height d) = Ok q /\
    (v_x q == x)%Q /\ (v_y q == y)%Q /\ (v_z q == depth)%Q.
Proof.
  intros Hrect Hrow Hfx Hfy Hdepth.
  unfold convert_2d_to_3d.
  pose proof (getitem_row n 4 _ _ _ 0 i0 Hrect Hrow eq_refl) as H0.
  pose proof (getitem_row n 4 _ _ _ 1 i1 Hrect Hrow eq_refl) as H1.
  pose proof (getitem_row n 4 _ _ _ 2 i2 Hrect Hrow eq_refl) as H2.
  pose proof (getitem_row n 4 _ _ _ 3 i3 Hrect Hrow eq_refl) as H3.
  change (Z.of_nat 0) with 0 in H0. change (Z.of_nat 1) with 1 in H1.
  change (Z.of_nat 2) with 2 in H2. change (Z.of_nat 3) with 3 in H3.
  rewrite H0. simpl. rewrite H1. simpl. rewrite H2. simpl. rewrite H3.
  simpl. eexists _, _. split; [reflexivity|].
  rewrite convert_3d_to_2d_Ok by exact Hdepth.
  split; [reflexivity|]. simpl.
  split; [|split; [|reflexivity]].
  - field. repeat split; [| |done];
      intros H; apply Hfx; rewrite H; ring.
  - field. repeat split; [| |done];
      intros H; apply Hfy; rewrite H; ring.
Qed.

(** * Normals *)






(** * Construction *)

Lemma getitem_not_OutOfFuel {A} (g : grid A) (x y : Z) :
  getitem g x y <> OutOfFuel.
Proof.
  unfold getitem. destruct (shape g) as [w h].
  destruct (py_index w x), (py_index h y); try done.
  by destruct (get g _ _).
Qed.

Lemma setitem_not_OutOfFuel {A} (g : grid A) (x y : Z) (v : A) :
  setitem g x y v <> OutOfFuel.
Proof.
  unfold setitem. destruct (shape g) as [w h].
  destruct (py_index w x) as [i|], (py_index h y); try done.
  by destruct (g !! i).
Qed.

Lemma reshape_not_OutOfFuel (pose : list Q) : reshape_4_4_T pose <> OutOfFuel.
Proof. unfold reshape_4_4_T. by destruct (_ =? _)%nat. Qed.

(** The reads that open the constructor either raise or give a value. *)
Ltac open_constructor :=
  repeat match goal with
         | |- context [mbind _ (getitem ?g ?x ?y)] =>
             let E := fresh "E" in
             destruct (getitem g x y) eqn:E; simpl;
             [| eauto | by apply getitem_not_OutOfFuel in E]
         | |- context [mbind _ (reshape_4_4_T ?p)] =>
             let E := fresh "E" in
             destruct (reshape_4_4_T p) eqn:E; simpl;
             [| eauto | by apply reshape_not_OutOfFuel in E]
         end.

(** C10.  Constructing a Depthmap with both a byte buffer and a depth
    array raises, constructing one with neither raises, and a Depthmap is
    obtained only when exactly one of the two is supplied. *)
Theorem construction_contract
  (intrinsics : grid Q) (width height : nat)
  (data : option (list byte)) (depthmap_arr : option (grid Q))
  (depth_scale max_confidence : Q) (device_pose : list Q) :
  let r := __init__ intrinsics width height data depthmap_arr
                    depth_scale max_confidence device_pose in
  (is_Some data -> is_Some depthmap_arr -> exists e, r = Raise e) /\
  (data = None -> depthmap_arr = None -> exists e, r = Raise e) /\
  (forall d, r = Ok d ->
     (is_Some data /\ depthmap_arr = None)
     \/ (data = None /\ is_Some depthmap_arr)).
Proof.
  simpl. unfold __init__. split; [|split].
  - intros [bs ->] [arr ->]. open_constructor. eauto.
  - intros -> ->. open_constructor. eauto.
  - intros d.
    open_constructor; try done.
    destruct data as [bs|], depthmap_arr as [arr|]; simpl; try done.
    + intros _. left. eauto.
    + intros _. right. eauto.
Qed.

(** * Reading and writing cells *)

Lemma py_index_bounds (n : nat) (i : Z) (k : nat) :
  py_index n i = Some k ->
  - Z.of_nat n <= i < Z.of_nat n /\ (k < n)%nat.
Proof.
  unfold py_index.
  destruct ((0 <=? i) && (i <? Z.of_nat n)) eqn:E1.
  - apply andb_true_iff in E1 as [? ?]. intros [= <-]. lia.
  - destruct ((- Z.of_nat n <=? i) && (i <? 0)) eqn:E2; [|done].
    apply andb_true_iff in E2 as [? ?]. intros [= <-]. lia.
Qed.

Lemma py_index_nat (n k : nat) :
  (k < n)%nat -> py_index n (Z.of_nat k) = Some k.
Proof.
  intros Hk. unfold py_index.
  replace ((0 <=? Z.of_nat k) && (Z.of_nat k <? Z.of_nat n))
    with true by (symmetry; apply andb_true_iff; split; lia).
  by rewrite Nat2Z.id.
Qed.

Section Cells.
Context {A : Type}.
Implicit Types (g : grid A) (v c : A).

Lemma getitem_Ok g x y c :
  getitem g x y = Ok c ->
  exists i j, py_index (shape g).1 x = Some i
              /\ py_index (shape g).2 y = Some j
              /\ get g i j = Some c.
Proof.
  unfold getitem. destruct (shape g) as [w h]. simpl.
  destruct (py_index w x) as [i|]; [|done].
  destruct (py_index h y) as [j|]; [|done].
  destruct (get g i j) as [c'|] eqn:Hc; [|done].
  intros [= <-]. eauto.
Qed.

Lemma getitem_nat g (x y : nat) (w h : nat) c :
  rect w h g -> get g x y = Some c ->
  getitem g (Z.of_nat x) (Z.of_nat y) = Ok c.
Proof.
  intros Hrect Hget.
  assert (Hb : (x < w)%nat /\ (y < h)%nat).
  { unfold get in Hget.
    destruct (g !! x) as [row|] eqn:Hrow; simpl in Hget; [|done].
    destruct Hrect as [Hl Hr]. rewrite Forall_forall in Hr.
    split.
    - rewrite <- Hl. by eapply lookup_lt_Some.
    - rewrite <- (Hr row) by (by eapply list_elem_of_lookup_2).
      by eapply lookup_lt_Some. }
  destruct Hb as [Hx Hy].
  unfold getitem. rewrite (rect_shape w h) by (done || lia).
  rewrite !py_index_nat by done. by rewrite Hget.
Qed.

Lemma get_insert_row g i j v row x y :
  g !! i = Some row ->
  get (<[i := <[j := v]> row]> g) x y
  = if decide (x = i /\ y = j) then (fun _ => v) <$> get g x y
    else get g x y.
Proof.
  intros Hrow. unfold get.
  destruct (decide (x = i)) as [->|Hne].
  - rewrite list_lookup_insert_eq by (by eapply lookup_lt_Some).
    rewrite Hrow. simpl.
    destruct (decide (y = j)) as [->|Hne'].
    + rewrite decide_True by done.
      destruct (row !! j) as [c|] eqn:Hc.
      * rewrite list_lookup_insert_eq by (by eapply lookup_lt_Some). done.
      * apply lookup_ge_None in Hc. simpl.
        apply lookup_ge_None. by rewrite length_insert.
    + rewrite decide_False by (intros [_ ?]; done).
      by rewrite list_lookup_insert_ne.
  - rewrite decide_False by (intros [? _]; done).
    by rewrite list_lookup_insert_ne.
Qed.

Lemma setitem_Ok g x y v g' :
  setitem g x y v = Ok g' ->
  exists i j, py_index (shape g).1 x = Some i
              /\ py_index (shape g).2 y = Some j
              /\ forall x' y',
                  get g' x' y'
                  = if decide (x' = i /\ y' = j)
                    then (fun _ => v) <$> get g x' y'
                    else get g x' y'.
Proof.
  unfold setitem. destruct (shape g) as [w h]. simpl.
  destruct (py_index w x) as [i|]; [|done].
  destruct (py_index h y) as [j|]; [|done].
  destruct (g !! i) as [row|] eqn:Hrow; [|done].
  intros [= <-]. exists i, j. repeat split.
  intros x' y'. by apply get_insert_row.
Qed.

Lemma setitem_rect (w h : nat) g x y v g' :
  rect w h g -> setitem g x y v = Ok g' -> rect w h g'.
Proof.
  intros [Hl Hr]. unfold setitem. destruct (shape g) as [w' h'].
  destruct (py_index w' x) as [i|]; [|done].
  destruct (py_index h' y) as [j|]; [|done].
  destruct (g !! i) as [row|] eqn:Hrow; [|done].
  intros [= <-]. split.
  - by rewrite length_insert.
  - apply Forall_insert; [done|]. rewrite length_insert.
    rewrite Forall_forall in Hr. apply Hr.
    by eapply list_elem_of_lookup_2.
Qed.

Lemma setitem_concat_length g x y v g' :
  setitem g x y v = Ok g' -> length (concat g') = length (concat g).
Proof.
  unfold setitem. destruct (shape g) as [w' h'].
  destruct (py_index w' x) as [i|]; [|done].
  destruct (py_index h' y) as [j|]; [|done].
  destruct (g !! i) as [row|] eqn:Hrow; [|done].
  intros [= <-].
  rewrite insert_take_drop by (by eapply lookup_lt_Some).
  rewrite <- (take_drop_middle g i row Hrow) at 3.
  rewrite !concat_app, !length_app. simpl.
  rewrite !length_app, length_insert. done.
Qed.

Lemma rect_bounds (w h : nat) g i j c :
  rect w h g -> get g i j = Some c -> (i < w)%nat /\ (j < h)%nat.
Proof.
  intros [Hl Hr] Hget. unfold get in Hget.
  destruct (g !! i) as [row|] eqn:Hrow; simpl in Hget; [|done].
  rewrite Forall_forall in Hr. split.
  - rewrite <- Hl. by eapply lookup_lt_Some.
  - rewrite <- (Hr row) by (by eapply list_elem_of_lookup_2).
    by eapply lookup_lt_Some.
Qed.

(** A successful read inside an array of shape (w, h) is at a pixel of
    [-w, w) x [-h, h). *)
Lemma getitem_bounds (w h : nat) g x y c :
  rect w h g -> getitem g x y = Ok c ->
  - Z.of_nat w <= x < Z.of_nat w /\ - Z.of_nat h <= y < Z.of_nat h.
Proof.
  intros Hrect Hget.
  apply getitem_Ok in Hget as (i & j & Hi & Hj & Hc).
  pose proof (rect_bounds _ _ _ _ _ _ Hrect Hc) as [Hiw Hjh].
  rewrite (rect_shape w h) in Hi, Hj by (done || lia). simpl in *.
  apply py_index_bounds in Hi, Hj. lia.
Qed.
End Cells.

(** * Loops *)

Lemma for_each_inv {S A} (I : S -> Prop) (body : S -> A -> result S)
  (l : list A) :
  (forall s a s', a ∈ l -> I s -> body s a = Ok s' -> I s') ->
  forall s s', I s -> for_each body l s = Ok s' -> I s'.
Proof.
  induction l as [|a l IH]; intros Hbody s s' Hs; simpl.
  - by intros [= <-].
  - destruct (body s a) as [s1| |] eqn:E; simpl; [|done..].
    apply IH; [|by eapply Hbody; [left|..]].
    intros s2 b s3 Hb. apply Hbody. by right.
Qed.

Lemma for_each_fuel {S A} (I : S -> Prop) (body : S -> A -> result S)
  (l : list A) :
  (forall s a s', a ∈ l -> I s -> body s a = Ok s' -> I s') ->
  (forall s a, a ∈ l -> I s -> body s a <> OutOfFuel) ->
  forall s, I s -> for_each body l s <> OutOfFuel.
Proof.
  induction l as [|a l IH]; intros Hstep Hfuel s Hs; simpl; [done|].
  destruct (body s a) as [s1| |] eqn:E; simpl; [|done|].
  - apply IH.
    + intros s2 b s3 Hb. apply Hstep. by right.
    + intros s2 b Hb. apply Hfuel. by right.
    + eapply Hstep; [left|done..].
  - apply Hfuel in E; [done|left|done].
Qed.

(** * The flood fill *)

Section FloodFill.
Context {K : Constants}.
Variables (w h : nat) (depth : grid Q) (m0 : grid Z) (cur : Z).
Hypothesis Hcur : cur < 0.

Lemma push_neighbours_not_OutOfFuel p dc ds st :
  push_neighbours depth p dc ds st <> OutOfFuel.
Proof.
  revert st. induction ds as [|dir ds IH]; intros st; simpl; [done|].
  destruct (getitem depth _ _) eqn:E; simpl; [apply IH|done|].
  by apply getitem_not_OutOfFuel in E.
Qed.

Lemma push_neighbours_length p dc ds st st' :
  push_neighbours depth p dc ds st = Ok st' ->
  (length st' <= length st + length ds)%nat.
Proof.
  revert st. induction ds as [|dir ds IH]; intros st; simpl.
  - intros [= <-]. lia.
  - destruct (getitem depth _ _) eqn:E; simpl; [|done..].
    intros Hpush. apply IH in Hpush.
    destruct (_ && _) in Hpush; simpl in Hpush; lia.
Qed.

Lemma visit_Ok m a p st m' a' st' :
  visit depth cur m a p st = Ok (m', a', st') ->
  exists dc c,
    getitem depth p.1 p.2 = Ok dc
    /\ getitem m p.1 p.2 = Ok c
    /\ (if c =? 0 then push_neighbours depth p dc dirs st else Ok st)
       = Ok st'
    /\ a' = update_aabb p a
    /\ setitem m p.1 p.2 cur = Ok m'.
Proof.
  unfold visit. generalize dirs. intros ds.
  destruct (getitem depth _ _) as [dc| |]; simpl; [|done..].
  destruct (getitem m _ _) as [c| |]; simpl; [|done..].
  destruct (if c =? 0 then _ else _) as [st1| |] eqn:Est; simpl; [|done..].
  destruct (setitem m _ _ _) as [m1| |]; simpl; [|done..].
  intros [= <- <- <-]. by exists dc, c.
Qed.

Lemma visit_not_OutOfFuel m a p st :
  visit depth cur m a p st <> OutOfFuel.
Proof.
  unfold visit. generalize dirs. intros ds.
  destruct (getitem depth _ _) as [dc| |] eqn:E1; simpl;
    [|done|by apply getitem_not_OutOfFuel in E1].
  destruct (getitem m _ _) as [c| |] eqn:E2; simpl;
    [|done|by apply getitem_not_OutOfFuel in E2].
  destruct (if c =? 0 then _ else _) as [st1| |] eqn:Est; simpl; [|done|].
  - destruct (setitem m _ _ _) as [m1| |] eqn:E3; simpl; [done..|].
    by apply setitem_not_OutOfFuel in E3.
  - destruct (c =? 0); [|done].
    by apply push_neighbours_not_OutOfFuel in Est.
Qed.

Lemma visit_inv m a p st m' a' st' :
  fill_inv w h m0 m a -> visit depth cur m a p st = Ok (m', a', st') ->
  fill_inv w h m0 m' a'.
Proof.
  intros (Hrect & Hlab & Hbox) Hvisit.
  apply visit_Ok in Hvisit as (dc & c & _ & Hc & _ & -> & Hset).
  pose proof (getitem_bounds _ _ _ _ _ _ Hrect Hc) as [Hx Hy].
  split; [|split].
  - by eapply setitem_rect.
  - intros x y c' Hget.
    apply setitem_Ok in Hset as (i & j & _ & _ & Hm').
    rewrite Hm' in Hget.
    destruct (decide (x = i /\ y = j)); [|by apply Hlab].
    destruct (get m x y); simpl in Hget; [|done].
    injection Hget as <-. by right.
  - destruct Hbox as (? & ? & ? & ?).
    unfold aabb_in, update_aabb. simpl. lia.
Qed.

Lemma flood_inv fuel m a st m' a' :
  fill_inv w h m0 m a -> flood fuel depth cur m a st = Ok (m', a') ->
  fill_inv w h m0 m' a'.
Proof.
  revert m a st. induction fuel as [|fuel IH]; intros m a st Hinv.
  - destruct st; simpl; [|done]. by intros [= <- <-].
  - destruct st as [|p st]; simpl; [by intros [= <- <-]|].
    destruct (visit depth cur m a p st) as [[[m1 a1] st1]| |] eqn:E;
      simpl; [|done..].
    apply IH. by eapply visit_inv.
Qed.

(** ** The fill drains *)

Lemma zeros_insert (row : list Z) (j : nat) (c v : Z) :
  row !! j = Some c -> v <> 0 ->
  (length (filter (fun c : Z => c = 0%Z) (<[j := v]> row))
   + (if decide (c = 0%Z) then 1 else 0)
   = length (filter (fun c : Z => c = 0%Z) row))%nat.
Proof.
  intros Hj Hv.
  rewrite insert_take_drop by (by eapply lookup_lt_Some).
  rewrite <- (take_drop_middle row j c Hj) at 3.
  rewrite !filter_app, !length_app, !filter_cons.
  rewrite (decide_False (P := v = 0)) by done.
  destruct (decide (c = 0)); simpl; lia.
Qed.

Lemma zeros_setitem m x y c v m' :
  getitem m x y = Ok c -> setitem m x y v = Ok m' -> v <> 0 ->
  (zeros m' + (if decide (c = 0%Z) then 1 else 0) = zeros m)%nat.
Proof.
  unfold getitem, setitem, zeros. destruct (shape m) as [w' h'].
  destruct (py_index w' x) as [i|]; [|done].
  destruct (py_index h' y) as [j|]; [|done].
  unfold get.
  destruct (m !! i) as [row|] eqn:Hrow; simpl; [|done].
  destruct (row !! j) as [c'|] eqn:Hc; [|done].
  intros [= ->] [= <-] Hv.
  rewrite insert_take_drop by (by eapply lookup_lt_Some).
  rewrite <- (take_drop_middle m i row Hrow) at 3.
  rewrite !concat_app, !filter_app, !length_app. simpl.
  rewrite !filter_app, !length_app.
  pose proof (zeros_insert row j c v Hc Hv). lia.
Qed.

Lemma visit_measure m a p st m' a' st' :
  visit depth cur m a p st = Ok (m', a', st') ->
  (4 * zeros m' + length st' <= 4 * zeros m + length st)%nat.
Proof.
  intros Hvisit.
  apply visit_Ok in Hvisit as (dc & c & _ & Hc & Hst & _ & Hset).
  pose proof (zeros_setitem _ _ _ _ _ _ Hc Hset ltac:(lia)) as Hz.
  destruct (Z.eqb_spec c 0) as [->|Hne].
  - apply push_neighbours_length in Hst. simpl in Hst.
    rewrite decide_True in Hz by done. lia.
  - injection Hst as <-. rewrite decide_False in Hz by done. lia.
Qed.

Lemma flood_drains fuel m a st :
  (4 * zeros m + length st <= fuel)%nat ->
  flood fuel depth cur m a st <> OutOfFuel.
Proof.
  revert m a st. induction fuel as [|fuel IH]; intros m a st Hfuel.
  - destruct st; simpl in *; [done|lia].
  - destruct st as [|p st]; simpl; [done|].
    destruct (visit depth cur m a p st) as [[[m1 a1] st1]| |] eqn:E;
      simpl; [|done|by apply visit_not_OutOfFuel in E].
    apply IH. apply visit_measure in E. simpl in Hfuel. lia.
Qed.

Lemma zeros_le m : (zeros m <= length (concat m))%nat.
Proof. unfold zeros. apply length_filter. Qed.
End FloodFill.

(** * The floor mask *)

Lemma get_zip_with2 {A B C} (f : A -> B -> C) (a : grid A) (b : grid B)
  (x y : nat) :
  get (zip_with (zip_with f) a b) x y
  = u ← get a x y; v ← get b x y; Some (f u v).
Proof.
  unfold get. rewrite lookup_zip_with.
  destruct (a !! x) as [ra|]; simpl; [|done].
  destruct (b !! x) as [rb|]; simpl.
  - rewrite lookup_zip_with. done.
  - by destruct (ra !! y).
Qed.

Lemma rect_zip_with2 {A B C} (f : A -> B -> C) (w h : nat)
  (a : grid A) (b : grid B) :
  rect w h a -> rect w h b -> rect w h (zip_with (zip_with f) a b).
Proof.
  intros [Hla Hra] [Hlb Hrb]. split.
  - rewrite length_zip_with. lia.
  - apply Forall_lookup. intros i row Hrow.
    apply lookup_zip_with_Some in Hrow as (ra & rb & -> & Ha & Hb).
    rewrite Forall_lookup in Hra. rewrite Forall_lookup in Hrb.
    rewrite length_zip_with, (Hra _ _ Ha), (Hrb _ _ Hb). lia.
Qed.

Lemma rect_map_grid {A B} (f : A -> B) (w h : nat) (g : grid A) :
  rect w h g -> rect w h (map_grid f g).
Proof.
  intros [Hl Hr]. split.
  - unfold map_grid. by rewrite length_fmap.
  - unfold map_grid. apply Forall_fmap.
    eapply Forall_impl; [exact Hr|]. intros row Hrow. simpl.
    by rewrite length_fmap.
Qed.

Section FloorMask.
Context {K : Constants}.

Lemma detect_floor_rect d floor m0 :
  detect_floor d floor = Ok m0 -> rect (width d) (height d) m0.
Proof.
  unfold detect_floor.
  destruct (rectb _ _ _) eqn:Hr; simpl; [|done].
  apply rectb_spec in Hr. intros [= <-].
  unfold mask_assign.
  apply rect_zip_with2.
  - apply rect_zip_with2; apply rect_tabulate.
  - apply rect_zip_with2; [by apply rect_map_grid|apply rect_tabulate].
Qed.

(** The floor mask holds 0, INVALID or FLOOR. *)
Lemma detect_floor_values d floor m0 x y c :
  detect_floor d floor = Ok m0 -> get m0 x y = Some c ->
  c = 0 \/ c = MASK_INVALID \/ c = MASK_FLOOR.
Proof.
  unfold detect_floor.
  destruct (rectb _ _ _) eqn:Hr; simpl; [|done].
  intros [= <-]. unfold mask_assign.
  rewrite get_zip_with2.
  destruct (get (zip_with (zip_with (fun n p => floor_cond n p floor)) _ _)
                x y) as [b|]; simpl; [|done].
  rewrite get_zip_with2.
  destruct (get (map_grid _ _) x y) as [b'|]; simpl; [|done].
  destruct (get (tabulate _ _ _) x y) as [z|] eqn:Hz; simpl; [|done].
  assert (z = 0) as ->.
  { destruct (decide (x < width d)%nat);
      [|by rewrite get_tabulate_None in Hz by lia].
    destruct (decide (y < height d)%nat);
      [|by rewrite get_tabulate_None in Hz by lia].
    rewrite get_tabulate in Hz by done. by injection Hz. }
  intros [= <-]. destruct b, b'; auto.
Qed.
End FloorMask.

(** * The scan of [detect_objects] *)

Section Scan.
Context {K : Constants}.
Variables (d : Depthmap) (m0 : grid Z).

Lemma scan_step x y st st' :
  (x < width d)%nat -> (y < height d)%nat ->
  scan_inv d m0 st -> scan d x y st = Ok st' -> scan_inv d m0 st'.
Proof.
  intros Hx Hy. destruct st as [[m segments] current_id].
  intros (Hcur & Hrect & Hlab & Hsegs). unfold scan.
  destruct (getitem m _ _) as [c| |]; simpl; [|done..].
  destruct (negb (c =? 0)); [by intros [= <-]|].
  destruct (flood _ _ _ _ _ _) as [[m1 a1]| |] eqn:Hflood; simpl; [|done..].
  intros [= <-].
  assert (fill_inv (width d) (height d) m0 m1 a1)
    as (Hrect1 & Hlab1 & Hbox).
  { eapply flood_inv; [exact Hcur| |exact Hflood].
    split; [done|]. split; [done|].
    unfold aabb_in. simpl. lia. }
  split; [lia|]. split; [done|]. split; [done|].
  destruct (Qlt_bool _ _); [|done].
  apply Forall_app. split; [done|]. by apply Forall_singleton.
Qed.

Lemma scan_drains x y st :
  scan_inv d m0 st -> scan d x y st <> OutOfFuel.
Proof.
  destruct st as [[m segments] current_id].
  intros (Hcur & _). unfold scan.
  destruct (getitem m _ _) as [c| |] eqn:E; simpl;
    [|done|by apply getitem_not_OutOfFuel in E].
  destruct (negb (c =? 0)); [done|].
  destruct (flood _ _ _ _ _ _) as [[m1 a1]| |] eqn:Hflood; simpl; [done..|].
  apply flood_drains in Hflood; [done..|].
  unfold flood_fuel. pose proof (zeros_le m). simpl. lia.
Qed.

Lemma scan_all_inv st st' :
  scan_inv d m0 st -> scan_all d st = Ok st' -> scan_inv d m0 st'.
Proof.
  apply for_each_inv. intros s x s' Hx Hs.
  apply for_each_inv; [|done]. intros s1 y s2 Hy.
  apply elem_of_seq in Hx, Hy. apply scan_step; lia.
Qed.

Lemma scan_all_drains st :
  scan_inv d m0 st -> scan_all d st <> OutOfFuel.
Proof.
  apply for_each_fuel.
  - intros s x s' Hx Hs.
    apply for_each_inv; [|done]. intros s1 y s2 Hy.
    apply elem_of_seq in Hx, Hy. apply scan_step; lia.
  - intros s x Hx. apply for_each_fuel.
    + intros s1 y s2 Hy. apply elem_of_seq in Hx, Hy. apply scan_step; lia.
    + intros s1 y _. apply scan_drains.
Qed.
End Scan.

Section DetectObjects.
Context {K : Constants}.

Lemma detect_objects_Ok d floor m segments :
  detect_objects d floor = Ok (m, segments) ->
  exists m0 current_id,
    detect_floor d floor = Ok m0
    /\ scan_all d (m0, [], -1) = Ok (m, segments, current_id).
Proof.
  unfold detect_objects.
  destruct (detect_floor d floor) as [m0| |]; simpl; [|done..].
  destruct (scan_all d (m0, [], -1)) as [[[m1 segs1] id1]| |] eqn:Hscan;
    simpl; [|done..].
  intros [= <- <-]. by exists m0, id1.
Qed.

Lemma scan_inv_start d floor m0 :
  detect_floor d floor = Ok m0 -> scan_inv d m0 (m0, [], -1).
Proof.
  intros Hfloor. split; [lia|]. split; [by eapply detect_floor_rect|].
  split; [|done]. intros x y c Hc. by left.
Qed.

Lemma detect_objects_inv d floor m segments :
  detect_objects d floor = Ok (m, segments) ->
  exists m0 current_id,
    detect_floor d floor = Ok m0
    /\ scan_inv d m0 (m, segments, current_id).
Proof.
  intros Hdet.
  apply detect_objects_Ok in Hdet as (m0 & current_id & Hfloor & Hscan).
  exists m0, current_id. split; [done|].
  eapply scan_all_inv; [|done]. by eapply scan_inv_start.
Qed.

(** The scan of [detect_objects] ends: every fill drains within its
    fuel. *)
Lemma detect_objects_ends d floor : detect_objects d floor <> OutOfFuel.
Proof.
  unfold detect_objects.
  destruct (detect_floor d floor) as [m0| |] eqn:Hfloor; simpl; [|done|].
  - destruct (scan_all d (m0, [], -1)) as [[[m1 segs1] id1]| |] eqn:Hscan;
      simpl; [done..|].
    eapply scan_all_drains in Hscan; [done|]. by eapply scan_inv_start.
  - unfold detect_floor in Hfloor. by destruct (negb _) in Hfloor.
Qed.
End DetectObjects.

(** * Reads outside the grid *)

(** C5 fails on the code: in [flat_3x3] the pixel (2, 2) of the last
    column is unlabeled, and the fill from it reads the depth at (3, 2),
    outside the array. *)
Lemma detect_objects_reads_outside :
  exists d,
    flat_3x3 = Ok d
    /\ detect_objects (K := sentinels) d 0 = Raise IndexError.
Proof.
  eexists. split; [vm_compute; reflexivity|].
  vm_compute. reflexivity.
Qed.

(** * The focus of [segment_child] without a segment *)

(** C3 fails on the code: [lone_pixel_5x5] has one segment, of id -1 and
    of size 0, which is rejected; no segment is accepted, and yet the
    pixel (2, 2), which carries the id -1, is relabeled to CHILD, because
    the initial value of [focus] is -1. *)
Lemma segment_child_relabels_rejected :
  exists d m m',
    lone_pixel_5x5 = Ok d
    /\ detect_objects (K := sentinels) d 0 = Ok (m, [])
    /\ segment_child (K := sentinels) d 0 = Ok m'
    /\ get m 2 2 = Some (-1)
    /\ get m' 2 2 = Some (MASK_CHILD (Constants := sentinels))
    /\ m' <> m.
Proof.
  eexists _, _, _.
  split; [vm_compute; reflexivity|].
  split; [vm_compute; reflexivity|].
  split; [vm_compute; reflexivity|].
  split; [reflexivity|]. split; [reflexivity|]. discriminate.
Qed.

(** * The selection of [segment_child] *)





(** The loop of [segment_child] either leaves its start untouched, when
    no segment is closer than [closest], or stops on the first segment of
    least distance. *)
Lemma select_focus_spec (d : Depthmap) (segments : list Segment.t) :
  forall closest focus c' f',
    select_focus d segments (closest, focus) = (c', f') ->
    (c' = closest /\ f' = focus
     /\ Forall (fun s => closest <= distance d s) segments)
    \/ (exists i s,
          segments !! i = Some s
          /\ c' = distance d s /\ f' = Segment.id s /\ c' < closest
          /\ Forall (fun s' => c' <= distance d s') segments
          /\ forall j s', (j < i)%nat -> segments !! j = Some s' ->
                          c' < distance d s').
Proof.
  induction segments as [|s0 rest IH]; intros closest focus c' f'.
  - intros [= <- <-]. left. by repeat split.
  - unfold select_focus. simpl. fold (select_focus d rest).
    destruct (Z.gtb_spec closest (distance d s0)) as [Hgt|Hle]; intros Hsel.
    + apply IH in Hsel
        as [(-> & -> & Hall)|(i & s & Hi & -> & -> & Hlt & Hall & Hfirst)].
      * right. exists 0%nat, s0. repeat split; try done.
        -- by apply Forall_cons.
        -- intros j s' Hj. lia.
      * right. exists (S i), s. repeat split; try done; [lia| |].
        -- apply Forall_cons. split; [lia|done].
        -- intros [|j] s' Hj Hs'; simpl in Hs'.
           ++ by injection Hs' as <-.
           ++ eapply Hfirst; [|done]. lia.
    + apply IH in Hsel
        as [(-> & -> & Hall)|(i & s & Hi & -> & -> & Hlt & Hall & Hfirst)].
      * left. repeat split; try done. by apply Forall_cons.
      * right. exists (S i), s. repeat split; try done.
        -- apply Forall_cons. split; [lia|done].
        -- intros [|j] s' Hj Hs'; simpl in Hs'.
           ++ injection Hs' as <-. lia.
           ++ eapply Hfirst; [|done]. lia.
Qed.



(** * The floor level *)

Lemma get_tabulate_Some {A} (w h : nat) (f : nat -> nat -> A) (x y : nat)
  (v : A) :
  get (tabulate w h f) x y = Some v ->
  (x < w)%nat /\ (y < h)%nat /\ v = f x y.
Proof.
  intros Hget.
  destruct (decide (x < w)%nat);
    [|by rewrite get_tabulate_None in Hget by lia].
  destruct (decide (y < h)%nat);
    [|by rewrite get_tabulate_None in Hget by lia].
  rewrite get_tabulate in Hget by done. by injection Hget as <-.
Qed.

(** C2 (amended).  [get_floor_level] selects exactly the pixels with
    |normal_y| > 0.5, the normals being computed from the smoothed depth
    array, and returns the median of their world-space y.  It applies no
    height test: the pixels that [detect_floor] labels FLOOR against a
    floor estimate of 0 are those of the selected pixels whose y is
    below 0.1. *)
Theorem get_floor_level_selection {K : Constants} {HK : PositiveSentinels K}
  (d : Depthmap) :
  rect (width d) (height d) (depthmap_arr_smooth d) ->
  let points_3d_arr := convert_2d_to_3d_oriented d true in
  let normal := calculate_normalmap_array d points_3d_arr in
  exists cond,
    get_floor_level d
    = Ok (median (boolean_index (map_grid v_y points_3d_arr) cond))
    /\ forall x y n p,
        get normal x y = Some n -> get points_3d_arr x y = Some p ->
        get cond x y = Some (abs_gt (n_y n) (1 # 2))
        /\ forall m0, detect_floor d 0 = Ok m0 ->
             (get m0 x y = Some MASK_FLOOR
              <-> abs_gt (n_y n) (1 # 2) = true
                  /\ (v_y p - 0 < 1 # 10)%Q).
Proof.
  intros Hrect points_3d_arr normal.
  pose proof Hrect as Hrectb. apply rectb_spec in Hrectb.
  exists (map_grid (fun n => abs_gt (n_y n) (1 # 2)) normal). split.
  - unfold get_floor_level. by rewrite Hrectb.
  - intros x y n p Hn Hp. split.
    + by rewrite get_map_grid, Hn.
    + intros m0. unfold detect_floor. rewrite Hrectb. simpl.
      intros [= <-]. unfold mask_assign.
      unfold normal, points_3d_arr in Hn, Hp.
      rewrite get_zip_with2, get_zip_with2.
      rewrite (get_zip_with2 (fun n0 p0 => floor_cond n0 p0 0)), Hn, Hp.
      rewrite get_map_grid. simpl.
      apply get_tabulate_Some in Hn as (Hx & Hy & _).
      destruct (rect_get _ _ _ x y Hrect Hx Hy) as [v Hv].
      rewrite Hv, get_tabulate by done. simpl.
      unfold floor_cond.
      destruct (abs_gt (n_y n) (1 # 2)); simpl.
      * destruct (Qlt_bool (v_y p - 0) (1 # 10)) eqn:Hlt.
        -- apply Qlt_bool_iff in Hlt. done.
        -- split.
           ++ intros [= Heq]. exfalso.
              destruct HK as [Hf _ _ Hfi].
              destruct (Qeq_bool v 0); [by apply Hfi|lia].
           ++ intros [_ Hlt']. apply Qlt_bool_iff in Hlt'. congruence.
      * split; [|by intros [? _]].
        intros [= Heq]. exfalso.
        destruct HK as [Hf _ _ Hfi].
        destruct (Qeq_bool v 0); [by apply Hfi|lia].
Qed.

Lemma get_floor_level_selection_witness :
  exists d,
    steep_4x4 = Ok d
    /\ rect (width d) (height d) (depthmap_arr_smooth d)
    /\ exists cond,
        get_floor_level d
        = Ok (median (boolean_index
                        (map_grid v_y (convert_2d_to_3d_oriented d true))
                        cond))
        /\ forall x y n p,
            get (calculate_normalmap_array d
                   (convert_2d_to_3d_oriented d true)) x y = Some n ->
            get (convert_2d_to_3d_oriented d true) x y = Some p ->
            get cond x y = Some (abs_gt (n_y n) (1 # 2))
            /\ forall m0, detect_floor (K := sentinels) d 0 = Ok m0 ->
                 (get m0 x y = Some (MASK_FLOOR (Constants := sentinels))
                  <-> abs_gt (n_y n) (1 # 2) = true
                      /\ (v_y p - 0 < 1 # 10)%Q).
Proof.
  eexists. split; [vm_compute; reflexivity|].
  assert (HK : PositiveSentinels sentinels).
  { split; simpl; lia. }
  split.
  - apply rectb_spec. vm_compute. reflexivity.
  - apply (get_floor_level_selection (K := sentinels) (HK := HK)).
    apply rectb_spec. vm_compute. reflexivity.
Defined.

(** C2 as stated fails: in [steep_4x4] the pixel (3, 3) has
    |normal_y| = 16/27 and the height 19/20.  It fails the floor test of
    [detect_floor] against 0, as every other pixel does, so that the
    median over the pixels that pass that test is not-a-number, and
    [get_floor_level] returns 49/40, the median of the heights 3/2 and
    19/20 of the pixels (3, 2) and (3, 3). *)
Lemma get_floor_level_ignores_height :
  exists d m0 n p v,
    steep_4x4 = Ok d
    /\ get (calculate_normalmap_array d (convert_2d_to_3d_oriented d true))
           3 3 = Some n
    /\ get (convert_2d_to_3d_oriented d true) 3 3 = Some p
    /\ abs_gt (n_y n) (1 # 2) = true
    /\ Qlt_bool (v_y p - 0) (1 # 10) = false
    /\ detect_floor (K := sentinels) d 0 = Ok m0
    /\ get m0 3 3 = Some 0
    /\ floor_level_by_floor_test d = Ok NaN
    /\ get_floor_level d = Ok (Fin v)
    /\ (v == 49 # 40)%Q.
Proof.
  eexists _, _, _, _, _.
  split; [vm_compute; reflexivity|].
  split; [vm_compute; reflexivity|].
  split; [vm_compute; reflexivity|].
  split; [vm_compute; reflexivity|].
  split; [vm_compute; reflexivity|].
  split; [vm_compute; reflexivity|].
  split; [reflexivity|].
  split; [vm_compute; reflexivity|].
  split; [vm_compute; reflexivity|].
  vm_compute. reflexivity.
Qed.

(** * The theorems at concrete captures *)

Lemma parse_depth_data_decodes_witness :
  let data := encode_capture 2 2 (fun _ _ => 1000) 7 in
  (3 * 2 * 2 <= length data)%nat
  /\ exists output,
      _parse_depth_data 2 2 (1 # 1000) data = Ok output
      /\ rect 2 2 output
      /\ forall x y, (x < 2)%nat -> (y < 2)%nat ->
           if (x <? 1)%nat || (y <? 1)%nat
           then get output x y = Some 0%Q
           else exists b0 b1,
               data !! ((y * 2 + x) * 3)%nat = Some b0
               /\ data !! ((y * 2 + x) * 3 + 1)%nat = Some b1
               /\ get output x y
                  = Some (inject_Z (Z.lor (Z.shiftl (byte_to_Z b0) 8)
                                          (byte_to_Z b1))
                          * (1 # 1000))%Q.
Proof.
  cbv zeta. split; [vm_compute; lia|].
  apply parse_depth_data_decodes. vm_compute; lia.
Defined.

Lemma smoothen_zero_spreads_witness :
  get (smoothen_depthmap_array [[0; 1]; [1; 1]]%Q) 1 0 = Some 0%Q.
Proof.
  apply (smoothen_zero_spreads 2 2 _ 1 0 0 0).
  - split; [reflexivity|]. repeat constructor.
  - lia.
  - lia.
  - right. left. split; [reflexivity|]. right. reflexivity.
  - exists 0%Q. split; reflexivity.
Defined.

Lemma convert_roundtrip_witness :
  exists d,
    framed_5x5 = Ok d
    /\ exists p q,
        convert_2d_to_3d d 1 2 3 1 = Ok p
        /\ convert_3d_to_2d [1; 1; 1 # 2; 1 # 2]%Q (v_x p) (v_y p) (v_z p)
                            (width d) (height d) = Ok q
        /\ (v_x q == 2)%Q /\ (v_y q == 3)%Q /\ (v_z q == 1)%Q.
Proof.
  eexists. split; [vm_compute; reflexivity|].
  apply (convert_roundtrip _ 1 2).
  - split; [reflexivity|]. repeat constructor.
  - reflexivity.
  - vm_compute. discriminate.
  - vm_compute. discriminate.
  - vm_compute. discriminate.
Defined.


Lemma construction_contract_witness :
  let data := encode_capture 2 2 (fun _ _ => 1000) 7 in
  exists d,
    __init__ centred_intrinsics 2 2 (Some data) None (1 # 1000) 7
             IDENTITY_MATRIX_4D = Ok d
    /\ ((is_Some (Some data) /\ (None : option (grid Q)) = None)
        \/ (Some data = None /\ is_Some (None : option (grid Q)))).
Proof.
  cbv zeta. eexists. split; [vm_compute; reflexivity|].
  destruct (construction_contract centred_intrinsics 2 2
              (Some (encode_capture 2 2 (fun _ _ => 1000) 7)) None
              (1 # 1000) 7 IDENTITY_MATRIX_4D) as (_ & _ & Honly).
  eapply Honly. vm_compute. reflexivity.
Defined.

(** * More on the scan of [detect_objects] *)

Lemma flood_invariant (I : grid Z -> Aabb -> list (Z * Z) -> Prop)
  (depth : grid Q) (cur : Z) :
  (forall m a p st m' a' st',
      I m a (p :: st) -> visit depth cur m a p st = Ok (m', a', st') ->
      I m' a' st') ->
  forall fuel m a st m' a',
    I m a st -> flood fuel depth cur m a st = Ok (m', a') -> I m' a' [].
Proof.
  intros Hvisit. induction fuel as [|fuel IH]; intros m a st m' a' HI.
  - destruct st; simpl; [|done]. by intros [= <- <-].
  - destruct st as [|p st]; simpl; [by intros [= <- <-]|].
    destruct (visit depth cur m a p st) as [[[m1 a1] st1]| |] eqn:E;
      simpl; [|done..].
    apply IH. by eapply Hvisit.
Qed.

Lemma scan_Ok (d : Depthmap) (x y : nat) (m : grid Z)
  (segments : list Segment.t) (cur : Z) (st' : grid Z * list Segment.t * Z) :
  scan d x y (m, segments, cur) = Ok st' ->
  (exists c, getitem m (Z.of_nat x) (Z.of_nat y) = Ok c /\ c <> 0
             /\ st' = (m, segments, cur))
  \/ (exists m' a',
        getitem m (Z.of_nat x) (Z.of_nat y) = Ok 0
        /\ flood (flood_fuel m) (depthmap_arr d) cur m
                 (mkAabb (Z.of_nat x) (Z.of_nat y) (Z.of_nat x) (Z.of_nat y))
                 [(Z.of_nat x, Z.of_nat y)] = Ok (m', a')
        /\ st' = (m',
                  if Qlt_bool (inject_Z (Z.of_nat (width d)) / 4)
                              (inject_Z (box_size a'))
                  then segments ++ [Segment.mk cur a'] else segments,
                  cur - 1)).
Proof.
  unfold scan.
  destruct (getitem m _ _) as [c| |] eqn:Hc; simpl; [|done..].
  destruct (Z.eqb_spec c 0) as [->|Hne]; simpl.
  - destruct (flood _ _ _ _ _ _) as [[m1 a1]| |] eqn:Hflood; simpl; [|done..].
    intros [= <-]. right. by exists m1, a1.
  - intros [= <-]. left. by exists c.
Qed.

Lemma accepted_size (w : nat) (size : Z) :
  Qlt_bool (inject_Z (Z.of_nat w) / 4) (inject_Z size) = true <->
  Z.of_nat w < 4 * size.
Proof.
  rewrite Qlt_bool_iff. unfold Qlt, Qdiv, Qmult, Qinv, inject_Z. simpl.
  lia.
Qed.

Lemma update_aabb_wf (p : Z * Z) (a : Aabb) :
  box_wf a -> box_wf (update_aabb p a).
Proof. unfold box_wf, update_aabb. simpl. lia. Qed.

Lemma flood_box_wf (fuel : nat) (depth : grid Q) (cur : Z) (m : grid Z)
  (a : Aabb) (st : list (Z * Z)) (m' : grid Z) (a' : Aabb) :
  box_wf a -> flood fuel depth cur m a st = Ok (m', a') -> box_wf a'.
Proof.
  intros Hwf Hflood.
  apply (flood_invariant (fun _ a _ => box_wf a) depth cur) in Hflood; [done| |done].
  intros m1 a1 p st1 m2 a2 st2 Ha1 Hvisit.
  apply visit_Ok in Hvisit as (_ & _ & _ & _ & _ & -> & _).
  by apply update_aabb_wf.
Qed.

Lemma ids_decreasing_snoc (segments : list Segment.t) (s : Segment.t) :
  ids_decreasing segments ->
  Forall (fun s' => Segment.id s < Segment.id s') segments ->
  ids_decreasing (segments ++ [s]).
Proof.
  intros Hdec Hall i j s1 s2 Hij H1 H2.
  apply lookup_lt_Some in H2 as Hj. rewrite length_app in Hj. simpl in Hj.
  destruct (decide (j < length segments)%nat) as [Hlt|Hge].
  - rewrite lookup_app_l in H1 by lia. rewrite lookup_app_l in H2 by lia.
    exact (Hdec i j s1 s2 Hij H1 H2).
  - assert (j = length segments) as -> by lia.
    rewrite lookup_app_l in H1 by lia.
    rewrite list_lookup_middle in H2 by done. injection H2 as <-.
    rewrite Forall_forall in Hall. apply Hall.
    by eapply list_elem_of_lookup_2.
Qed.

Lemma scan_segments_inv (d : Depthmap) (x y : nat)
  (st st' : grid Z * list Segment.t * Z) :
  segments_inv d st -> scan d x y st = Ok st' -> segments_inv d st'.
Proof.
  destruct st as [[m segments] cur]. intros (Hcur & Hall & Hdec) Hscan.
  apply scan_Ok in Hscan
    as [(c & _ & _ & ->)|(m' & a' & _ & Hflood & ->)]; [done|].
  apply flood_box_wf in Hflood; [|unfold box_wf; simpl; lia].
  assert (Hweak : Forall (fun s => cur - 1 < Segment.id s <= -1
                      /\ box_wf (Segment.aabb s)
                      /\ Z.of_nat (width d) < 4 * box_size (Segment.aabb s))
                    segments).
  { eapply Forall_impl; [exact Hall|]. simpl. intros s (Hid & Hbox & Hsz).
    split; [lia|]. by split. }
  destruct (Qlt_bool _ _) eqn:Hsize; simpl.
  - split; [lia|]. split.
    + apply Forall_app. split; [done|]. apply Forall_singleton. simpl.
      apply accepted_size in Hsize. split; [lia|]. by split.
    + apply ids_decreasing_snoc; [done|].
      eapply Forall_impl; [exact Hall|]. simpl. intros s (? & _). lia.
  - split; [lia|]. by split.
Qed.

Lemma detect_objects_segments_inv {K : Constants} (d : Depthmap) (floor : Q)
  (m : grid Z) (segments : list Segment.t) :
  detect_objects d floor = Ok (m, segments) ->
  exists current_id, segments_inv d (m, segments, current_id).
Proof.
  intros Hdet.
  apply detect_objects_Ok in Hdet as (m0 & current_id & _ & Hscan).
  exists current_id. revert Hscan. unfold scan_all.
  apply (for_each_inv (segments_inv d)).
  - intros s x s' _ Hs.
    apply (for_each_inv (segments_inv d)); [|done].
    intros s1 y s2 _. apply scan_segments_inv.
  - split; [lia|]. split; [done|]. intros i j s s' _ Hi. done.
Qed.

(** X1.  The scan of [detect_objects] ends: every flood fill drains its
    stack within 4 * (number of cells of the mask) + 1 turns of the
    [while] loop, whatever the depth array and the mask. *)
Theorem detect_objects_terminates {K : Constants} (d : Depthmap) (floor : Q) :
  detect_objects d floor <> OutOfFuel
  /\ forall cur m a p, cur < 0 ->
       flood (flood_fuel m) (depthmap_arr d) cur m a [p] <> OutOfFuel.
Proof.
  split; [apply detect_objects_ends|].
  intros cur m a p Hcur. apply flood_drains; [done|].
  unfold flood_fuel. pose proof (zeros_le m). simpl. lia.
Qed.

(** X2.  The accepted segments of [detect_objects] have negative ids
    that decrease strictly along the list, so that no two segments share
    an id; their bounding boxes have min <= max on both axes and a larger
    side of more than width / 4 pixels. *)
Theorem detect_objects_segments {K : Constants} (d : Depthmap) (floor : Q)
  (m : grid Z) (segments : list Segment.t) :
  detect_objects d floor = Ok (m, segments) ->
  ids_decreasing segments
  /\ forall s, s ∈ segments ->
       Segment.id s <= -1
       /\ aabb0 (Segment.aabb s) <= aabb2 (Segment.aabb s)
       /\ aabb1 (Segment.aabb s) <= aabb3 (Segment.aabb s)
       /\ Z.of_nat (width d) < 4 * box_size (Segment.aabb s).
Proof.
  intros Hdet.
  apply detect_objects_segments_inv in Hdet as (cur & _ & Hall & Hdec).
  split; [done|]. intros s Hs.
  rewrite Forall_forall in Hall.
  destruct (Hall s Hs) as ((_ & ?) & (? & ?) & ?). done.
Qed.

Lemma detect_objects_segments_witness :
  exists d m segments,
    framed_5x5 = Ok d
    /\ detect_objects (K := sentinels) d 0 = Ok (m, segments)
    /\ ids_decreasing segments
    /\ forall s, s ∈ segments ->
         Segment.id s <= -1
         /\ aabb0 (Segment.aabb s) <= aabb2 (Segment.aabb s)
         /\ aabb1 (Segment.aabb s) <= aabb3 (Segment.aabb s)
         /\ Z.of_nat (width d) < 4 * box_size (Segment.aabb s).
Proof.
  eexists _, _, _.
  split; [vm_compute; reflexivity|].
  split; [vm_compute; reflexivity|].
  eapply (detect_objects_segments (K := sentinels) _ 0).
  vm_compute; reflexivity.
Defined.

(** * Every pixel ends labelled *)

Lemma for_each_all {S A} (J : S -> Prop) (finished : A -> S -> Prop)
  (body : S -> A -> result S) (l : list A) :
  (forall s a s', J s -> body s a = Ok s' -> J s') ->
  (forall s a s', J s -> body s a = Ok s' -> finished a s') ->
  (forall s a b s', J s -> body s a = Ok s' -> finished b s ->
                    finished b s') ->
  forall s s', J s -> for_each body l s = Ok s' ->
               J s' /\ forall a, a ∈ l -> finished a s'.
Proof.
  intros HJ Hnow Hkeep.
  induction l as [|a l IH]; intros s s' Hs; simpl.
  - intros [= <-]. split; [done|]. intros a Ha. by apply elem_of_nil in Ha.
  - destruct (body s a) as [s1| |] eqn:E; simpl; [|done..].
    intros Hrest.
    destruct (IH s1 s' (HJ _ _ _ Hs E) Hrest) as [HJ' Hall].
    split; [done|]. intros b Hb.
    apply elem_of_cons in Hb as [->|Hb]; [|by apply Hall].
    assert (J s' /\ finished a s') as [_ ?]; [|done].
    revert Hrest.
    apply (for_each_inv (fun s => J s /\ finished a s)).
    + intros s2 c s3 _ [HJ2 Hf2] Hbody. split.
      * exact (HJ _ _ _ HJ2 Hbody).
      * exact (Hkeep _ _ _ _ HJ2 Hbody Hf2).
    + split; [exact (HJ _ _ _ Hs E)|exact (Hnow _ _ _ Hs E)].
Qed.

Lemma py_index_nat_inv (n k i : nat) :
  py_index n (Z.of_nat k) = Some i -> i = k.
Proof.
  unfold py_index.
  destruct ((0 <=? Z.of_nat k) && (Z.of_nat k <? Z.of_nat n)).
  - intros [= <-]. lia.
  - destruct ((- Z.of_nat n <=? Z.of_nat k) && (Z.of_nat k <? 0)) eqn:E;
      [|done].
    apply andb_true_iff in E as [_ E]. lia.
Qed.

Lemma getitem_nat_get {A} (g : grid A) (x y : nat) (c : A) :
  getitem g (Z.of_nat x) (Z.of_nat y) = Ok c -> get g x y = Some c.
Proof.
  intros Hget. apply getitem_Ok in Hget as (i & j & Hi & Hj & Hc).
  by apply py_index_nat_inv in Hi as ->, Hj as ->.
Qed.

Lemma visit_keeps_label (depth : grid Q) (cur : Z) (m : grid Z) (a : Aabb)
  (p : Z * Z) (st : list (Z * Z)) (m' : grid Z) (a' : Aabb)
  (st' : list (Z * Z)) (x y : nat) :
  cur <> 0 -> labelled_at m x y ->
  visit depth cur m a p st = Ok (m', a', st') -> labelled_at m' x y.
Proof.
  intros Hcur (c & Hc & Hne) Hvisit.
  apply visit_Ok in Hvisit as (_ & _ & _ & _ & _ & _ & Hset).
  apply setitem_Ok in Hset as (i & j & _ & _ & Hm').
  unfold labelled_at. rewrite Hm', Hc. simpl.
  destruct (decide (x = i /\ y = j)); eauto.
Qed.

Lemma flood_keeps_label (fuel : nat) (depth : grid Q) (cur : Z) (m : grid Z)
  (a : Aabb) (st : list (Z * Z)) (m' : grid Z) (a' : Aabb) (x y : nat) :
  cur <> 0 -> labelled_at m x y ->
  flood fuel depth cur m a st = Ok (m', a') -> labelled_at m' x y.
Proof.
  intros Hcur Hlab Hflood.
  apply (flood_invariant (fun m _ _ => labelled_at m x y) depth cur)
    in Hflood; [done| |done].
  intros m1 a1 p st1 m2 a2 st2 H1 Hvisit. by eapply visit_keeps_label.
Qed.

Lemma visit_labels_pixel (depth : grid Q) (cur : Z) (m : grid Z) (a : Aabb)
  (st : list (Z * Z)) (m' : grid Z) (a' : Aabb) (st' : list (Z * Z))
  (x y : nat) :
  cur <> 0 ->
  visit depth cur m a (Z.of_nat x, Z.of_nat y) st = Ok (m', a', st') ->
  labelled_at m' x y.
Proof.
  intros Hcur Hvisit.
  apply visit_Ok in Hvisit as (_ & c & _ & Hc & _ & _ & Hset).
  simpl in Hc, Hset.
  apply getitem_nat_get in Hc.
  apply setitem_Ok in Hset as (i & j & Hi & Hj & Hm').
  apply py_index_nat_inv in Hi as ->, Hj as ->.
  exists cur. split; [|done].
  rewrite Hm', Hc. by rewrite decide_True.
Qed.

Lemma flood_labels_seed (fuel : nat) (depth : grid Q) (cur : Z) (m : grid Z)
  (a : Aabb) (m' : grid Z) (a' : Aabb) (x y : nat) :
  cur <> 0 ->
  flood fuel depth cur m a [(Z.of_nat x, Z.of_nat y)] = Ok (m', a') ->
  labelled_at m' x y.
Proof.
  intros Hcur. destruct fuel as [|fuel]; simpl; [done|].
  destruct (visit _ _ _ _ _ _) as [[[m1 a1] st1]| |] eqn:E; simpl; [|done..].
  intros Hflood. eapply flood_keeps_label; [done| |exact Hflood].
  by eapply visit_labels_pixel.
Qed.

Lemma scan_scanning (d : Depthmap) (x y : nat)
  (st st' : grid Z * list Segment.t * Z) :
  scanning st -> scan d x y st = Ok st' -> scanning st'.
Proof.
  destruct st as [[m segments] cur]. unfold scanning. simpl.
  intros Hcur Hscan.
  apply scan_Ok in Hscan as [(c & _ & _ & ->)|(m' & a' & _ & _ & ->)];
    simpl; lia.
Qed.

Lemma scan_labels (d : Depthmap) (x y : nat)
  (st st' : grid Z * list Segment.t * Z) :
  scanning st -> scan d x y st = Ok st' -> labelled_at st'.1.1 x y.
Proof.
  destruct st as [[m segments] cur]. unfold scanning. simpl.
  intros Hcur Hscan.
  apply scan_Ok in Hscan
    as [(c & Hc & Hne & ->)|(m' & a' & _ & Hflood & ->)]; simpl.
  - exists c. split; [|done]. by apply getitem_nat_get.
  - eapply flood_labels_seed; [|exact Hflood]. lia.
Qed.

Lemma scan_keeps_label (d : Depthmap) (x y x' y' : nat)
  (st st' : grid Z * list Segment.t * Z) :
  scanning st -> scan d x y st = Ok st' ->
  labelled_at st.1.1 x' y' -> labelled_at st'.1.1 x' y'.
Proof.
  destruct st as [[m segments] cur]. unfold scanning. simpl.
  intros Hcur Hscan Hlab.
  apply scan_Ok in Hscan
    as [(c & _ & _ & ->)|(m' & a' & _ & Hflood & ->)]; simpl; [done|].
  eapply flood_keeps_label; [|done|exact Hflood]. lia.
Qed.

Lemma scan_all_labels (d : Depthmap) (st st' : grid Z * list Segment.t * Z) :
  scanning st -> scan_all d st = Ok st' ->
  forall x y, (x < width d)%nat -> (y < height d)%nat ->
              labelled_at st'.1.1 x y.
Proof.
  intros Hst Hscan.
  pose (column (x : nat) (s : grid Z * list Segment.t * Z) :=
          forall y, (y < height d)%nat -> labelled_at s.1.1 x y).
  assert (Hinner : forall x s s',
             scanning s ->
             for_each (fun st y => scan d x y st) (seq 0 (height d)) s = Ok s' ->
             scanning s' /\ forall y, y ∈ seq 0 (height d) ->
                                      labelled_at s'.1.1 x y).
  { intros x.
    apply (for_each_all scanning (fun y s => labelled_at s.1.1 x y)).
    - intros s y s'. apply scan_scanning.
    - intros s y s'. apply scan_labels.
    - intros s y y' s'. apply scan_keeps_label. }
  assert (Hkeep : forall x x' y' s s',
             scanning s ->
             for_each (fun st y => scan d x y st) (seq 0 (height d)) s = Ok s' ->
             labelled_at s.1.1 x' y' -> labelled_at s'.1.1 x' y').
  { intros x x' y' s s' Hs Hloop Hlab.
    assert (scanning s' /\ labelled_at s'.1.1 x' y') as [_ ?]; [|done].
    revert Hloop.
    apply (for_each_inv (fun s => scanning s /\ labelled_at s.1.1 x' y')).
    - intros s1 y s2 _ [Hs1 Hl1] Hbody. split.
      + by eapply scan_scanning.
      + by eapply scan_keeps_label.
    - done. }
  destruct (for_each_all scanning column
              (fun st x =>
                 for_each (fun st y => scan d x y st) (seq 0 (height d)) st)
              (seq 0 (width d))) with (s := st) (s' := st')
    as [_ Hall]; try done.
  - intros s x s' Hs Hloop. by apply (Hinner x s s').
  - intros s x s' Hs Hloop y Hy.
    apply (Hinner x s s' Hs Hloop). apply elem_of_seq. lia.
  - intros s x x' s' Hs Hloop Hcol y Hy.
    eapply Hkeep; [done|exact Hloop|]. by apply Hcol.
  - intros x y Hx Hy. apply (Hall x); [|done]. apply elem_of_seq. lia.
Qed.

(** X3.  [detect_objects] leaves no pixel unlabeled: in the mask it
    returns every pixel carries a value other than 0, and a pixel that
    [detect_floor] left at 0 carries a negative segment id. *)
Theorem detect_objects_labels_every_pixel {K : Constants}
  (d : Depthmap) (floor : Q) (m : grid Z) (segments : list Segment.t) :
  detect_objects d floor = Ok (m, segments) ->
  exists m0,
    detect_floor d floor = Ok m0
    /\ forall x y, (x < width d)%nat -> (y < height d)%nat ->
         exists c, get m x y = Some c /\ c <> 0
                   /\ (get m0 x y = Some 0 -> c < 0).
Proof.
  intros Hdet. pose proof Hdet as Hinv.
  apply detect_objects_inv in Hinv
    as (m0 & current_id & Hfloor & _ & _ & Hlab & _).
  apply detect_objects_Ok in Hdet as (m0' & cur' & Hfloor' & Hscan).
  rewrite Hfloor in Hfloor'. injection Hfloor' as <-.
  exists m0. split; [done|]. intros x y Hx Hy.
  assert (Hst : scanning (m0, @nil Segment.t, -1))
    by (unfold scanning; simpl; lia).
  destruct (scan_all_labels d _ _ Hst Hscan x y Hx Hy) as (c & Hc & Hne).
  simpl in Hc. exists c. split; [done|]. split; [done|].
  intros H0. destruct (Hlab x y c Hc) as [Hsame|Hneg]; [|done].
  congruence.
Qed.

Lemma detect_objects_labels_every_pixel_witness :
  exists d m segments,
    framed_5x5 = Ok d
    /\ detect_objects (K := sentinels) d 0 = Ok (m, segments)
    /\ exists m0,
        detect_floor (K := sentinels) d 0 = Ok m0
        /\ forall x y, (x < width d)%nat -> (y < height d)%nat ->
             exists c, get m x y = Some c /\ c <> 0
                       /\ (get m0 x y = Some 0 -> c < 0).
Proof.
  eexists _, _, _.
  split; [vm_compute; reflexivity|].
  split; [vm_compute; reflexivity|].
  eapply (detect_objects_labels_every_pixel (K := sentinels)).
  vm_compute; reflexivity.
Defined.

(** * A labelled frame keeps the fill inside the image *)

Lemma for_each_Ok {S A} (I : S -> Prop) (body : S -> A -> result S)
  (l : list A) :
  (forall s a, a ∈ l -> I s -> exists s', body s a = Ok s' /\ I s') ->
  forall s, I s -> exists s', for_each body l s = Ok s' /\ I s'.
Proof.
  induction l as [|a l IH]; intros Hbody s Hs; simpl; [by exists s|].
  destruct (Hbody s a) as (s1 & -> & Hs1); [left|done|]. simpl.
  apply IH; [|done]. intros s2 b Hb. apply Hbody. by right.
Qed.

Section SafeFill.
Variables (w h : nat) (depth : grid Q) (cur : Z).
Hypothesis Hdepth : rect w h depth.
Hypothesis Hcur : cur < 0.

Lemma getitem_in_grid {A} (g : grid A) (p : Z * Z) :
  rect w h g -> in_grid w h p ->
  exists c, getitem g p.1 p.2 = Ok c
            /\ get g (Z.to_nat p.1) (Z.to_nat p.2) = Some c.
Proof.
  intros Hrect [Hx Hy].
  destruct (rect_get w h g (Z.to_nat p.1) (Z.to_nat p.2) Hrect)
    as [c Hc]; [lia..|].
  exists c. split; [|done].
  rewrite <- (Z2Nat.id p.1), <- (Z2Nat.id p.2) by lia.
  by eapply getitem_nat.
Qed.

Lemma setitem_in_grid {A} (g : grid A) (p : Z * Z) (v : A) :
  rect w h g -> in_grid w h p -> exists g', setitem g p.1 p.2 v = Ok g'.
Proof.
  intros Hrect [Hx Hy]. unfold setitem.
  rewrite (rect_shape w h) by (done || lia).
  rewrite <- (Z2Nat.id p.1), <- (Z2Nat.id p.2) by lia.
  rewrite !py_index_nat by lia.
  destruct Hrect as [Hl _].
  destruct (lookup_lt_is_Some_2 g (Z.to_nat p.1)) as [row ->]; [lia|].
  eauto.
Qed.

Lemma push_neighbours_in_grid (p : Z * Z) (dc : Q) (ds st : list (Z * Z)) :
  Forall (fun dir => in_grid w h (p.1 + dir.1, p.2 + dir.2)) ds ->
  Forall (in_grid w h) st ->
  exists st', push_neighbours depth p dc ds st = Ok st'
              /\ Forall (in_grid w h) st'.
Proof.
  revert st. induction ds as [|dir ds IH]; intros st Hds Hst; simpl.
  - by exists st.
  - apply Forall_cons in Hds as [Hdir Hds].
    destruct (getitem_in_grid depth _ Hdepth Hdir) as (c & Hc & _).
    simpl in Hc. rewrite Hc. simpl.
    apply IH; [done|].
    destruct (_ && _); [|done]. by apply Forall_cons.
Qed.

Lemma visit_intro (m : grid Z) (a : Aabb) (p : Z * Z) (st : list (Z * Z))
  (dc : Q) (c : Z) (st' : list (Z * Z)) (m' : grid Z) :
  getitem depth p.1 p.2 = Ok dc ->
  getitem m p.1 p.2 = Ok c ->
  (if c =? 0 then push_neighbours depth p dc dirs st else Ok st) = Ok st' ->
  setitem m p.1 p.2 cur = Ok m' ->
  visit depth cur m a p st = Ok (m', update_aabb p a, st').
Proof.
  unfold visit. generalize dirs. intros ds Hdc Hc Hpush Hset.
  rewrite Hdc. simpl. rewrite Hc. simpl. rewrite Hpush. simpl.
  rewrite Hset. done.
Qed.

Lemma visit_safe (m : grid Z) (a : Aabb) (p : Z * Z) (st : list (Z * Z)) :
  safe_inv w h m a (p :: st) ->
  exists m' a' st', visit depth cur m a p st = Ok (m', a', st')
                    /\ safe_inv w h m' a' st'.
Proof.
  intros (Hrect & Hframe & Hbox & Hst).
  apply Forall_cons in Hst as [Hp Hst].
  destruct (getitem_in_grid depth p Hdepth Hp) as (dc & Hdc & _).
  destruct (getitem_in_grid m p Hrect Hp) as (c & Hc & Hcget).
  destruct (setitem_in_grid m p cur Hrect Hp) as (m' & Hset).
  assert (Hpush : exists st',
             (if c =? 0 then push_neighbours depth p dc dirs st else Ok st)
             = Ok st' /\ Forall (in_grid w h) st').
  { destruct (Z.eqb_spec c 0) as [->|Hne]; [|by exists st].
    apply push_neighbours_in_grid; [|done].
    assert (Hin : 1 <= p.1 /\ p.1 + 1 < Z.of_nat w
                  /\ 1 <= p.2 /\ p.2 + 1 < Z.of_nat h).
    { destruct Hp as [Hx Hy].
      destruct (decide (Z.to_nat p.1 = 0%nat \/ Z.to_nat p.2 = 0%nat
                        \/ S (Z.to_nat p.1) = w \/ S (Z.to_nat p.2) = h))
        as [Hedge|Hinside]; [|lia].
      destruct (Hframe (Z.to_nat p.1) (Z.to_nat p.2)) as (c' & Hc' & Hne);
        [lia..|done|].
      congruence. }
    unfold dirs, in_grid. repeat constructor; simpl; lia. }
  destruct Hpush as (st' & Hpush & Hst').
  exists m', (update_aabb p a), st'. split.
  - by apply (visit_intro m a p st dc c).
  - split; [by eapply setitem_rect|]. split; [|split; [|done]].
    + intros x y Hx Hy Hedge.
      specialize (Hframe x y Hx Hy Hedge).
      apply setitem_Ok in Hset as (i & j & _ & _ & Hm').
      destruct Hframe as (c' & Hc' & Hne).
      unfold labelled_at. rewrite Hm', Hc'. simpl.
      destruct (decide (x = i /\ y = j)); [|eauto].
      exists cur. split; [done|lia].
    + destruct Hbox as (? & ? & ? & ?), Hp as [? ?].
      unfold box_in_grid, update_aabb. simpl. lia.
Qed.

Lemma flood_safe (fuel : nat) (m : grid Z) (a : Aabb) (st : list (Z * Z)) :
  safe_inv w h m a st ->
  (4 * zeros m + length st <= fuel)%nat ->
  exists m' a', flood fuel depth cur m a st = Ok (m', a')
                /\ safe_inv w h m' a' [].
Proof.
  revert m a st. induction fuel as [|fuel IH]; intros m a st Hinv Hfuel.
  - destruct st; simpl in *; [|lia]. by exists m, a.
  - destruct st as [|p st]; simpl.
    { exists m, a. split; [done|]. destruct Hinv as (Hr & Hf & Hb & _).
      split; [done|]. split; [done|]. split; [done|]. constructor. }
    destruct (visit_safe m a p st Hinv) as (m1 & a1 & st1 & Hvisit & Hinv1).
    rewrite Hvisit. simpl. apply IH; [done|].
    apply visit_measure in Hvisit; [|done]. simpl in Hfuel. lia.
Qed.
End SafeFill.

Lemma scan_safe (d : Depthmap) (x y : nat)
  (st : grid Z * list Segment.t * Z) :
  rect (width d) (height d) (depthmap_arr d) ->
  (x < width d)%nat -> (y < height d)%nat ->
  safe_scan d st ->
  exists st', scan d x y st = Ok st' /\ safe_scan d st'.
Proof.
  intros Hdepth Hx Hy. destruct st as [[m segments] cur].
  intros (Hcur & Hrect & Hframe & Hsegs).
  destruct (rect_get _ _ _ x y Hrect Hx Hy) as [c Hc].
  unfold scan. rewrite (getitem_nat m x y _ _ c Hrect Hc). simpl.
  destruct (Z.eqb_spec c 0) as [->|Hne]; simpl; [|by eexists].
  destruct (flood_safe (width d) (height d) (depthmap_arr d) cur Hdepth Hcur
              (flood_fuel m) m
              (mkAabb (Z.of_nat x) (Z.of_nat y) (Z.of_nat x) (Z.of_nat y))
              [(Z.of_nat x, Z.of_nat y)])
    as (m' & a' & Hflood & Hrect' & Hframe' & Hbox' & _).
  - split; [done|]. split; [done|]. split.
    + unfold box_in_grid. simpl. lia.
    + apply Forall_singleton. unfold in_grid. simpl. lia.
  - unfold flood_fuel. pose proof (zeros_le m). simpl. lia.
  - rewrite Hflood. simpl. eexists. split; [done|].
    split; [lia|]. split; [done|]. split; [done|].
    destruct (Qlt_bool _ _); [|done].
    apply Forall_app. split; [done|]. by apply Forall_singleton.
Qed.

(** X4.  When the depth array has the shape (width, height) and
    [detect_floor] labels every pixel of the first and last row and
    column, [detect_objects] returns: no read leaves the arrays, and the
    bounding box of every accepted segment lies inside the image. *)
Theorem detect_objects_returns {K : Constants}
  (d : Depthmap) (floor : Q) (m0 : grid Z) :
  rect (width d) (height d) (depthmap_arr d) ->
  detect_floor d floor = Ok m0 ->
  frame_labelled (width d) (height d) m0 ->
  exists m segments,
    detect_objects d floor = Ok (m, segments)
    /\ forall s, s ∈ segments ->
         box_in_grid (width d) (height d) (Segment.aabb s).
Proof.
  intros Hdepth Hfloor Hframe.
  assert (Hstart : safe_scan d (m0, @nil Segment.t, -1)).
  { split; [lia|]. split; [by eapply detect_floor_rect|]. by split. }
  destruct (for_each_Ok (safe_scan d)
              (fun st x =>
                 for_each (fun st y => scan d x y st) (seq 0 (height d)) st)
              (seq 0 (width d))) with (s := (m0, @nil Segment.t, -1))
    as ([[m segments] cur] & Hscan & Hend); [|done|].
  - intros s x Hx Hs. apply for_each_Ok; [|done].
    intros s1 y Hy Hs1. apply elem_of_seq in Hx, Hy.
    apply scan_safe; try done; lia.
  - exists m, segments. split.
    + unfold detect_objects. rewrite Hfloor. simpl.
      unfold scan_all. rewrite Hscan. done.
    + destruct Hend as (_ & _ & _ & Hsegs).
      by apply Forall_forall.
Qed.

Lemma detect_objects_returns_witness :
  exists d,
    framed_5x5 = Ok d
    /\ exists m segments,
        detect_objects (K := sentinels) d 0 = Ok (m, segments)
        /\ forall s, s ∈ segments ->
             box_in_grid (width d) (height d) (Segment.aabb s).
Proof.
  eexists. split; [vm_compute; reflexivity|].
  eapply (detect_objects_returns (K := sentinels) _ 0).
  - apply rectb_spec. vm_compute. reflexivity.
  - vm_compute. reflexivity.
  - intros x y Hx Hy Hedge. vm_compute in Hx, Hy, Hedge.
    do 5 (destruct x as [|x];
          [do 5 (destruct y as [|y];
                 [first [ eexists; split; [reflexivity|discriminate]
                        | exfalso; lia ]|]);
           exfalso; lia|]).
    exfalso. lia.
Defined.

(** * A frame without measurement *)

Lemma grid_ext {A} (w h : nat) (a b : grid A) :
  rect w h a -> rect w h b ->
  (forall x y, (x < w)%nat -> (y < h)%nat -> get a x y = get b x y) ->
  a = b.
Proof.
  intros [Hla Hra] [Hlb Hrb] Hget.
  apply list_eq. intros x.
  destruct (decide (x < w)%nat) as [Hx|Hx].
  - destruct (lookup_lt_is_Some_2 a x) as [ra Ha]; [lia|].
    destruct (lookup_lt_is_Some_2 b x) as [rb Hb]; [lia|].
    rewrite Ha, Hb. f_equal.
    rewrite Forall_lookup in Hra. rewrite Forall_lookup in Hrb.
    pose proof (Hra _ _ Ha) as Hlen_a. pose proof (Hrb _ _ Hb) as Hlen_b.
    apply list_eq. intros y.
    destruct (decide (y < h)%nat) as [Hy|Hy].
    + specialize (Hget x y Hx Hy). unfold get in Hget.
      by rewrite Ha, Hb in Hget.
    + rewrite !lookup_ge_None_2 by lia. done.
  - rewrite !lookup_ge_None_2 by lia. done.
Qed.

Lemma map_grid_tabulate {A B} (f : A -> B) (w h : nat) (g : nat -> nat -> A) :
  map_grid f (tabulate w h g) = tabulate w h (fun x y => f (g x y)).
Proof.
  apply (grid_ext w h).
  - apply rect_map_grid, rect_tabulate.
  - apply rect_tabulate.
  - intros x y Hx Hy. by rewrite get_map_grid, !get_tabulate.
Qed.

Lemma for_each_fixed {S A} (body : S -> A -> result S) (l : list A) (s : S) :
  (forall a, a ∈ l -> body s a = Ok s) -> for_each body l s = Ok s.
Proof.
  induction l as [|a l IH]; intros Hbody; simpl; [done|].
  rewrite Hbody by left. simpl. apply IH. intros b Hb. apply Hbody. by right.
Qed.

Lemma boolean_index_none {A} (g : grid A) (c : grid bool) :
  Forall (Forall (fun b => b = false)) c -> boolean_index g c = [].
Proof.
  unfold boolean_index. revert g.
  induction c as [|crow c IH]; intros g Hc.
  - by destruct g.
  - destruct g as [|row g]; [done|]. simpl.
    apply Forall_cons in Hc as [Hrow Hc].
    rewrite IH by done. rewrite app_nil_r.
    clear IH Hc. revert row.
    induction crow as [|b crow IH]; intros row; [by destruct row|].
    destruct row as [|v row]; [done|].
    apply Forall_cons in Hrow as [-> Hrow]. simpl. by apply IH.
Qed.

Lemma matmul_row_Qeq (m : grid Q) (i : nat) (p p' : list Q) :
  Forall2 Qeq p p' -> (matmul_row m i p == matmul_row m i p')%Q.
Proof.
  unfold matmul_row. generalize (default [] (m !! i)). intros row Hp.
  revert row. induction Hp as [|a b p p' Hab Hp IH]; intros row.
  - by destruct row.
  - destruct row as [|r row]; simpl; [done|].
    rewrite Hab, (IH row). reflexivity.
Qed.

(** A pixel without depth is projected onto the image of the origin. *)
Lemma zero_depth_point (d : Depthmap) (x y : nat) :
  (x < width d)%nat -> (y < height d)%nat ->
  (cell (depthmap_arr_smooth d) x y == 0)%Q ->
  exists p, get (convert_2d_to_3d_oriented d true) x y = Some p
            /\ vec3_eq p (origin_point d).
Proof.
  intros Hx Hy Hc. unfold convert_2d_to_3d_oriented.
  rewrite get_tabulate by done. eexists. split; [reflexivity|].
  set (dep := cell (depthmap_arr_smooth d) x y) in *.
  set (res := [(- (dep * (inject_Z (Z.of_nat x) - cx d) / fx d))%Q;
               (dep * (inject_Z (Z.of_nat y) - cy d) / fy d)%Q; dep; 1%Q]).
  assert (Hres : Forall2 Qeq res [0; 0; 0; 1]%Q).
  { unfold res. repeat constructor.
    - unfold Qdiv. rewrite Hc. ring.
    - unfold Qdiv. rewrite Hc. ring.
    - done. }
  unfold vec3_eq, origin_point. simpl.
  rewrite !(matmul_row_Qeq _ _ res _ Hres). repeat split; reflexivity.
Qed.

(** The normal of a pixel that has no depth, and whose two neighbours of
    the triangle have none, does not pass the test of the floor. *)
Lemma zero_depth_normal (d : Depthmap) (x y : nat) (n : normal3) :
  get (calculate_normalmap_array d (convert_2d_to_3d_oriented d true)) x y
  = Some n ->
  (cell (depthmap_arr_smooth d) x y == 0)%Q ->
  (cell (depthmap_arr_smooth d) (x - 1) y == 0)%Q ->
  (cell (depthmap_arr_smooth d) x (y - 1) == 0)%Q ->
  abs_gt (n_y n) (1 # 2) = false.
Proof.
  intros Hn Hc Hcx Hcy. unfold calculate_normalmap_array in Hn.
  apply get_tabulate_Some in Hn as (Hx & Hy & ->).
  destruct x as [|x']; [done|]. destruct y as [|y']; [done|].
  replace (S x' - 1)%nat with x' in Hcx by lia.
  replace (S y' - 1)%nat with y' in Hcy by lia.
  destruct (zero_depth_point d (S x') (S y')) as (p & -> & Hp);
    [lia..|done|].
  destruct (zero_depth_point d x' (S y')) as (px & -> & Hpx); [lia..|done|].
  destruct (zero_depth_point d (S x') y') as (py & -> & Hpy); [lia..|done|].
  cbv beta iota delta [default from_option id].
  destruct Hp as (Hp0 & Hp1 & Hp2), Hpx as (Hx0 & Hx1 & Hx2),
           Hpy as (Hy0 & Hy1 & Hy2).
  unfold normalize.
  assert (Hzero : (Qabs (v_x (cross (vsub p px) (vsub p py)))
                   + Qabs (v_y (cross (vsub p px) (vsub p py)))
                   + Qabs (v_z (cross (vsub p px) (vsub p py))) == 0)%Q).
  { unfold cross, vsub. cbn [v_x v_y v_z].
    rewrite Hp0, Hp1, Hp2, Hx0, Hx1, Hx2, Hy0, Hy1, Hy2.
    set (a := v_x (origin_point d)). set (b := v_y (origin_point d)).
    set (c := v_z (origin_point d)).
    assert (H1 : ((b - b) * (c - c) - (c - c) * (b - b) == 0)%Q) by ring.
    assert (H2 : ((c - c) * (a - a) - (a - a) * (c - c) == 0)%Q) by ring.
    assert (H3 : ((a - a) * (b - b) - (b - b) * (a - a) == 0)%Q) by ring.
    rewrite H1, H2, H3. reflexivity. }
  apply Qeq_bool_iff in Hzero. rewrite Hzero. done.
Qed.

Section Dark.
Variable d : Depthmap.
Hypothesis Hdark :
  forall x y v, get (depthmap_arr_smooth d) x y = Some v -> (v == 0)%Q.

Lemma dark_cell (x y : nat) : (cell (depthmap_arr_smooth d) x y == 0)%Q.
Proof.
  unfold cell. destruct (get (depthmap_arr_smooth d) x y) as [v|] eqn:Hv.
  - simpl. by eapply Hdark.
  - reflexivity.
Qed.

Lemma dark_point (x y : nat) :
  (x < width d)%nat -> (y < height d)%nat ->
  exists p, get (convert_2d_to_3d_oriented d true) x y = Some p
            /\ vec3_eq p (origin_point d).
Proof.
  intros Hx Hy. apply zero_depth_point; [done..|]. apply dark_cell.
Qed.

Lemma dark_normal (x y : nat) (n : normal3) :
  get (calculate_normalmap_array d (convert_2d_to_3d_oriented d true)) x y
  = Some n ->
  abs_gt (n_y n) (1 # 2) = false.
Proof.
  intros Hn. eapply zero_depth_normal; [done|apply dark_cell..].
Qed.
End Dark.

(** The label [detect_floor] gives a pixel: FLOOR when it passes the
    floor test, otherwise INVALID when its smoothed depth is 0, otherwise
    0. *)
Lemma detect_floor_get {K : Constants} (d : Depthmap) (floor : Q)
  (m0 : grid Z) (x y : nat) :
  detect_floor d floor = Ok m0 ->
  (x < width d)%nat -> (y < height d)%nat ->
  exists n p v,
    get (calculate_normalmap_array d (convert_2d_to_3d_oriented d true)) x y
    = Some n
    /\ get (convert_2d_to_3d_oriented d true) x y = Some p
    /\ get (depthmap_arr_smooth d) x y = Some v
    /\ get m0 x y
       = Some (if floor_cond n p floor then MASK_FLOOR
               else if Qeq_bool v 0 then MASK_INVALID else 0).
Proof.
  unfold detect_floor.
  destruct (rectb _ _ _) eqn:Hr; simpl; [|done].
  apply rectb_spec in Hr. intros [= <-] Hx Hy.
  destruct (rect_get _ _ _ x y Hr Hx Hy) as [v Hv].
  assert (exists n,
             get (calculate_normalmap_array d
                    (convert_2d_to_3d_oriented d true)) x y = Some n)
    as [n Hn].
  { unfold calculate_normalmap_array. rewrite get_tabulate by done. eauto. }
  assert (exists p, get (convert_2d_to_3d_oriented d true) x y = Some p)
    as [p Hp].
  { unfold convert_2d_to_3d_oriented. rewrite get_tabulate by done. eauto. }
  exists n, p, v.
  split; [done|]. split; [done|]. split; [done|].
  unfold mask_assign.
  rewrite get_zip_with2, get_zip_with2.
  rewrite (get_zip_with2 (fun n0 p0 => floor_cond n0 p0 floor)), Hn, Hp.
  rewrite get_map_grid, Hv, get_tabulate by done. done.
Qed.

Lemma detect_floor_raises {K : Constants} (d : Depthmap) (floor : Q) :
  rect (width d) (height d) (depthmap_arr_smooth d) ->
  exists m0, detect_floor d floor = Ok m0.
Proof.
  intros Hrect. apply rectb_spec in Hrect. unfold detect_floor.
  rewrite Hrect. simpl. eauto.
Qed.

(** X5.  A frame without measurement (every smoothed depth is 0, the
    image having at least one pixel) gives no reconstruction, whatever
    the pose and the intrinsics:
    [detect_floor] labels every pixel INVALID, [detect_objects] returns
    that mask and no segment, [segment_child] relabels nothing and
    [get_floor_level] is the median of an empty selection,
    not-a-number. *)
Theorem dark_frame {K : Constants} {HK : PositiveSentinels K}
  (d : Depthmap) (floor : Q) :
  (1 <= width d)%nat -> (1 <= height d)%nat ->
  rect (width d) (height d) (depthmap_arr_smooth d) ->
  (forall x y v, get (depthmap_arr_smooth d) x y = Some v -> (v == 0)%Q) ->
  let m := tabulate (width d) (height d) (fun _ _ => MASK_INVALID) in
  detect_floor d floor = Ok m
  /\ detect_objects d floor = Ok (m, [])
  /\ segment_child d floor = Ok m
  /\ get_floor_level d = Ok NaN.
Proof.
  intros _ _ Hrect Hdark m.
  destruct HK as [_ _ Hinv _].
  assert (Hfloor : detect_floor d floor = Ok m).
  { destruct (detect_floor_raises d floor Hrect) as [m0 Hm0].
    rewrite Hm0. f_equal.
    apply (grid_ext (width d) (height d));
      [by eapply detect_floor_rect|apply rect_tabulate|].
    intros x y Hx Hy.
    destruct (detect_floor_get d floor m0 x y Hm0 Hx Hy)
      as (n & p & v & Hn & _ & Hv & ->).
    unfold m. rewrite get_tabulate by done. f_equal.
    unfold floor_cond. rewrite (dark_normal d Hdark x y n Hn). simpl.
    apply Hdark in Hv. apply Qeq_bool_iff in Hv. by rewrite Hv. }
  assert (Hscan : scan_all d (m, [], -1) = Ok (m, [], -1)).
  { unfold scan_all. apply for_each_fixed. intros x Hx.
    apply for_each_fixed. intros y Hy. apply elem_of_seq in Hx, Hy.
    unfold scan.
    rewrite (getitem_nat m x y (width d) (height d) MASK_INVALID);
      [|apply rect_tabulate|unfold m; rewrite get_tabulate by lia; done].
    simpl. destruct (Z.eqb_spec MASK_INVALID 0); [lia|done]. }
  assert (Hdet : detect_objects d floor = Ok (m, [])).
  { unfold detect_objects. rewrite Hfloor. simpl. by rewrite Hscan. }
  split; [done|]. split; [done|]. split.
  - unfold segment_child. rewrite Hdet. simpl. f_equal.
    unfold m. rewrite map_grid_tabulate.
    destruct (Z.eqb_spec MASK_INVALID (-1)); [lia|done].
  - unfold get_floor_level.
    pose proof Hrect as Hrectb. apply rectb_spec in Hrectb.
    rewrite Hrectb. simpl. f_equal.
    rewrite boolean_index_none; [done|].
    apply Forall_lookup. intros x row Hrow.
    apply Forall_lookup. intros y b Hb.
    assert (Hget : get (map_grid (fun n => abs_gt (n_y n) (1 # 2))
                          (calculate_normalmap_array d
                             (convert_2d_to_3d_oriented d true))) x y
                   = Some b).
    { unfold get. rewrite Hrow. done. }
    rewrite get_map_grid in Hget.
    destruct (get (calculate_normalmap_array _ _) x y) as [n|] eqn:Hn;
      [|done].
    injection Hget as <-. by eapply dark_normal.
Qed.

Lemma dark_frame_witness :
  exists d,
    dark_3x3 = Ok d
    /\ let m := tabulate (width d) (height d)
                  (fun _ _ => MASK_INVALID (Constants := sentinels)) in
       detect_floor (K := sentinels) d 0 = Ok m
       /\ detect_objects (K := sentinels) d 0 = Ok (m, [])
       /\ segment_child (K := sentinels) d 0 = Ok m
       /\ get_floor_level d = Ok NaN.
Proof.
  eexists. split; [vm_compute; reflexivity|].
  assert (HK : PositiveSentinels sentinels) by (split; simpl; lia).
  apply (dark_frame (K := sentinels) (HK := HK)).
  - simpl. lia.
  - simpl. lia.
  - apply rectb_spec. vm_compute. reflexivity.
  - intros x y v Hv.
    do 3 (destruct x as [|x];
          [do 3 (destruct y as [|y];
                 [injection Hv as <-; reflexivity|]); discriminate|]).
    discriminate.
Defined.

(** * Short buffers and the confidence array *)

Lemma mapM_length {A B} (f : A -> result B) (l : list A) (bs : list B) :
  mapM f l = Ok bs -> length bs = length l.
Proof.
  revert bs. induction l as [|a l IH]; intros bs; simpl.
  - by intros [= <-].
  - destruct (f a) as [b| |]; simpl; [|done..].
    destruct (mapM f l) as [bs'| |]; simpl; [|done..].
    intros [= <-]. simpl. f_equal. by apply IH.
Qed.

Lemma mapM_lookup {A B} (f : A -> result B) (l : list A) (bs : list B)
  (i : nat) (a : A) :
  mapM f l = Ok bs -> l !! i = Some a ->
  exists b, bs !! i = Some b /\ f a = Ok b.
Proof.
  revert bs i. induction l as [|a0 l IH]; intros bs i; simpl; [done|].
  destruct (f a0) as [b0| |] eqn:E; simpl; [|done..].
  destruct (mapM f l) as [bs'| |]; simpl; [|done..].
  intros [= <-]. destruct i as [|i]; simpl.
  - intros [= <-]. eauto.
  - by apply IH.
Qed.

Lemma tabulateM_rect {A} (w h : nat) (f : nat -> nat -> result A)
  (g : grid A) :
  tabulateM w h f = Ok g -> rect w h g.
Proof.
  unfold tabulateM. intros Hg. split.
  - apply mapM_length in Hg. by rewrite length_seq in Hg.
  - apply Forall_lookup. intros x row Hrow.
    assert (Hx : (x < w)%nat).
    { apply lookup_lt_Some in Hrow. apply mapM_length in Hg.
      rewrite length_seq in Hg. lia. }
    destruct (mapM_lookup _ _ _ x x Hg) as (row' & Hrow' & Hinner).
    { by rewrite lookup_seq_lt. }
    rewrite Hrow in Hrow'. injection Hrow' as <-.
    apply mapM_length in Hinner. by rewrite length_seq in Hinner.
Qed.

Lemma tabulateM_get {A} (w h : nat) (f : nat -> nat -> result A)
  (g : grid A) (x y : nat) :
  tabulateM w h f = Ok g -> (x < w)%nat -> (y < h)%nat ->
  exists v, get g x y = Some v /\ f x y = Ok v.
Proof.
  unfold tabulateM. intros Hg Hx Hy.
  destruct (mapM_lookup _ _ _ x x Hg) as (row & Hrow & Hinner).
  { by rewrite lookup_seq_lt. }
  destruct (mapM_lookup _ _ _ y y Hinner) as (v & Hv & Hf).
  { by rewrite lookup_seq_lt. }
  exists v. split; [|done]. unfold get. by rewrite Hrow.
Qed.

(** A loop whose body raises at some element, and never runs out of
    fuel, raises. *)
Lemma mapM_raises {A B} (f : A -> result B) (l : list A) (a : A) :
  a ∈ l -> (exists e, f a = Raise e) ->
  (forall b, b ∈ l -> f b <> OutOfFuel) ->
  exists e, mapM f l = Raise e.
Proof.
  induction l as [|a0 l IH]; intros Ha Hraise Hfuel.
  - by apply elem_of_nil in Ha.
  - simpl. destruct (f a0) as [b0| |] eqn:E; simpl; [|by eauto|].
    + apply elem_of_cons in Ha as [->|Ha].
      { destruct Hraise as [e He]. congruence. }
      destruct IH as [e ->]; [done..| |by eauto].
      intros b Hb. apply Hfuel. by right.
    + exfalso. by eapply Hfuel; [left|].
Qed.

Lemma mapM_not_OutOfFuel {A B} (f : A -> result B) (l : list A) :
  (forall b, b ∈ l -> f b <> OutOfFuel) -> mapM f l <> OutOfFuel.
Proof.
  induction l as [|a0 l IH]; intros Hfuel; simpl; [done|].
  destruct (f a0) as [b0| |] eqn:E; simpl; [|done|].
  - destruct (mapM f l) eqn:E'; simpl; [done..|].
    exfalso. apply IH; [|done]. intros b Hb. apply Hfuel. by right.
  - exfalso. by eapply Hfuel; [left|].
Qed.

Lemma bytes_getitem_cases (data : list byte) (i : Z) :
  (exists b, bytes_getitem data i = Ok b) \/ bytes_getitem data i = Raise IndexError.
Proof.
  unfold bytes_getitem. destruct (py_index _ _) as [k|]; [|by right].
  destruct (data !! k); [left; eauto|by right].
Qed.

Lemma bytes_getitem_beyond (data : list byte) (i : Z) :
  Z.of_nat (length data) <= i -> bytes_getitem data i = Raise IndexError.
Proof.
  intros Hi. unfold bytes_getitem, py_index.
  replace ((0 <=? i) && (i <? Z.of_nat (length data))) with false
    by (symmetry; apply andb_false_iff; right; lia).
  replace ((- Z.of_nat (length data) <=? i) && (i <? 0)) with false
    by (symmetry; apply andb_false_iff; right; lia).
  done.
Qed.

Lemma parse_depth_cases (w h : nat) (scale : Q) (data : list byte)
  (tx ty : Z) :
  (exists v, _parse_depth w h scale data tx ty = Ok v)
  \/ _parse_depth w h scale data tx ty = Raise IndexError.
Proof.
  unfold _parse_depth. destruct (_ || _); [left; eauto|].
  destruct (bytes_getitem_cases data ((ty * Z.of_nat w + tx) * 3 + 0))
    as [[b0 ->]| ->]; simpl; [|by right].
  destruct (bytes_getitem_cases data ((ty * Z.of_nat w + tx) * 3 + 1))
    as [[b1 ->]| ->]; simpl; [left; eauto|by right].
Qed.

Lemma mapM_raises_only {A B} (f : A -> result B) (l : list A) (e : exn) :
  (forall b, b ∈ l -> (exists v, f b = Ok v) \/ f b = Raise e) ->
  (exists vs, mapM f l = Ok vs) \/ mapM f l = Raise e.
Proof.
  induction l as [|a0 l IH]; intros Hf; simpl; [left; eauto|].
  destruct (Hf a0) as [[v ->]| ->]; [left| |by right]. simpl.
  destruct IH as [[vs ->]| ->]; [|left; eauto|by right].
  intros b Hb. apply Hf. by right.
Qed.

(** X6.  A body that is too short to hold the depth of the last pixel
    is a decode error: with at least two rows and two columns and fewer
    than 3 * width * height - 1 bytes, [_parse_depth_data] raises
    IndexError and returns no array. *)
Theorem parse_depth_data_truncated
  (width height : nat) (depth_scale : Q) (data : list byte) :
  (2 <= width)%nat -> (2 <= height)%nat ->
  (length data + 1 < 3 * width * height)%nat ->
  _parse_depth_data width height depth_scale data = Raise IndexError.
Proof.
  intros Hw Hh Hlen. unfold _parse_depth_data, tabulateM.
  set (row x := mapM (fun y => _parse_depth width height depth_scale data
                                 (Z.of_nat x) (Z.of_nat y)) (seq 0 height)).
  assert (Hrows : forall x, (exists vs, row x = Ok vs) \/ row x = Raise IndexError).
  { intros x. apply mapM_raises_only. intros y _. apply parse_depth_cases. }
  assert (Hlast : row (width - 1)%nat = Raise IndexError).
  { destruct (Hrows (width - 1)%nat) as [[vs Hvs]|]; [|done]. exfalso.
    destruct (mapM_lookup _ _ _ (height - 1)%nat (height - 1)%nat Hvs)
      as (v & _ & Hv).
    { rewrite lookup_seq_lt by lia. done. }
    unfold _parse_depth in Hv.
    assert (Hin : (Z.of_nat (width - 1) <? 1) || (Z.of_nat (height - 1) <? 1)
                  || (Z.of_nat (width - 1) >=? Z.of_nat width)
                  || (Z.of_nat (height - 1) >=? Z.of_nat height) = false).
    { rewrite !Z.geb_leb, !orb_false_iff.
      split; [split; [split|]|];
        first [apply Z.ltb_ge | apply Z.leb_gt]; lia. }
    rewrite Hin in Hv.
    rewrite (bytes_getitem_beyond data
               ((Z.of_nat (height - 1) * Z.of_nat width
                 + Z.of_nat (width - 1)) * 3 + 1)) in Hv by nia.
    by destruct (bytes_getitem data _). }
  destruct (mapM_raises_only row (seq 0 width) IndexError) as [[vs Hvs]|];
    [by intros x _|exfalso|done].
  destruct (mapM_lookup _ _ _ (width - 1)%nat (width - 1)%nat Hvs)
    as (v & _ & Hv).
  { rewrite lookup_seq_lt by lia. done. }
  congruence.
Qed.

Lemma parse_depth_data_truncated_witness :
  _parse_depth_data 2 2 (1 # 1000)
    (take 10 (encode_capture 2 2 (fun _ _ => 1000) 7))
  = Raise IndexError.
Proof.
  apply parse_depth_data_truncated; vm_compute; lia.
Defined.

Lemma parse_confidence_cases (w : nat) (conf : Q) (data : list byte)
  (tx ty : Z) :
  _parse_confidence w conf data tx ty <> OutOfFuel.
Proof.
  unfold _parse_confidence.
  destruct (bytes_getitem_cases data ((ty * Z.of_nat w + tx) * 3 + 2))
    as [[b ->]| ->]; simpl; [|done].
  by destruct (Qeq_bool conf 0).
Qed.

Lemma parse_confidence_data_short (w h : nat) (conf : Q) (data : list byte) :
  (1 <= w)%nat -> (1 <= h)%nat -> (length data < 3 * w * h)%nat ->
  exists e, _parse_confidence_data w h conf data = Raise e.
Proof.
  intros Hw Hh Hlen. unfold _parse_confidence_data, tabulateM.
  apply (mapM_raises _ _ (w - 1)%nat).
  - apply elem_of_seq. lia.
  - apply (mapM_raises _ _ (h - 1)%nat).
    + apply elem_of_seq. lia.
    + exists IndexError. unfold _parse_confidence.
      rewrite bytes_getitem_beyond; [done|]. nia.
    + intros y _. apply parse_confidence_cases.
  - intros x _. apply mapM_not_OutOfFuel. intros y _.
    apply parse_confidence_cases.
Qed.

(** X7.  The constructor returns no Depthmap for a body shorter than
    3 * width * height bytes (width, height >= 1): the decode of the
    depth or of the confidence raises, or an earlier step does. *)
Theorem construction_short_buffer
  (intrinsics : grid Q) (width height : nat) (data : list byte)
  (depthmap_arr : option (grid Q)) (depth_scale max_confidence : Q)
  (device_pose : list Q) :
  (1 <= width)%nat -> (1 <= height)%nat ->
  (length data < 3 * width * height)%nat ->
  exists e, __init__ intrinsics width height (Some data) depthmap_arr
                     depth_scale max_confidence device_pose = Raise e.
Proof.
  intros Hw Hh Hlen. unfold __init__. open_constructor.
  destruct depthmap_arr as [arr|]; simpl; [by eauto|].
  destruct data as [|b data]; simpl; [by eauto|].
  set (bytes := b :: data) in *.
  destruct (_parse_depth_data width height depth_scale bytes)
    as [arr| |] eqn:Hdepth; simpl; [|by eauto|].
  - destruct (parse_confidence_data_short width height max_confidence bytes)
      as [e ->]; [done..|]. simpl. eauto.
  - exfalso. revert Hdepth. unfold _parse_depth_data, tabulateM.
    apply mapM_not_OutOfFuel. intros x _. apply mapM_not_OutOfFuel.
    intros y _.
    destruct (parse_depth_cases width height depth_scale bytes
                (Z.of_nat x) (Z.of_nat y)) as [[v ->]| ->]; done.
Qed.

Lemma construction_short_buffer_witness :
  exists e,
    __init__ centred_intrinsics 2 2
             (Some (take 11 (encode_capture 2 2 (fun _ _ => 1000) 7))) None
             (1 # 1000) 7 IDENTITY_MATRIX_4D = Raise e.
Proof.
  apply construction_short_buffer; vm_compute; lia.
Defined.

Lemma mapM_head_raise {A B} (f : A -> result B) (a : A) (l : list A)
  (e : exn) :
  f a = Raise e -> mapM f (a :: l) = Raise e.
Proof. intros Hf. simpl. by rewrite Hf. Qed.

(** X8.  For a body of at least 3 * width * height bytes the confidence
    array holds, at every pixel and on the border too, the third byte of
    the pixel's record divided by [max_confidence]; when
    [max_confidence] is zero the decode of the first pixel raises
    ZeroDivisionError. *)
Theorem parse_confidence_data_decodes
  (width height : nat) (max_confidence : Q) (data : list byte) :
  (3 * width * height <= length data)%nat ->
  (~ (max_confidence == 0)%Q ->
   exists output,
     _parse_confidence_data width height max_confidence data = Ok output
     /\ rect width height output
     /\ forall x y, (x < width)%nat -> (y < height)%nat ->
          exists b,
            data !! ((y * width + x) * 3 + 2)%nat = Some b
            /\ get output x y
               = Some (inject_Z (byte_to_Z b) / max_confidence)%Q)
  /\ ((max_confidence == 0)%Q -> (1 <= width)%nat -> (1 <= height)%nat ->
      _parse_confidence_data width height max_confidence data
      = Raise ZeroDivisionError).
Proof.
  intros Hlen.
  assert (Hread : forall x y, (x < width)%nat -> (y < height)%nat ->
            exists b, data !! ((y * width + x) * 3 + 2)%nat = Some b
                      /\ bytes_getitem data
                           ((Z.of_nat y * Z.of_nat width + Z.of_nat x) * 3 + 2)
                         = Ok (byte_to_Z b)).
  { intros x y Hx Hy.
    destruct (lookup_lt_is_Some_2 data ((y * width + x) * 3 + 2)%nat)
      as [b Hb]; [nia|].
    exists b. split; [done|].
    replace ((Z.of_nat y * Z.of_nat width + Z.of_nat x) * 3 + 2)
      with (Z.of_nat ((y * width + x) * 3 + 2)) by lia.
    by apply bytes_getitem_nat. }
  split.
  - intros Hconf.
    assert (Hnz : Qeq_bool max_confidence 0 = false).
    { destruct (Qeq_bool max_confidence 0) eqn:E; [|done].
      apply Qeq_bool_iff in E. done. }
    set (g x y := (inject_Z (byte_to_Z
                     (default x00 (data !! ((y * width + x) * 3 + 2)%nat)))
                   / max_confidence)%Q).
    exists (tabulate width height g). split; [|split].
    + apply tabulateM_Ok. intros x y Hx Hy.
      destruct (Hread x y Hx Hy) as (b & Hb & Hget).
      unfold _parse_confidence, g. rewrite Hget. simpl.
      by rewrite Hnz, Hb.
    + apply rect_tabulate.
    + intros x y Hx Hy. destruct (Hread x y Hx Hy) as (b & Hb & _).
      exists b. split; [done|]. rewrite get_tabulate by done.
      unfold g. by rewrite Hb.
  - intros Hconf Hw Hh. apply Qeq_bool_iff in Hconf.
    unfold _parse_confidence_data, tabulateM.
    destruct (Hread 0%nat 0%nat) as (b & _ & Hget); [lia..|].
    destruct width as [|w']; [lia|]. destruct height as [|h']; [lia|].
    cbn [seq]. apply mapM_head_raise. apply mapM_head_raise.
    unfold _parse_confidence. rewrite Hget. simpl. by rewrite Hconf.
Qed.

Lemma parse_confidence_data_decodes_witness :
  let data := encode_capture 2 2 (fun _ _ => 1000) 7 in
  (3 * 2 * 2 <= length data)%nat
  /\ (~ (7 == 0)%Q ->
      exists output,
        _parse_confidence_data 2 2 7 data = Ok output
        /\ rect 2 2 output
        /\ forall x y, (x < 2)%nat -> (y < 2)%nat ->
             exists b,
               data !! ((y * 2 + x) * 3 + 2)%nat = Some b
               /\ get output x y = Some (inject_Z (byte_to_Z b) / 7)%Q)
  /\ ((7 == 0)%Q -> (1 <= 2)%nat -> (1 <= 2)%nat ->
      _parse_confidence_data 2 2 7 data = Raise ZeroDivisionError).
Proof.
  cbv zeta. split; [vm_compute; lia|].
  apply parse_confidence_data_decodes. vm_compute; lia.
Defined.

(** * Smoothing away from missing data *)

Lemma reflect_inside (n : nat) (i : nat) :
  (i < n)%nat -> reflect n (Z.of_nat i) = i.
Proof.
  intros Hi. unfold reflect.
  destruct (Z.ltb_spec (Z.of_nat i) 0); [lia|].
  destruct (Z.leb_spec (Z.of_nat n) (Z.of_nat i)); [lia|].
  apply Nat2Z.id.
Qed.

Lemma not_zero_at (image_arr : grid Q) (x y : nat) (v : Q) :
  get image_arr x y = Some v -> ~ zero_at image_arr x y ->
  Qeq_bool v 0 = false.
Proof.
  intros Hv Hnz. destruct (Qeq_bool v 0) eqn:E; [|done].
  exfalso. apply Hnz. exists v. split; [done|]. by apply Qeq_bool_iff.
Qed.

Lemma smooth_center_false (w h : nat) (image_arr : grid Q) (x y : nat) :
  rect w h image_arr -> (x < w)%nat -> (y < h)%nat ->
  ~ zero_at image_arr x y ->
  cellb (map_grid (fun v => Qeq_bool v 0) image_arr) x y = false.
Proof.
  intros Hrect Hx Hy Hnz.
  destruct (rect_get _ _ _ x y Hrect Hx Hy) as [v Hv].
  unfold cellb. rewrite get_map_grid, Hv. simpl.
  by eapply not_zero_at.
Qed.

(** In the rationals of the model, the smoothed depth of a pixel that is
    not zero and has no zero among its in-bounds direct neighbours is
    the mean of the pixel and of its four neighbours, a neighbour
    outside the array being replaced by the pixel mirrored about the
    edge.  (The source convolves with the float 0.2; its result is this
    mean up to rounding.) *)
Lemma smoothen_away_from_zero
  (w h : nat) (image_arr : grid Q) (x y : nat) :
  rect w h image_arr -> (x < w)%nat -> (y < h)%nat ->
  (forall x' y', near x y x' y' -> ~ zero_at image_arr x' y') ->
  exists v,
    get (smoothen_depthmap_array image_arr) x y = Some v
    /\ (v == (cell image_arr (reflect w (Z.of_nat x - 1)) y
              + cell image_arr (reflect w (Z.of_nat x + 1)) y
              + cell image_arr x (reflect h (Z.of_nat y - 1))
              + cell image_arr x (reflect h (Z.of_nat y + 1))
              + cell image_arr x y) / 5)%Q.
Proof.
  intros Hrect Hx Hy Hnz.
  assert (Hc : forall x' y', (x' < w)%nat -> (y' < h)%nat ->
             near x y x' y' ->
             cellb (map_grid (fun v => Qeq_bool v 0) image_arr) x' y' = false).
  { intros x' y' Hx' Hy' Hnear.
    apply (smooth_center_false w h); try done. by apply Hnz. }
  unfold smoothen_depthmap_array.
  rewrite (rect_shape w h) by (done || lia).
  rewrite get_tabulate by done.
  rewrite cellb_tabulate by done.
  rewrite !cellb_tabulate by done.
  rewrite (Hc x y) by (done || by left).
  assert (Hright : match x with
                   | O => false
                   | S x' => cellb (map_grid (fun v => Qeq_bool v 0) image_arr)
                                   x' y
                   end = false).
  { destruct x as [|x']; [done|]. apply Hc; [lia|done|].
    right. left. split; [done|]. by right. }
  assert (Hleft : (if (S x <? w)%nat
                   then cellb (map_grid (fun v => Qeq_bool v 0) image_arr)
                              (S x) y
                   else false) = false).
  { destruct (Nat.ltb_spec (S x) w); [|done]. apply Hc; [done..|].
    right. left. split; [done|]. by left. }
  assert (Hup : match y with
                | O => false
                | S y' => cellb (map_grid (fun v => Qeq_bool v 0) image_arr)
                                x y'
                end = false).
  { destruct y as [|y']; [done|]. apply Hc; [done|lia|].
    right. right. split; [done|]. by right. }
  assert (Hdown : (if (S y <? h)%nat
                   then cellb (map_grid (fun v => Qeq_bool v 0) image_arr)
                              x (S y)
                   else false) = false).
  { destruct (Nat.ltb_spec (S y) h); [|done]. apply Hc; [done..|].
    right. right. split; [done|]. by left. }
  rewrite Hright, Hleft, Hup, Hdown. cbn [orb].
  eexists. split; [reflexivity|].
  assert (Hmean :
    (cell (convolve image_arr conv_filter) x y
     == (cell image_arr (reflect w (Z.of_nat x - 1)) y
         + cell image_arr (reflect w (Z.of_nat x + 1)) y
         + cell image_arr x (reflect h (Z.of_nat y - 1))
         + cell image_arr x (reflect h (Z.of_nat y + 1))
         + cell image_arr x y) / 5)%Q).
  { unfold convolve. rewrite (rect_shape w h) by (done || lia).
    rewrite cell_tabulate by done.
    cbn [seq mbind list_bind foldr app concat fmap list_fmap].
    change (Z.of_nat 0) with 0. change (Z.of_nat 1) with 1.
    change (Z.of_nat 2) with 2.
    replace (Z.of_nat x + 1 - 0) with (Z.of_nat x + 1) by lia.
    replace (Z.of_nat x + 1 - 1) with (Z.of_nat x) by lia.
    replace (Z.of_nat x + 1 - 2) with (Z.of_nat x - 1) by lia.
    replace (Z.of_nat y + 1 - 0) with (Z.of_nat y + 1) by lia.
    replace (Z.of_nat y + 1 - 1) with (Z.of_nat y) by lia.
    replace (Z.of_nat y + 1 - 2) with (Z.of_nat y - 1) by lia.
    rewrite !(reflect_inside w x), !(reflect_inside h y) by done.
    change (default 0%Q (row ← conv_filter !! 0%nat; row !! 0%nat)) with (0 # 5)%Q.
    change (default 0%Q (row ← conv_filter !! 0%nat; row !! 1%nat)) with (1 # 5)%Q.
    change (default 0%Q (row ← conv_filter !! 0%nat; row !! 2%nat)) with (0 # 5)%Q.
    change (default 0%Q (row ← conv_filter !! 1%nat; row !! 0%nat)) with (1 # 5)%Q.
    change (default 0%Q (row ← conv_filter !! 1%nat; row !! 1%nat)) with (1 # 5)%Q.
    change (default 0%Q (row ← conv_filter !! 1%nat; row !! 2%nat)) with (1 # 5)%Q.
    change (default 0%Q (row ← conv_filter !! 2%nat; row !! 0%nat)) with (0 # 5)%Q.
    change (default 0%Q (row ← conv_filter !! 2%nat; row !! 1%nat)) with (1 # 5)%Q.
    change (default 0%Q (row ← conv_filter !! 2%nat; row !! 2%nat)) with (0 # 5)%Q.
    field. }
  exact Hmean.
Qed.

Lemma smoothen_rect (w h : nat) (image_arr : grid Q) :
  rect w h image_arr -> rect w h (smoothen_depthmap_array image_arr).
Proof.
  intros Hrect. unfold smoothen_depthmap_array.
  destruct w as [|w].
  - destruct Hrect as [Hl _]. apply nil_length_inv in Hl as ->.
    simpl. by split.
  - rewrite (rect_shape (S w) h) by (done || lia). apply rect_tabulate.
Qed.

Lemma reflect_before (n i : nat) :
  (i < n)%nat ->
  exists i', reflect n (Z.of_nat i - 1) = i' /\ (i' < n)%nat
             /\ (i' = i \/ i = S i').
Proof.
  intros Hi. unfold reflect.
  destruct (Z.ltb_spec (Z.of_nat i - 1) 0).
  - exists 0%nat. split; [f_equal; lia|]. split; [lia|]. left. lia.
  - destruct (Z.leb_spec (Z.of_nat n) (Z.of_nat i - 1)); [lia|].
    exists (i - 1)%nat. split; [lia|]. split; [lia|]. right. lia.
Qed.

Lemma reflect_after (n i : nat) :
  (i < n)%nat ->
  exists i', reflect n (Z.of_nat i + 1) = i' /\ (i' < n)%nat
             /\ (i' = i \/ i' = S i).
Proof.
  intros Hi. unfold reflect.
  destruct (Z.ltb_spec (Z.of_nat i + 1) 0); [lia|].
  destruct (Z.leb_spec (Z.of_nat n) (Z.of_nat i + 1)).
  - exists i. split; [lia|]. split; [lia|]. by left.
  - exists (S i). split; [lia|]. split; [lia|]. by right.
Qed.

(** X9.  When the input holds no negative value at a pixel and at its
    in-bounds direct neighbours, the smoothed depth of the pixel is 0
    exactly when one of these values is 0, and it is positive when none
    is: smoothing marks as missing the pixels next to missing data, and
    no other. *)
Theorem smoothen_zero_exactly
  (w h : nat) (image_arr : grid Q) (x y : nat) :
  rect w h image_arr -> (x < w)%nat -> (y < h)%nat ->
  (forall x' y' v, near x y x' y' -> get image_arr x' y' = Some v ->
                   (0 <= v)%Q) ->
  exists s,
    get (smoothen_depthmap_array image_arr) x y = Some s
    /\ ((exists x' y', near x y x' y' /\ zero_at image_arr x' y') ->
        s = 0%Q)
    /\ ((forall x' y', near x y x' y' -> ~ zero_at image_arr x' y') ->
        (0 < s)%Q).
Proof.
  intros Hrect Hx Hy Hpos.
  destruct (rect_get w h (smoothen_depthmap_array image_arr) x y)
    as [s Hs]; [by apply smoothen_rect|done..|].
  exists s. split; [done|]. split.
  - intros (x' & y' & Hnear & Hz).
    rewrite (smoothen_zero w h image_arr Hrect x y x' y' Hx Hy Hnear Hz)
      in Hs.
    by injection Hs as <-.
  - intros Hnz.
    destruct (smoothen_away_from_zero w h image_arr x y Hrect Hx Hy Hnz)
      as (v & Hv & Hmean).
    rewrite Hs in Hv. injection Hv as <-.
    assert (Hcell : forall x' y', (x' < w)%nat -> (y' < h)%nat ->
               near x y x' y' -> (0 < cell image_arr x' y')%Q).
    { intros x' y' Hx' Hy' Hnear.
      destruct (rect_get _ _ _ x' y' Hrect Hx' Hy') as [v Hv].
      unfold cell. rewrite Hv. simpl.
      pose proof (Hpos x' y' v Hnear Hv) as Hle.
      apply Qle_lt_or_eq in Hle as [Hlt|Heq]; [done|].
      exfalso. apply (Hnz x' y' Hnear). exists v. split; [done|].
      by symmetry. }
    destruct (reflect_before w x Hx) as (xl & Exl & Hxl & Hxl').
    destruct (reflect_after w x Hx) as (xr & Exr & Hxr & Hxr').
    destruct (reflect_before h y Hy) as (yu & Eyu & Hyu & Hyu').
    destruct (reflect_after h y Hy) as (yd & Eyd & Hyd & Hyd').
    rewrite Exl, Exr, Eyu, Eyd in Hmean.
    assert (H1 : (0 < cell image_arr xl y)%Q).
    { apply Hcell; [done..|]. unfold near. lia. }
    assert (H2 : (0 < cell image_arr xr y)%Q).
    { apply Hcell; [done..|]. unfold near. lia. }
    assert (H3 : (0 < cell image_arr x yu)%Q).
    { apply Hcell; [done..|]. unfold near. lia. }
    assert (H4 : (0 < cell image_arr x yd)%Q).
    { apply Hcell; [done..|]. unfold near. lia. }
    assert (H5 : (0 < cell image_arr x y)%Q).
    { apply Hcell; [done..|]. unfold near. lia. }
    rewrite Hmean. apply Qlt_shift_div_l; [reflexivity|].
    assert (E : (0 * 5 == 0 + 0 + 0 + 0 + 0)%Q) by ring. rewrite E.
    repeat apply Qplus_lt_le_compat; try done; by apply Qlt_le_weak.
Qed.

Lemma smoothen_zero_exactly_witness :
  exists s,
    get (smoothen_depthmap_array [[2; 2; 0]; [2; 2; 2]]%Q) 0 0 = Some s
    /\ ((exists x' y',
            near 0 0 x' y' /\ zero_at [[2; 2; 0]; [2; 2; 2]]%Q x' y') ->
        s = 0%Q)
    /\ ((forall x' y',
            near 0 0 x' y' -> ~ zero_at [[2; 2; 0]; [2; 2; 2]]%Q x' y') ->
        (0 < s)%Q).
Proof.
  apply (smoothen_zero_exactly 2 3).
  - split; [reflexivity|]. repeat constructor.
  - lia.
  - lia.
  - intros x' y' v Hnear Hv.
    do 2 (destruct x' as [|x'];
          [do 3 (destruct y' as [|y'];
                 [injection Hv as <-; done|]); discriminate|]).
    discriminate.
Defined.

(** * What [segment_child] keeps *)

Lemma select_focus_negative (d : Depthmap) (segments : list Segment.t)
  (closest c' f' : Z) :
  Forall (fun s => Segment.id s <= -1) segments ->
  select_focus d segments (closest, -1) = (c', f') ->
  f' <= -1 /\ (f' = -1 \/ exists s, s ∈ segments /\ Segment.id s = f').
Proof.
  intros Hneg Hsel.
  apply select_focus_spec in Hsel
    as [(_ & -> & _)|(i & s & Hi & _ & -> & _)].
  - split; [lia|by left].
  - apply list_elem_of_lookup_2 in Hi. split.
    + rewrite Forall_forall in Hneg. by apply Hneg.
    + right. by exists s.
Qed.

(** X10.  [segment_child] relabels the pixels of one negative id, the
    focus, to CHILD and keeps every other pixel: FLOOR and INVALID
    pixels are never relabeled, no pixel of the result is 0 or carries
    the focus, and the focus is the id of an accepted segment or -1. *)
Theorem segment_child_keeps {K : Constants} {HK : PositiveSentinels K}
  (d : Depthmap) (floor : Q) (mask : grid Z) :
  segment_child d floor = Ok mask ->
  exists m segments focus,
    detect_objects d floor = Ok (m, segments)
    /\ focus <= -1
    /\ (focus = -1 \/ exists s, s ∈ segments /\ Segment.id s = focus)
    /\ rect (width d) (height d) mask
    /\ forall x y, (x < width d)%nat -> (y < height d)%nat ->
         exists c c',
           get m x y = Some c /\ get mask x y = Some c'
           /\ c' <> 0 /\ c' <> focus
           /\ (c = focus -> c' = MASK_CHILD)
           /\ (c <> focus -> c' = c).
Proof.
  unfold segment_child.
  destruct (detect_objects d floor) as [[m segments]| |] eqn:Hdet;
    simpl; [|done..].
  destruct (select_focus d segments (sys_maxsize, -1)) as [c' focus] eqn:Hsel.
  intros [= <-]. exists m, segments, focus.
  destruct (detect_objects_segments_inv d floor m segments Hdet)
    as (cur & _ & Hsegs & _).
  destruct (select_focus_negative d segments sys_maxsize c' focus)
    as [Hneg Hfocus]; [|done|].
  { eapply Forall_impl; [exact Hsegs|]. simpl. intros s Hs. lia. }
  destruct (detect_objects_Ok d floor m segments Hdet)
    as (m0 & cur' & Hfloor & Hscan).
  assert (Hst : scanning (m0, @nil Segment.t, -1))
    by (unfold scanning; simpl; lia).
  split; [done|]. split; [done|]. split; [done|].
  split.
  { apply rect_map_grid.
    by destruct (detect_objects_inv d floor m segments Hdet)
      as (? & ? & _ & _ & Hrect & _). }
  intros x y Hx Hy.
  destruct (scan_all_labels d _ _ Hst Hscan x y Hx Hy) as (c & Hc & Hne).
  simpl in Hc. pose proof child_positive as Hchild.
  exists c, (if c =? focus then MASK_CHILD else c).
  split; [done|]. rewrite get_map_grid, Hc. split; [done|].
  destruct (Z.eqb_spec c focus); repeat split; try done; lia.
Qed.

Lemma segment_child_keeps_witness :
  exists d mask,
    framed_5x5 = Ok d
    /\ segment_child (K := sentinels) d 0 = Ok mask
    /\ exists m segments focus,
        detect_objects (K := sentinels) d 0 = Ok (m, segments)
        /\ focus <= -1
        /\ (focus = -1 \/ exists s, s ∈ segments /\ Segment.id s = focus)
        /\ rect (width d) (height d) mask
        /\ forall x y, (x < width d)%nat -> (y < height d)%nat ->
             exists c c',
               get m x y = Some c /\ get mask x y = Some c'
               /\ c' <> 0 /\ c' <> focus
               /\ (c = focus -> c' = MASK_CHILD (Constants := sentinels))
               /\ (c <> focus -> c' = c).
Proof.
  eexists _, _.
  split; [vm_compute; reflexivity|].
  split; [vm_compute; reflexivity|].
  assert (HK : PositiveSentinels sentinels) by (split; simpl; lia).
  apply (segment_child_keeps (K := sentinels) (HK := HK) _ 0).
  vm_compute. reflexivity.
Defined.

(** * The floor estimate *)

Lemma floor_cond_monotone (n : normal3) (p : vec3) (floor floor' : Q) :
  (floor <= floor')%Q ->
  floor_cond n p floor = true -> floor_cond n p floor' = true.
Proof.
  unfold floor_cond. intros Hle.
  rewrite !andb_true_iff, !Qlt_bool_iff. intros [-> Hlt].
  split; [done|].
  eapply Qle_lt_trans; [|exact Hlt].
  apply Qplus_le_r. by apply Qopp_le_compat.
Qed.

(** X11.  Raising the floor estimate only adds FLOOR labels: for
    floor <= floor', a pixel that [detect_floor] labels FLOOR against
    floor is labeled FLOOR against floor', and every other pixel keeps
    its label or becomes FLOOR. *)
Theorem detect_floor_monotone {K : Constants} {HK : PositiveSentinels K}
  (d : Depthmap) (floor floor' : Q) (m0 : grid Z) :
  (floor <= floor')%Q ->
  detect_floor d floor = Ok m0 ->
  exists m1,
    detect_floor d floor' = Ok m1
    /\ forall x y, (x < width d)%nat -> (y < height d)%nat ->
         exists c c',
           get m0 x y = Some c /\ get m1 x y = Some c'
           /\ (c = MASK_FLOOR -> c' = MASK_FLOOR)
           /\ (c' = c \/ c' = MASK_FLOOR).
Proof.
  intros Hle Hm0.
  destruct (detect_floor_raises d floor') as [m1 Hm1].
  { apply rectb_spec. unfold detect_floor in Hm0.
    by destruct (rectb _ _ _). }
  exists m1. split; [done|]. intros x y Hx Hy.
  destruct (detect_floor_get d floor m0 x y Hm0 Hx Hy)
    as (n & p & v & Hn & Hp & Hv & Hc).
  destruct (detect_floor_get d floor' m1 x y Hm1 Hx Hy)
    as (n' & p' & v' & Hn' & Hp' & Hv' & Hc').
  rewrite Hn in Hn'. injection Hn' as <-.
  rewrite Hp in Hp'. injection Hp' as <-.
  rewrite Hv in Hv'. injection Hv' as <-.
  eexists _, _. split; [exact Hc|]. split; [exact Hc'|].
  pose proof floor_positive. pose proof invalid_positive.
  pose proof floor_not_invalid.
  pose proof (floor_cond_monotone n p floor floor' Hle) as Hmono.
  destruct (floor_cond n p floor); [rewrite Hmono by done; auto|].
  destruct (floor_cond n p floor'), (Qeq_bool v 0);
    split; auto; intros; lia.
Qed.

Lemma detect_floor_monotone_witness :
  exists d m0,
    steep_4x4 = Ok d
    /\ detect_floor (K := sentinels) d 0 = Ok m0
    /\ exists m1,
        detect_floor (K := sentinels) d 2 = Ok m1
        /\ forall x y, (x < width d)%nat -> (y < height d)%nat ->
             exists c c',
               get m0 x y = Some c /\ get m1 x y = Some c'
               /\ (c = MASK_FLOOR (Constants := sentinels)
                   -> c' = MASK_FLOOR (Constants := sentinels))
               /\ (c' = c \/ c' = MASK_FLOOR (Constants := sentinels)).
Proof.
  eexists _, _.
  split; [vm_compute; reflexivity|].
  split; [vm_compute; reflexivity|].
  assert (HK : PositiveSentinels sentinels) by (split; simpl; lia).
  apply (detect_floor_monotone (K := sentinels) (HK := HK) _ 0 2).
  - vm_compute. discriminate.
  - vm_compute. reflexivity.
Defined.

(** * The Depthmap of a byte buffer *)

Lemma init_from_bytes
  (intrinsics : grid Q) (w h : nat) (data : list byte)
  (depth_scale max_confidence : Q) (device_pose : list Q) (d : Depthmap) :
  __init__ intrinsics w h (Some data) None depth_scale max_confidence
           device_pose = Ok d ->
  exists depth conf,
    _parse_depth_data w h depth_scale data = Ok depth
    /\ _parse_confidence_data w h max_confidence data = Ok conf
    /\ width d = w /\ height d = h
    /\ depthmap_arr d = depth
    /\ depthmap_arr_smooth d = smoothen_depthmap_array depth
    /\ confidence_arr d = Some conf.
Proof.
  unfold __init__.
  destruct (getitem intrinsics 1 0); simpl; [|done..].
  destruct (getitem intrinsics 1 1); simpl; [|done..].
  destruct (getitem intrinsics 1 2); simpl; [|done..].
  destruct (getitem intrinsics 1 3); simpl; [|done..].
  destruct (reshape_4_4_T device_pose); simpl; [|done..].
  destruct data as [|b data]; simpl; [done|].
  destruct (_parse_depth_data w h depth_scale (b :: data)) as [depth| |];
    simpl; [|done..].
  destruct (_parse_confidence_data w h max_confidence (b :: data))
    as [conf| |]; simpl; [|done..].
  intros [= <-]. simpl. by exists depth, conf.
Qed.

Lemma parse_depth_data_border (w h : nat) (depth_scale : Q)
  (data : list byte) (depth : grid Q) (x y : nat) :
  _parse_depth_data w h depth_scale data = Ok depth ->
  (x < w)%nat -> (y < h)%nat -> x = 0%nat \/ y = 0%nat ->
  get depth x y = Some 0%Q.
Proof.
  intros Hdepth Hx Hy Hedge.
  destruct (tabulateM_get _ _ _ _ x y Hdepth Hx Hy) as (v & Hv & Hf).
  rewrite Hv. unfold _parse_depth in Hf.
  destruct Hedge as [-> | ->].
  - change (Z.of_nat 0) with 0 in Hf. simpl in Hf. congruence.
  - change (Z.of_nat 0) with 0 in Hf.
    replace (_ || _ || _ || _) with true in Hf; [congruence|].
    symmetry. rewrite !orb_true_iff. left. left. by right.
Qed.

Lemma smooth_border (w h : nat) (depth_scale : Q) (data : list byte)
  (depth : grid Q) (x y : nat) :
  _parse_depth_data w h depth_scale data = Ok depth ->
  (x < w)%nat -> (y < h)%nat -> (x <= 1)%nat \/ (y <= 1)%nat ->
  get (smoothen_depthmap_array depth) x y = Some 0%Q.
Proof.
  intros Hdepth Hx Hy Hedge.
  pose proof (tabulateM_rect _ _ _ _ Hdepth) as Hrect.
  assert (Hzero : forall x' y', (x' < w)%nat -> (y' < h)%nat ->
             x' = 0%nat \/ y' = 0%nat -> zero_at depth x' y').
  { intros x' y' Hx' Hy' He. exists 0%Q. split; [|reflexivity].
    by eapply parse_depth_data_border. }
  destruct (decide (x = 0%nat \/ y = 0%nat)) as [H0|H0].
  - apply (smoothen_zero w h depth Hrect x y x y Hx Hy); [by left|auto].
  - destruct Hedge as [Hx1|Hy1].
    + apply (smoothen_zero w h depth Hrect x y 0 y Hx Hy).
      * right. left. split; [done|]. right. lia.
      * apply Hzero; [lia|done|by left].
    + apply (smoothen_zero w h depth Hrect x y x 0 Hx Hy).
      * right. right. split; [done|]. right. lia.
      * apply Hzero; [done|lia|by right].
Qed.

(** X12.  A Depthmap constructed from a byte buffer (width,
    height >= 1) has a buffer of at least 3 * width * height bytes, a
    depth array, a smoothed depth array and a confidence array of the
    shape (width, height), and a smoothed depth of 0 on its first two
    rows and columns; [detect_floor] never fails on it and labels the
    pixels of those rows and columns INVALID. *)
Theorem construction_from_bytes {K : Constants}
  (intrinsics : grid Q) (w h : nat) (data : list byte)
  (depth_scale max_confidence : Q) (device_pose : list Q) (d : Depthmap) :
  (1 <= w)%nat -> (1 <= h)%nat ->
  __init__ intrinsics w h (Some data) None depth_scale max_confidence
           device_pose = Ok d ->
  width d = w /\ height d = h
  /\ (3 * w * h <= length data)%nat
  /\ rect w h (depthmap_arr d)
  /\ rect w h (depthmap_arr_smooth d)
  /\ (exists conf, confidence_arr d = Some conf /\ rect w h conf)
  /\ (forall x y, (x < w)%nat -> (y < h)%nat ->
        (x <= 1)%nat \/ (y <= 1)%nat ->
        get (depthmap_arr_smooth d) x y = Some 0%Q)
  /\ forall floor, exists m0,
       detect_floor d floor = Ok m0
       /\ forall x y, (x < w)%nat -> (y < h)%nat ->
            (x <= 1)%nat \/ (y <= 1)%nat ->
            get m0 x y = Some MASK_INVALID.
Proof.
  intros Hw1 Hh1 Hinit.
  apply init_from_bytes in Hinit
    as (depth & conf & Hdepth & Hconf & Hw & Hh & Harr & Hsmooth & Hc).
  pose proof (tabulateM_rect _ _ _ _ Hdepth) as Hrect.
  pose proof (smoothen_rect w h depth Hrect) as Hrects.
  assert (Hborder : forall x y, (x < w)%nat -> (y < h)%nat ->
             (x <= 1)%nat \/ (y <= 1)%nat ->
             get (depthmap_arr_smooth d) x y = Some 0%Q).
  { intros x y Hx Hy Hedge. rewrite Hsmooth. by eapply smooth_border. }
  assert (Hcell : forall x y, (x <= 1)%nat \/ (y <= 1)%nat ->
             (cell (depthmap_arr_smooth d) x y == 0)%Q).
  { intros x y Hedge. unfold cell.
    destruct (get (depthmap_arr_smooth d) x y) as [v|] eqn:Hv;
      [|reflexivity].
    rewrite Hsmooth in Hv.
    destruct (rect_bounds w h _ x y v Hrects Hv) as [Hx Hy].
    rewrite <- Hsmooth, Hborder in Hv by done. by injection Hv as <-. }
  split; [done|]. split; [done|]. split.
  { destruct (decide (3 * w * h <= length data)%nat) as [|Hshort]; [done|].
    destruct (parse_confidence_data_short w h max_confidence data)
      as [e He]; [lia..|]. congruence. }
  split; [by rewrite Harr|]. split; [by rewrite Hsmooth|].
  split; [exists conf; split; [done|by eapply tabulateM_rect]|].
  split; [done|].
  intros floor.
  destruct (detect_floor_raises d floor) as [m0 Hm0].
  { by rewrite Hw, Hh, Hsmooth. }
  exists m0. split; [done|]. intros x y Hx Hy Hedge.
  destruct (detect_floor_get d floor m0 x y Hm0) as
    (n & p & v & Hn & _ & Hv & ->); [lia..|].
  rewrite Hborder in Hv by done. injection Hv as <-.
  unfold floor_cond.
  rewrite (zero_depth_normal d x y n Hn).
  - done.
  - by apply Hcell.
  - apply Hcell. destruct Hedge; [left|right]; lia.
  - apply Hcell. destruct Hedge; [left|right]; lia.
Qed.

Lemma construction_from_bytes_witness :
  exists d,
    framed_5x5 = Ok d
    /\ width d = 5%nat /\ height d = 5%nat
    /\ (3 * 5 * 5 <= length (encode_capture 5 5 (fun x y =>
                        if (x =? 4) || (y =? 4) then 0%Z else 1000%Z) 7%Z))%nat
    /\ rect 5 5 (depthmap_arr d)
    /\ rect 5 5 (depthmap_arr_smooth d)
    /\ (exists conf, confidence_arr d = Some conf /\ rect 5 5 conf)
    /\ (forall x y, (x < 5)%nat -> (y < 5)%nat ->
          (x <= 1)%nat \/ (y <= 1)%nat ->
          get (depthmap_arr_smooth d) x y = Some 0%Q)
    /\ forall floor, exists m0,
         detect_floor (K := sentinels) d floor = Ok m0
         /\ forall x y, (x < 5)%nat -> (y < 5)%nat ->
              (x <= 1)%nat \/ (y <= 1)%nat ->
              get m0 x y = Some (MASK_INVALID (Constants := sentinels)).
Proof.
  eexists. split; [vm_compute; reflexivity|].
  apply (construction_from_bytes (K := sentinels) centred_intrinsics 5 5
           (encode_capture 5 5 (fun x y =>
              if (x =? 4)%nat || (y =? 4)%nat then 0 else 1000) 7)
           (1 # 1000) 7 IDENTITY_MATRIX_4D); [lia|lia|].
  vm_compute. reflexivity.
Defined.

(** * Projection under the identity pose *)

Lemma init_Ok
  (calibration : grid Q) (w h : nat) (data : option (list byte))
  (arr : option (grid Q)) (depth_scale max_confidence : Q)
  (device_pose : list Q) (d : Depthmap) :
  __init__ calibration w h data arr depth_scale max_confidence device_pose
  = Ok d ->
  exists i0 i1 i2 i3,
    getitem calibration 1 0 = Ok i0 /\ getitem calibration 1 1 = Ok i1
    /\ getitem calibration 1 2 = Ok i2 /\ getitem calibration 1 3 = Ok i3
    /\ intrinsics d = calibration /\ sensor d = 1
    /\ width d = w /\ height d = h
    /\ fx d = (i0 * inject_Z (Z.of_nat w))%Q
    /\ fy d = (i1 * inject_Z (Z.of_nat h))%Q
    /\ cx d = (i2 * inject_Z (Z.of_nat w))%Q
    /\ cy d = (i3 * inject_Z (Z.of_nat h))%Q
    /\ reshape_4_4_T device_pose = Ok (device_pose_arr d)
    /\ depthmap_arr_smooth d = smoothen_depthmap_array (depthmap_arr d).
Proof.
  unfold __init__.
  destruct (getitem calibration 1 0) as [i0| |]; simpl; [|done..].
  destruct (getitem calibration 1 1) as [i1| |]; simpl; [|done..].
  destruct (getitem calibration 1 2) as [i2| |]; simpl; [|done..].
  destruct (getitem calibration 1 3) as [i3| |]; simpl; [|done..].
  destruct (reshape_4_4_T device_pose) as [pose| |]; simpl; [|done..].
  destruct (negb _); [done|].
  destruct (if truthy data then Some <$> _parse_depth_data _ _ _ _ else _)
    as [[depth|]| |]; simpl; [|done..].
  destruct (if truthy data then Some <$> _parse_confidence_data _ _ _ _
            else _) as [conf| |]; simpl; [|done..].
  intros [= <-]. simpl. by exists i0, i1, i2, i3.
Qed.

Lemma homogeneous_one (a b c : Q) :
  (Qabs (0 * a + (0 * b + (0 * c + (1 * 1 + 0)))) == 1)%Q.
Proof.
  assert (H : (0 * a + (0 * b + (0 * c + (1 * 1 + 0))) == 1)%Q) by ring.
  rewrite H. reflexivity.
Qed.

(** X14.  Under the identity pose the oriented projection is the plain
    projection mirrored in x and y: for a Depthmap constructed with the
    identity pose, with fx and fy not 0, the point of the pixel (x, y) in
    [convert_2d_to_3d_oriented] is (-tx, -ty, depth) where (tx, ty, depth)
    is [convert_2d_to_3d] of the pixel and of its depth. *)
Theorem oriented_identity_pose
  (calibration : grid Q) (w h : nat) (data : option (list byte))
  (arr : option (grid Q)) (depth_scale max_confidence : Q) (d : Depthmap)
  (should_smooth : bool) (x y : nat) :
  __init__ calibration w h data arr depth_scale max_confidence
           IDENTITY_MATRIX_4D = Ok d ->
  rect w h (depthmap_arr d) ->
  ~ (fx d == 0)%Q -> ~ (fy d == 0)%Q ->
  (x < w)%nat -> (y < h)%nat ->
  exists depth p q,
    get (if should_smooth then depthmap_arr_smooth d else depthmap_arr d) x y
    = Some depth
    /\ convert_2d_to_3d d (sensor d) (inject_Z (Z.of_nat x))
         (inject_Z (Z.of_nat y)) depth = Ok p
    /\ get (convert_2d_to_3d_oriented d should_smooth) x y = Some q
    /\ (v_x q == - v_x p)%Q /\ (v_y q == - v_y p)%Q /\ (v_z q == v_z p)%Q.
Proof.
  intros Hinit Hrect Hfx Hfy Hx Hy.
  apply init_Ok in Hinit
    as (i0 & i1 & i2 & i3 & H0 & H1 & H2 & H3 & Hintr & Hsensor & Hw & Hh
        & Efx & Efy & Ecx & Ecy & Hpose & Hsmooth).
  assert (Hdepth : exists depth,
             get (if should_smooth then depthmap_arr_smooth d
                  else depthmap_arr d) x y = Some depth).
  { destruct should_smooth.
    - rewrite Hsmooth. apply (rect_get w h); [|done..].
      by apply smoothen_rect.
    - by apply (rect_get w h). }
  destruct Hdepth as [depth Hdepth]. exists depth.
  unfold convert_2d_to_3d. rewrite Hsensor, Hintr, H0. simpl.
  rewrite H1. simpl. rewrite H2. simpl. rewrite H3. simpl.
  eexists _, _. split; [done|]. split; [reflexivity|].
  unfold convert_2d_to_3d_oriented. rewrite Hw, Hh, get_tabulate by done.
  split; [reflexivity|].
  unfold cell. rewrite Hdepth.
  injection Hpose as <-.
  rewrite Ecx, Ecy.
  rewrite Efx in Hfx. rewrite Efy in Hfy.
  rewrite Efx, Efy.
  cbv [matmul_row tabulate IDENTITY_MATRIX_4D].
  cbn [seq fmap list_fmap lookup list_lookup default from_option id
       Nat.mul Nat.add zip_with foldr v_x v_y v_z].
  rewrite !homogeneous_one.
  split; [|split].
  - field. repeat split; intros E;
      first [apply Hfx; rewrite E; ring | apply Hfy; rewrite E; ring].
  - field. repeat split; intros E;
      first [apply Hfx; rewrite E; ring | apply Hfy; rewrite E; ring].
  - ring.
Qed.

Lemma oriented_identity_pose_witness :
  exists d,
    flat_3x3 = Ok d
    /\ exists depth p q,
        get (depthmap_arr d) 2 2 = Some depth
        /\ convert_2d_to_3d d (sensor d) (inject_Z (Z.of_nat 2))
             (inject_Z (Z.of_nat 2)) depth = Ok p
        /\ get (convert_2d_to_3d_oriented d false) 2 2 = Some q
        /\ (v_x q == - v_x p)%Q /\ (v_y q == - v_y p)%Q
        /\ (v_z q == v_z p)%Q.
Proof.
  eexists. split; [vm_compute; reflexivity|].
  apply (oriented_identity_pose centred_intrinsics 3 3
           (Some (encode_capture 3 3 (fun _ _ => 1000) 7)) None
           (1 # 1000) 7 _ false 2 2).
  - vm_compute. reflexivity.
  - apply rectb_spec. vm_compute. reflexivity.
  - vm_compute. discriminate.
  - vm_compute. discriminate.
  - lia.
  - lia.
Defined.

(** X13.  The other direction of the round trip: for the intrinsics row
    of a sensor with fx <> 0 and fy <> 0 and a non-zero depth, the
    2D-to-3D conversion of the 3D-to-2D conversion of a point in metres
    gives back the point. *)
Theorem convert_roundtrip_metric
  (d : Depthmap) (sensor : Z) (n : nat) (i0 i1 i2 i3 x y depth : Q) :
  rect n 4 (intrinsics d) ->
  list_getitem (intrinsics d) sensor = Ok [i0; i1; i2; i3] ->
  ~ (i0 * inject_Z (Z.of_nat (width d)) == 0)%Q ->
  ~ (i1 * inject_Z (Z.of_nat (height d)) == 0)%Q ->
  ~ (depth == 0)%Q ->
  exists q p,
    convert_3d_to_2d [i0; i1; i2; i3] x y depth (width d) (height d) = Ok q /\
    convert_2d_to_3d d sensor (v_x q) (v_y q) (v_z q) = Ok p /\
    (v_x p == x)%Q /\ (v_y p == y)%Q /\ (v_z p == depth)%Q.
Proof.
  intros Hrect Hrow Hfx Hfy Hdepth.
  unfold convert_2d_to_3d.
  pose proof (getitem_row n 4 _ _ _ 0 i0 Hrect Hrow eq_refl) as H0.
  pose proof (getitem_row n 4 _ _ _ 1 i1 Hrect Hrow eq_refl) as H1.
  pose proof (getitem_row n 4 _ _ _ 2 i2 Hrect Hrow eq_refl) as H2.
  pose proof (getitem_row n 4 _ _ _ 3 i3 Hrect Hrow eq_refl) as H3.
  change (Z.of_nat 0) with 0 in H0. change (Z.of_nat 1) with 1 in H1.
  change (Z.of_nat 2) with 2 in H2. change (Z.of_nat 3) with 3 in H3.
  rewrite convert_3d_to_2d_Ok by exact Hdepth.
  eexists _, _. split; [reflexivity|]. cbn [v_x v_y v_z].
  rewrite H0. simpl. rewrite H1. simpl. rewrite H2. simpl. rewrite H3.
  simpl. split; [reflexivity|]. cbn [v_x v_y v_z].
  split; [|split; [|reflexivity]].
  - field. repeat split; [done| |];
      intros H; apply Hfx; rewrite H; ring.
  - field. repeat split; [done| |];
      intros H; apply Hfy; rewrite H; ring.
Qed.

Lemma convert_roundtrip_metric_witness :
  exists d,
    framed_5x5 = Ok d
    /\ exists q p,
        convert_3d_to_2d [1; 1; 1 # 2; 1 # 2]%Q (1 # 5) (-1 # 2) 3
                         (width d) (height d) = Ok q
        /\ convert_2d_to_3d d 1 (v_x q) (v_y q) (v_z q) = Ok p
        /\ (v_x p == 1 # 5)%Q /\ (v_y p == -1 # 2)%Q /\ (v_z p == 3)%Q.
Proof.
  eexists. split; [vm_compute; reflexivity|].
  apply (convert_roundtrip_metric _ 1 2).
  - split; [reflexivity|]. repeat constructor.
  - reflexivity.
  - vm_compute. discriminate.
  - vm_compute. discriminate.
  - vm_compute. discriminate.
Defined.

(** * The highest point *)

Lemma ext_lt_irrefl (a : ext) : ext_lt a a = false.
Proof.
  destruct a as [|q]; simpl; [done|].
  destruct (Qlt_bool q q) eqn:H; [|done].
  apply Qlt_bool_iff in H. by apply Qlt_irrefl in H.
Qed.

Lemma ext_lt_trans (a b c : ext) :
  ext_lt a b = true -> ext_lt b c = true -> ext_lt a c = true.
Proof.
  destruct a as [|x], b as [|y], c as [|z]; simpl; try done.
  rewrite !Qlt_bool_iff. apply Qlt_trans.
Qed.

Lemma ext_le_lt_trans (a b c : ext) :
  ext_lt b a = false -> ext_lt b c = true -> ext_lt a c = true.
Proof.
  destruct a as [|x], b as [|y], c as [|z]; simpl; try done.
  intros Hle. rewrite !Qlt_bool_iff. intros Hlt.
  eapply Qle_lt_trans; [|exact Hlt].
  apply Qnot_lt_le. intros H. apply Qlt_bool_iff in H. congruence.
Qed.

Lemma ext_lt_asym (a b : ext) : ext_lt a b = true -> ext_lt b a = false.
Proof.
  intros Hab. destruct (ext_lt b a) eqn:Hba; [|done].
  pose proof (ext_lt_trans a b a Hab Hba) as H.
  by rewrite ext_lt_irrefl in H.
Qed.

Lemma ext_le_trans (a b c : ext) :
  ext_lt b a = false -> ext_lt c b = false -> ext_lt c a = false.
Proof.
  intros Hab Hbc. destruct (ext_lt c a) eqn:Hca; [|done].
  pose proof (ext_le_lt_trans b c a Hbc Hca) as H. congruence.
Qed.

(** The scan returns the index it holds when no later cell is larger,
    and otherwise the index of the first of the largest later cells. *)
Lemma argmax_from_spec (l : list ext) :
  forall best ibest i,
    (argmax_from best ibest i l = ibest
     /\ forall j b, l !! j = Some b -> ext_lt best b = false)
    \/ (exists k a,
          argmax_from best ibest i l = (i + k)%nat
          /\ l !! k = Some a
          /\ ext_lt best a = true
          /\ (forall j b, l !! j = Some b -> ext_lt a b = false)
          /\ (forall j b, (j < k)%nat -> l !! j = Some b ->
                          ext_lt b a = true)).
Proof.
  induction l as [|a l IH]; intros best ibest i; simpl.
  - left. split; [done|]. intros j b Hj. done.
  - destruct (ext_lt best a) eqn:Hlt.
    + right.
      destruct (IH a i (S i))
        as [[-> Hall]|(k & a' & -> & Hk & Hgt & Hmax & Hfirst)].
      * exists 0%nat, a. split; [lia|]. split; [done|]. split; [done|].
        split.
        -- intros [|j] b Hj; simpl in Hj.
           ++ injection Hj as <-. apply ext_lt_irrefl.
           ++ by eapply Hall.
        -- intros j b Hj. lia.
      * exists (S k), a'. split; [lia|]. split; [done|].
        split; [by eapply ext_lt_trans|]. split.
        -- intros [|j] b Hj; simpl in Hj.
           ++ injection Hj as <-. by apply ext_lt_asym.
           ++ by eapply Hmax.
        -- intros [|j] b Hjk Hj; simpl in Hj.
           ++ by injection Hj as <-.
           ++ eapply Hfirst; [|done]. lia.
    + destruct (IH best ibest (S i))
        as [[-> Hall]|(k & a' & -> & Hk & Hgt & Hmax & Hfirst)].
      * left. split; [done|].
        intros [|j] b Hj; simpl in Hj.
        -- by injection Hj as <-.
        -- by eapply Hall.
      * right. exists (S k), a'. split; [lia|]. split; [done|].
        split; [done|]. split.
        -- intros [|j] b Hj; simpl in Hj.
           ++ injection Hj as <-. apply ext_lt_asym.
              by eapply ext_le_lt_trans.
           ++ by eapply Hmax.
        -- intros [|j] b Hjk Hj; simpl in Hj.
           ++ injection Hj as <-. by eapply ext_le_lt_trans.
           ++ eapply Hfirst; [|done]. lia.
Qed.

Lemma argmax_spec (l : list ext) :
  l <> [] ->
  exists k a,
    argmax l = Ok k
    /\ l !! k = Some a
    /\ (forall j b, l !! j = Some b -> ext_lt a b = false)
    /\ (forall j b, (j < k)%nat -> l !! j = Some b -> ext_lt b a = true).
Proof.
  destruct l as [|a0 l]; [done|]. intros _. simpl.
  destruct (argmax_from_spec l a0 0%nat 1%nat)
    as [[-> Hall]|(k & a' & -> & Hk & Hgt & Hmax & Hfirst)].
  - exists 0%nat, a0. split; [done|]. split; [done|]. split.
    + intros [|j] b Hj; simpl in Hj.
      * injection Hj as <-. apply ext_lt_irrefl.
      * by eapply Hall.
    + intros j b Hj. lia.
  - exists (S k), a'. split; [done|]. split; [done|]. split.
    + intros [|j] b Hj; simpl in Hj.
      * injection Hj as <-. by apply ext_lt_asym.
      * by eapply Hmax.
    + intros [|j] b Hjk Hj; simpl in Hj.
      * by injection Hj as <-.
      * eapply Hfirst; [|done]. lia.
Qed.

Lemma concat_lookup_rect {A} (w h : nat) (g : grid A) (x y : nat) :
  rect w h g -> (y < h)%nat -> concat g !! (x * h + y)%nat = get g x y.
Proof.
  revert w x. induction g as [|row g IH]; intros w x [Hl Hr] Hy.
  - simpl. unfold get. by rewrite !lookup_nil.
  - apply Forall_cons in Hr as [Hrow Hr]. simpl in Hrow.
    destruct x as [|x]; simpl.
    + unfold get. simpl. rewrite lookup_app_l by lia. done.
    + rewrite lookup_app_r by lia.
      replace (h + x * h + y - length row)%nat with (x * h + y)%nat by lia.
      destruct w as [|w]; [done|].
      rewrite (IH w x); [done| |done]. split; [|done]. simpl in Hl. lia.
Qed.

Lemma concat_length_rect {A} (w h : nat) (g : grid A) :
  rect w h g -> length (concat g) = (w * h)%nat.
Proof.
  revert w. induction g as [|row g IH]; intros w [Hl Hr]; simpl in *.
  - subst. done.
  - apply Forall_cons in Hr as [Hrow Hr]. simpl in Hrow.
    rewrite length_app. destruct w as [|w]; [done|].
    rewrite (IH w); [lia|]. split; [lia|done].
Qed.

Lemma boolean_index_accepted_rect (w h : nat) (mask : grid Z) :
  rect w h mask -> boolean_index_accepted w h mask = true.
Proof.
  intros Hrect. unfold boolean_index_accepted.
  destruct w as [|w].
  - destruct Hrect as [Hl _]. apply nil_length_inv in Hl as ->. done.
  - rewrite (rect_shape (S w) h) by (done || lia).
    apply rectb_spec in Hrect as ->.
    rewrite !Nat.eqb_refl, !orb_true_r. done.
Qed.

Lemma boolean_index_rejected (w h mw mh : nat) (mask : grid Z) :
  (1 <= mw)%nat -> (1 <= mh)%nat -> rect mw mh mask ->
  ~ (mw = w /\ mh = h) ->
  boolean_index_accepted w h mask = false.
Proof.
  intros Hmw Hmh Hrect Hne. unfold boolean_index_accepted.
  rewrite (rect_shape mw mh) by (done || lia).
  destruct (Nat.eqb_spec mw 0); [lia|].
  destruct (Nat.eqb_spec mh 0); [lia|].
  destruct (Nat.eqb_spec mw w), (Nat.eqb_spec mh h);
    rewrite ?andb_false_r; try done.
  by destruct Hne.
Qed.

Section HighestPointFacts.
Context {K : Constants}.
Variables (d : Depthmap) (mask : grid Z).
Hypothesis Hrect : rect (width d) (height d) mask.
Hypothesis Hw : (1 <= width d)%nat.
Hypothesis Hh : (1 <= height d)%nat.

Lemma y_array_masked :
  y_array d mask
  = zip_with (zip_with (fun (m : Z) (y : ext) =>
                          if negb (m =? MASK_CHILD) then NegInf else y))
             mask (map_grid (fun p => Finite (v_y p))
                            (convert_2d_to_3d_oriented d false)).
Proof.
  unfold y_array. rewrite (rect_shape (width d) (height d)) by (done || lia).
  destruct (Nat.eqb_spec (width d) 0); [lia|].
  destruct (Nat.eqb_spec (height d) 0); [lia|]. done.
Qed.

Lemma y_array_rect : rect (width d) (height d) (y_array d mask).
Proof.
  rewrite y_array_masked.
  apply rect_zip_with2; [done|]. apply rect_map_grid, rect_tabulate.
Qed.

Lemma y_array_get (x y : nat) :
  (x < width d)%nat -> (y < height d)%nat ->
  exists m p,
    get mask x y = Some m
    /\ get (convert_2d_to_3d_oriented d false) x y = Some p
    /\ get (y_array d mask) x y
       = Some (if negb (m =? MASK_CHILD) then NegInf else Finite (v_y p)).
Proof.
  intros Hx Hy.
  destruct (rect_get _ _ mask x y Hrect Hx Hy) as [m Hm].
  assert (Hp : exists p, get (convert_2d_to_3d_oriented d false) x y
                         = Some p).
  { unfold convert_2d_to_3d_oriented. rewrite get_tabulate by done. eauto. }
  destruct Hp as [p Hp]. exists m, p. split; [done|]. split; [done|].
  rewrite y_array_masked, get_zip_with2, Hm, get_map_grid, Hp. done.
Qed.

(** The point returned is the point of the first of the largest cells of
    the masked heights. *)
Lemma get_highest_point_argmax :
  exists x y p a,
    (x < width d)%nat /\ (y < height d)%nat
    /\ get_highest_point d mask = Ok p
    /\ get (convert_2d_to_3d_oriented d false) x y = Some p
    /\ get (y_array d mask) x y = Some a
    /\ (forall x' y' b, get (y_array d mask) x' y' = Some b ->
                        ext_lt a b = false)
    /\ (forall x' y' b, before x' y' x y ->
                        get (y_array d mask) x' y' = Some b ->
                        ext_lt b a = true).
Proof.
  pose proof y_array_rect as Hya.
  pose proof (concat_length_rect _ _ _ Hya) as Hlen.
  destruct (argmax_spec (concat (y_array d mask)))
    as (k & a & Harg & Hk & Hmax & Hfirst).
  { intros Hnil. rewrite Hnil in Hlen. simpl in Hlen. nia. }
  assert (Hklt : (k < width d * height d)%nat).
  { rewrite <- Hlen. by eapply lookup_lt_Some. }
  pose proof (Nat.div_mod_eq k (height d)) as Hdm.
  assert (Hy : (k mod height d < height d)%nat)
    by (apply Nat.mod_upper_bound; lia).
  assert (Hx : (k / height d < width d)%nat)
    by (apply Nat.Div0.div_lt_upper_bound; lia).
  set (x := (k / height d)%nat) in *. set (y := (k mod height d)%nat) in *.
  assert (Hkxy : k = (x * height d + y)%nat) by lia.
  destruct (y_array_get x y Hx Hy) as (m & p & Hm & Hp & Hget).
  exists x, y, p, a.
  split; [done|]. split; [done|]. split.
  { unfold get_highest_point.
    rewrite boolean_index_accepted_rect by done. simpl.
    rewrite Harg. simpl. fold x. fold y. by rewrite Hp. }
  split; [done|].
  rewrite Hkxy, (concat_lookup_rect _ _ _ _ _ Hya Hy) in Hk.
  split; [done|]. split.
  - intros x' y' b Hb.
    destruct (rect_bounds _ _ _ _ _ _ Hya Hb) as [Hx' Hy'].
    apply (Hmax (x' * height d + y')%nat).
    by rewrite (concat_lookup_rect _ _ _ _ _ Hya Hy').
  - intros x' y' b Hbefore Hb.
    destruct (rect_bounds _ _ _ _ _ _ Hya Hb) as [Hx' Hy'].
    apply (Hfirst (x' * height d + y')%nat).
    + destruct Hbefore as [Hlt|[-> Hlt]]; nia.
    + by rewrite (concat_lookup_rect _ _ _ _ _ Hya Hy').
Qed.
End HighestPointFacts.

(** X15.  When the mask has the shape (width, height) and holds a CHILD
    pixel, [get_highest_point] returns the point of a CHILD pixel whose
    y is the largest among the CHILD pixels, and of the first such pixel
    in the order of the flattened array (x first, then y). *)
Theorem get_highest_point_highest {K : Constants}
  (d : Depthmap) (mask : grid Z) (x0 y0 : nat) :
  rect (width d) (height d) (depthmap_arr d) ->
  regular d ->
  rect (width d) (height d) mask ->
  get mask x0 y0 = Some MASK_CHILD ->
  exists x y p,
    get_highest_point d mask = Ok p
    /\ get mask x y = Some MASK_CHILD
    /\ get (convert_2d_to_3d_oriented d false) x y = Some p
    /\ forall x' y' p',
         get mask x' y' = Some MASK_CHILD ->
         get (convert_2d_to_3d_oriented d false) x' y' = Some p' ->
         (v_y p' <= v_y p)%Q
         /\ (before x' y' x y -> (v_y p' < v_y p)%Q).
Proof.
  intros _ _ Hrect Hchild.
  destruct (rect_bounds _ _ _ _ _ _ Hrect Hchild) as [Hx0 Hy0].
  assert (Hw : (1 <= width d)%nat) by lia.
  assert (Hh : (1 <= height d)%nat) by lia.
  destruct (get_highest_point_argmax d mask Hrect Hw Hh)
    as (x & y & p & a & Hx & Hy & Hres & Hp & Ha & Hmax & Hfirst).
  assert (Hcell : forall x' y' p',
             get mask x' y' = Some MASK_CHILD ->
             get (convert_2d_to_3d_oriented d false) x' y' = Some p' ->
             get (y_array d mask) x' y' = Some (Finite (v_y p'))).
  { intros x' y' p' Hm' Hp'.
    rewrite y_array_masked, get_zip_with2, Hm', get_map_grid, Hp' by done.
    simpl.
    by rewrite Z.eqb_refl. }
  destruct (y_array_get d mask Hrect Hw Hh x0 y0 Hx0 Hy0)
    as (m0 & p0 & Hm0 & Hp0 & _).
  pose proof (Hmax x0 y0 _ (Hcell x0 y0 p0 Hchild Hp0)) as Hge0.
  destruct (y_array_get d mask Hrect Hw Hh x y Hx Hy) as (m & p1 & Hm & Hp1 & Ha').
  rewrite Hp in Hp1. injection Hp1 as <-.
  rewrite Ha in Ha'. injection Ha' as ->.
  destruct (Z.eqb_spec m MASK_CHILD) as [Heq|Hne]; simpl in *; [|done].
  rewrite Heq in Hm.
  exists x, y, p. split; [done|]. split; [done|]. split; [done|].
  intros x' y' p' Hm' Hp'. split.
  - pose proof (Hmax x' y' _ (Hcell x' y' p' Hm' Hp')) as Hle.
    simpl in Hle. apply Qnot_lt_le. intros Hlt.
    apply Qlt_bool_iff in Hlt. congruence.
  - intros Hbefore.
    pose proof (Hfirst x' y' _ Hbefore (Hcell x' y' p' Hm' Hp')) as Hlt.
    simpl in Hlt. by apply Qlt_bool_iff.
Qed.

(** X16.  Without a CHILD pixel [get_highest_point] does not fail: every
    height is minus infinity and it returns the point of the pixel
    (0, 0).  A mask that has no empty axis and whose shape is not
    (width, height) raises [IndexError]. *)
Theorem get_highest_point_without_child {K : Constants}
  (d : Depthmap) (mask : grid Z) :
  rect (width d) (height d) (depthmap_arr d) ->
  (1 <= width d)%nat -> (1 <= height d)%nat ->
  (forall mw mh, (1 <= mw)%nat -> (1 <= mh)%nat -> rect mw mh mask ->
     ~ (mw = width d /\ mh = height d) ->
     get_highest_point d mask = Raise IndexError)
  /\ (rect (width d) (height d) mask ->
      (forall x y, get mask x y <> Some MASK_CHILD) ->
      exists p, get (convert_2d_to_3d_oriented d false) 0 0 = Some p
                /\ get_highest_point d mask = Ok p).
Proof.
  intros _ Hw Hh. split.
  - intros mw mh Hmw Hmh Hrect Hne. unfold get_highest_point.
    by rewrite (boolean_index_rejected _ _ mw mh).
  - intros Hrect Hnone.
    destruct (get_highest_point_argmax d mask Hrect Hw Hh)
      as (x & y & p & a & Hx & Hy & Hres & Hp & Ha & Hmax & Hfirst).
    assert (Hcell : forall x' y', (x' < width d)%nat -> (y' < height d)%nat ->
               get (y_array d mask) x' y' = Some NegInf).
    { intros x' y' Hx' Hy'.
      destruct (y_array_get d mask Hrect Hw Hh x' y' Hx' Hy')
        as (m & p' & Hm & _ & ->).
      destruct (Z.eqb_spec m MASK_CHILD) as [Heq|Hne]; [|done].
      rewrite Heq in Hm. by apply Hnone in Hm. }
    rewrite Hcell in Ha by done. injection Ha as <-.
    destruct (decide (x = 0%nat /\ y = 0%nat)) as [[-> ->]|Hnot].
    + by exists p.
    + assert (Hbefore : before 0 0 x y) by (unfold before; lia).
      pose proof (Hfirst 0%nat 0%nat NegInf Hbefore) as Hlt.
      rewrite Hcell in Hlt by lia. by specialize (Hlt eq_refl).
Qed.

Lemma get_highest_point_highest_witness :
  exists d mask,
    framed_5x5 = Ok d
    /\ segment_child (K := sentinels) d 0 = Ok mask
    /\ exists x y p,
        get_highest_point (K := sentinels) d mask = Ok p
        /\ get mask x y = Some (MASK_CHILD (Constants := sentinels))
        /\ get (convert_2d_to_3d_oriented d false) x y = Some p
        /\ forall x' y' p',
             get mask x' y' = Some (MASK_CHILD (Constants := sentinels)) ->
             get (convert_2d_to_3d_oriented d false) x' y' = Some p' ->
             (v_y p' <= v_y p)%Q
             /\ (before x' y' x y -> (v_y p' < v_y p)%Q).
Proof.
  eexists _, _.
  split; [vm_compute; reflexivity|].
  split; [vm_compute; reflexivity|].
  apply (get_highest_point_highest (K := sentinels) _ _ 2 2).
  - apply rectb_spec. vm_compute. reflexivity.
  - split; [simpl; lia|]. split; [simpl; lia|].
    split; [vm_compute; discriminate|].
    split; [vm_compute; discriminate|]. vm_compute. reflexivity.
  - apply rectb_spec. vm_compute. reflexivity.
  - reflexivity.
Defined.

Lemma get_highest_point_without_child_witness :
  exists d mask,
    dark_3x3 = Ok d
    /\ segment_child (K := sentinels) d 0 = Ok mask
    /\ (forall mw mh, (1 <= mw)%nat -> (1 <= mh)%nat -> rect mw mh mask ->
          ~ (mw = width d /\ mh = height d) ->
          get_highest_point (K := sentinels) d mask = Raise IndexError)
    /\ (rect (width d) (height d) mask ->
        (forall x y,
            get mask x y <> Some (MASK_CHILD (Constants := sentinels))) ->
        exists p, get (convert_2d_to_3d_oriented d false) 0 0 = Some p
                  /\ get_highest_point (K := sentinels) d mask = Ok p).
Proof.
  eexists _, _.
  split; [vm_compute; reflexivity|].
  split; [vm_compute; reflexivity|].
  apply (get_highest_point_without_child (K := sentinels)).
  - apply rectb_spec. vm_compute. reflexivity.
  - simpl. lia.
  - simpl. lia.
Defined.

(** * Bounding boxes hold their segments *)

Lemma update_aabb_has (p : Z * Z) (a : Aabb) (x y : nat) :
  box_has a x y -> box_has (update_aabb p a) x y.
Proof. unfold box_has, update_aabb. simpl. lia. Qed.

Lemma update_aabb_has_pixel (p : Z * Z) (a : Aabb) :
  0 <= p.1 -> 0 <= p.2 ->
  box_has (update_aabb p a) (Z.to_nat p.1) (Z.to_nat p.2).
Proof. unfold box_has, update_aabb. simpl. lia. Qed.

Lemma visit_sound (w h : nat) (depth : grid Q) (cur : Z)
  (m_init m : grid Z) (a : Aabb) (p : Z * Z) (st : list (Z * Z))
  (m' : grid Z) (a' : Aabb) (st' : list (Z * Z)) :
  rect w h depth -> cur < 0 ->
  sound_inv w h cur m_init m a (p :: st) ->
  visit depth cur m a p st = Ok (m', a', st') ->
  sound_inv w h cur m_init m' a' st'.
Proof.
  intros Hdepth Hcur [Hsafe Hlab] Hvisit.
  destruct (visit_safe w h depth cur Hdepth Hcur m a p st Hsafe)
    as (m1 & a1 & st1 & Hvisit1 & Hsafe1).
  rewrite Hvisit in Hvisit1. injection Hvisit1 as <- <- <-.
  split; [done|].
  destruct Hsafe as (Hrect & _ & _ & Hst).
  apply Forall_cons in Hst as [[Hp1 Hp2] _].
  apply visit_Ok in Hvisit as (dc & c0 & _ & _ & _ & -> & Hset).
  apply setitem_Ok in Hset as (i & j & Hi & Hj & Hm').
  rewrite (rect_shape w h) in Hi, Hj by (done || lia). simpl in Hi, Hj.
  rewrite <- (Z2Nat.id p.1) in Hi by lia.
  rewrite <- (Z2Nat.id p.2) in Hj by lia.
  apply py_index_nat_inv in Hi as ->, Hj as ->.
  intros x y c. rewrite Hm'.
  destruct (decide (x = Z.to_nat p.1 /\ y = Z.to_nat p.2)) as [[-> ->]|Hne].
  - destruct (get m _ _); simpl; [|done]. intros [= <-]. left.
    split; [done|]. apply update_aabb_has_pixel; lia.
  - intros Hc. destruct (Hlab x y c Hc) as [[-> Hbox]|Hold]; [left|by right].
    split; [done|]. by apply update_aabb_has.
Qed.

Lemma flood_sound (w h : nat) (depth : grid Q) (cur : Z)
  (m_init : grid Z) (fuel : nat) (m : grid Z) (a : Aabb) (st : list (Z * Z))
  (m' : grid Z) (a' : Aabb) :
  rect w h depth -> cur < 0 ->
  sound_inv w h cur m_init m a st ->
  flood fuel depth cur m a st = Ok (m', a') ->
  sound_inv w h cur m_init m' a' [].
Proof.
  intros Hdepth Hcur.
  apply (flood_invariant (sound_inv w h cur m_init)).
  intros m1 a1 p st1 m2 a2 st2. by apply visit_sound.
Qed.

Lemma scan_sound (d : Depthmap) (x y : nat)
  (st : grid Z * list Segment.t * Z) :
  rect (width d) (height d) (depthmap_arr d) ->
  (x < width d)%nat -> (y < height d)%nat ->
  sound_scan d st ->
  exists st', scan d x y st = Ok st' /\ sound_scan d st'.
Proof.
  intros Hdepth Hx Hy (Hsafe & Habove & Hsegs).
  destruct (scan_safe d x y st Hdepth Hx Hy Hsafe) as (st' & Hscan & Hsafe').
  exists st'. split; [done|]. split; [done|].
  destruct st as [[m segments] cur]. simpl in Habove, Hsegs.
  destruct Hsafe as (Hcur & Hrect & Hframe & Hboxes).
  apply scan_Ok in Hscan
    as [(c & _ & _ & ->)|(m' & a' & _ & Hflood & ->)]; [done|].
  simpl.
  eapply (flood_sound (width d) (height d) _ cur m) in Hflood;
    [|done|done|].
  - destruct Hflood as [_ Hlab]. split.
    + intros x' y' c Hc.
      destruct (Hlab x' y' c Hc) as [[-> _]|[_ Hold]]; [lia|].
      apply Habove in Hold. lia.
    + assert (Hold : Forall (fun s => cur - 1 < Segment.id s
                        /\ forall x' y', get m' x' y' = Some (Segment.id s) ->
                                         box_has (Segment.aabb s) x' y')
                       segments).
      { eapply Forall_impl; [exact Hsegs|]. simpl.
        intros s [Hid Hbox]. split; [lia|]. intros x' y' Hc.
        destruct (Hlab x' y' _ Hc) as [[Heq _]|[_ Hold]]; [lia|].
        by apply Hbox. }
      destruct (Qlt_bool _ _); [|done].
      apply Forall_app. split; [done|]. apply Forall_singleton. simpl.
      split; [lia|]. intros x' y' Hc.
      destruct (Hlab x' y' _ Hc) as [[_ Hbox]|[Hne _]]; done.
  - split.
    + split; [done|]. split; [done|]. split.
      * unfold box_in_grid. simpl. lia.
      * apply Forall_singleton. unfold in_grid. simpl. lia.
    + intros x' y' c Hc. right. split; [|done].
      apply Habove in Hc. lia.
Qed.

(** X17.  Under the conditions that keep the fill inside the image (a
    depth array of the shape (width, height), a floor mask whose first
    and last row and column are labeled), the bounding box of every
    accepted segment holds every pixel that carries the id of the
    segment in the mask [detect_objects] returns. *)
Theorem detect_objects_boxes {K : Constants} {HK : PositiveSentinels K}
  (d : Depthmap) (floor : Q) (m0 : grid Z) :
  rect (width d) (height d) (depthmap_arr d) ->
  detect_floor d floor = Ok m0 ->
  frame_labelled (width d) (height d) m0 ->
  exists m segments,
    detect_objects d floor = Ok (m, segments)
    /\ forall s x y, s ∈ segments ->
         get m x y = Some (Segment.id s) ->
         aabb0 (Segment.aabb s) <= Z.of_nat x <= aabb2 (Segment.aabb s)
         /\ aabb1 (Segment.aabb s) <= Z.of_nat y <= aabb3 (Segment.aabb s).
Proof.
  intros Hdepth Hfloor Hframe.
  assert (Hstart : sound_scan d (m0, @nil Segment.t, -1)).
  { split.
    - split; [lia|]. split; [by eapply detect_floor_rect|]. by split.
    - split; [|by apply Forall_nil]. simpl. intros x y c Hc.
      pose proof floor_positive. pose proof invalid_positive.
      destruct (detect_floor_values d floor m0 x y c Hfloor Hc)
        as [->|[->| ->]]; lia. }
  destruct (for_each_Ok (sound_scan d)
              (fun st x =>
                 for_each (fun st y => scan d x y st) (seq 0 (height d)) st)
              (seq 0 (width d))) with (s := (m0, @nil Segment.t, -1))
    as ([[m segments] cur] & Hscan & Hend); [|done|].
  - intros s x Hx Hs. apply for_each_Ok; [|done].
    intros s1 y Hy Hs1. apply elem_of_seq in Hx, Hy.
    apply scan_sound; try done; lia.
  - exists m, segments. split.
    + unfold detect_objects. rewrite Hfloor. simpl.
      unfold scan_all. rewrite Hscan. done.
    + destruct Hend as (_ & _ & Hsegs). simpl in Hsegs.
      rewrite Forall_forall in Hsegs.
      intros s x y Hs Hc. by apply (Hsegs s Hs).
Qed.

Lemma detect_objects_boxes_witness :
  exists d,
    framed_5x5 = Ok d
    /\ exists m segments,
        detect_objects (K := sentinels) d 0 = Ok (m, segments)
        /\ forall s x y, s ∈ segments ->
             get m x y = Some (Segment.id s) ->
             aabb0 (Segment.aabb s) <= Z.of_nat x <= aabb2 (Segment.aabb s)
             /\ aabb1 (Segment.aabb s) <= Z.of_nat y
                <= aabb3 (Segment.aabb s).
Proof.
  eexists. split; [vm_compute; reflexivity|].
  assert (HK : PositiveSentinels sentinels) by (split; simpl; lia).
  eapply (detect_objects_boxes (K := sentinels) (HK := HK) _ 0).
  - apply rectb_spec. vm_compute. reflexivity.
  - vm_compute. reflexivity.
  - intros x y Hx Hy Hedge. vm_compute in Hx, Hy, Hedge.
    do 5 (destruct x as [|x];
          [do 5 (destruct y as [|y];
                 [first [ eexists; split; [reflexivity|discriminate]
                        | exfalso; lia ]|]);
           exfalso; lia|]).
    exfalso. lia.
Defined.

(** * The range of the floor level *)

Lemma insert_sorted_Forall (P : Q -> Prop) (q : Q) (l : list Q) :
  P q -> Forall P l -> Forall P (insert_sorted q l).
Proof.
  intros Hq. induction 1 as [|a l Ha Hl IH]; simpl.
  - by apply Forall_singleton.
  - destruct (Qle_bool q a).
    + by repeat apply Forall_cons_2.
    + by apply Forall_cons_2.
Qed.

Lemma insert_sorted_length (q : Q) (l : list Q) :
  length (insert_sorted q l) = S (length l).
Proof.
  induction l as [|a l IH]; simpl; [done|].
  destruct (Qle_bool q a); simpl; [done|]. by rewrite IH.
Qed.

Lemma sort_Forall (P : Q -> Prop) (l : list Q) :
  Forall P l -> Forall P (sort l).
Proof.
  induction 1 as [|a l Ha Hl IH]; simpl; [done|].
  by apply insert_sorted_Forall.
Qed.

Lemma sort_length (l : list Q) : length (sort l) = length l.
Proof.
  induction l as [|a l IH]; simpl; [done|].
  by rewrite insert_sorted_length, IH.
Qed.

(** The median of values of a range lies in the range. *)
Lemma median_range (l : list Q) (lo hi : Q) :
  l <> [] ->
  Forall (fun v => lo <= v <= hi)%Q l ->
  exists q, median l = Fin q /\ (lo <= q <= hi)%Q.
Proof.
  intros Hne Hall. unfold median.
  pose proof (sort_Forall _ l Hall) as Hs.
  pose proof (sort_length l) as Hlen.
  set (s := sort l) in *. set (n := length s) in *.
  assert (Hn : (0 < n)%nat).
  { rewrite Hlen. destruct l; [done|]. simpl. lia. }
  destruct (Nat.eqb_spec n 0) as [|_]; [lia|].
  assert (Hat : forall k, (k < n)%nat ->
             (lo <= default 0%Q (s !! k) <= hi)%Q).
  { intros k Hk. destruct (lookup_lt_is_Some_2 s k Hk) as [v Hv].
    rewrite Hv. simpl. rewrite Forall_lookup in Hs. by eapply Hs. }
  assert (Hhalf : (n / 2 < n)%nat) by (apply Nat.div_lt; lia).
  destruct (Nat.even n) eqn:Heven.
  - eexists. split; [reflexivity|].
    destruct (Hat (n / 2 - 1)%nat) as [Ha1 Ha2]; [lia|].
    destruct (Hat (n / 2)%nat) as [Hb1 Hb2]; [lia|].
    set (a := default 0%Q (s !! (n / 2 - 1)%nat)) in *.
    set (b := default 0%Q (s !! (n / 2)%nat)) in *.
    split.
    + apply Qle_shift_div_l; [reflexivity|].
      assert (E : (lo * 2 == lo + lo)%Q) by ring. rewrite E.
      by apply Qplus_le_compat.
    + apply Qle_shift_div_r; [reflexivity|].
      assert (E : (hi * 2 == hi + hi)%Q) by ring. rewrite E.
      by apply Qplus_le_compat.
  - eexists. split; [reflexivity|]. by apply Hat.
Qed.

Lemma boolean_index_elem {A} (g : grid A) (c : grid bool) (v : A) :
  v ∈ boolean_index g c <->
  exists x y, get g x y = Some v /\ get c x y = Some true.
Proof.
  unfold boolean_index. rewrite list_elem_of_In, in_concat. split.
  - intros (l & Hl & Hv).
    apply list_elem_of_In, list_elem_of_lookup in Hl as [x Hx].
    apply lookup_zip_with_Some in Hx as (row & crow & -> & Hrow & Hcrow).
    apply list_elem_of_In, list_elem_of_omap in Hv as ([a b] & Hab & Hsel).
    simpl in Hsel. destruct b; [|done]. injection Hsel as ->.
    apply list_elem_of_lookup in Hab as [y Hy].
    apply lookup_zip_Some in Hy as [Ha Hb].
    exists x, y. unfold get. rewrite Hrow, Hcrow. simpl. done.
  - intros (x & y & Hg & Hc). unfold get in Hg, Hc.
    destruct (g !! x) as [row|] eqn:Hrow; simpl in Hg; [|done].
    destruct (c !! x) as [crow|] eqn:Hcrow; simpl in Hc; [|done].
    exists (omap (fun p : A * bool => if p.2 then Some p.1 else None)
                 (zip row crow)).
    split.
    + apply list_elem_of_In, list_elem_of_lookup. exists x.
      apply lookup_zip_with_Some. by exists row, crow.
    + apply list_elem_of_In, list_elem_of_omap. exists (v, true).
      split; [|done]. apply list_elem_of_lookup. exists y.
      by apply lookup_zip_Some.
Qed.

(** X18.  [get_floor_level] returns not-a-number exactly when it selects
    no pixel; when it selects one, it returns a number that lies between
    any two bounds of the world-space y of the selected pixels. *)
Theorem get_floor_level_range (d : Depthmap) :
  rect (width d) (height d) (depthmap_arr_smooth d) ->
  regular d ->
  ((forall x y, ~ floor_candidate d x y) -> get_floor_level d = Ok NaN)
  /\ forall x0 y0 lo hi,
       floor_candidate d x0 y0 ->
       (forall x y p,
           floor_candidate d x y ->
           get (convert_2d_to_3d_oriented d true) x y = Some p ->
           (lo <= v_y p <= hi)%Q) ->
       exists q, get_floor_level d = Ok (Fin q) /\ (lo <= q <= hi)%Q.
Proof.
  intros Hrect _. apply rectb_spec in Hrect.
  unfold get_floor_level. rewrite Hrect. simpl.
  set (points := convert_2d_to_3d_oriented d true).
  set (normal := calculate_normalmap_array d points).
  set (cond := map_grid (fun n => abs_gt (n_y n) (1 # 2)) normal).
  assert (Hsel : forall v,
             v ∈ boolean_index (map_grid v_y points) cond <->
             exists x y p, floor_candidate d x y
                           /\ get points x y = Some p /\ v = v_y p).
  { intros v. rewrite boolean_index_elem. unfold cond, floor_candidate.
    fold points. fold normal. split.
    - intros (x & y & Hv & Hc).
      rewrite get_map_grid in Hv. rewrite get_map_grid in Hc.
      destruct (get points x y) as [p|] eqn:Hp; [|done].
      destruct (get normal x y) as [n|] eqn:Hn; [|done].
      simpl in Hv, Hc. injection Hv as <-. injection Hc as Hc.
      exists x, y, p. split; [by exists n|done].
    - intros (x & y & p & (n & Hn & Hc) & Hp & ->).
      exists x, y. rewrite !get_map_grid, Hp, Hn. simpl. by rewrite Hc. }
  split.
  - intros Hnone.
    destruct (boolean_index (map_grid v_y points) cond) as [|v l] eqn:Hl;
      [done|].
    destruct (proj1 (Hsel v)) as (x & y & _ & Hc & _); [left|].
    by apply Hnone in Hc.
  - intros x0 y0 lo hi Hc0 Hrange.
    destruct (median_range (boolean_index (map_grid v_y points) cond) lo hi)
      as (q & -> & Hq); [| |by exists q].
    + destruct Hc0 as (n & Hn & Hgt).
      assert (Hp : exists p, get points x0 y0 = Some p).
      { unfold calculate_normalmap_array in Hn.
        apply get_tabulate_Some in Hn as (Hx & Hy & _).
        unfold points, convert_2d_to_3d_oriented.
        rewrite get_tabulate by done. eauto. }
      destruct Hp as [p Hp]. intros Hnil.
      assert (Hin : v_y p ∈ boolean_index (map_grid v_y points) cond).
      { apply Hsel. exists x0, y0, p. split; [by exists n|done]. }
      rewrite Hnil in Hin. by apply elem_of_nil in Hin.
    + apply Forall_forall. intros v Hv.
      apply Hsel in Hv as (x & y & p & Hc & Hp & ->). by eapply Hrange.
Qed.

Lemma get_floor_level_range_witness :
  exists d,
    steep_4x4 = Ok d
    /\ ((forall x y, ~ floor_candidate d x y) -> get_floor_level d = Ok NaN)
    /\ forall x0 y0 lo hi,
         floor_candidate d x0 y0 ->
         (forall x y p,
             floor_candidate d x y ->
             get (convert_2d_to_3d_oriented d true) x y = Some p ->
             (lo <= v_y p <= hi)%Q) ->
         exists q, get_floor_level d = Ok (Fin q) /\ (lo <= q <= hi)%Q.
Proof.
  eexists. split; [vm_compute; reflexivity|].
  apply get_floor_level_range.
  - apply rectb_spec. vm_compute. reflexivity.
  - split; [simpl; lia|]. split; [simpl; lia|].
    split; [vm_compute; discriminate|].
    split; [vm_compute; discriminate|]. vm_compute. reflexivity.
Defined.

(** * The exceptions of the segmentation *)

Lemma getitem_raises {A} (g : grid A) (x y : Z) (e : exn) :
  getitem g x y = Raise e -> e = IndexError.
Proof.
  unfold getitem. destruct (shape g) as [w h].
  destruct (py_index w x), (py_index h y); try congruence.
  destruct (get g _ _); congruence.
Qed.

Lemma setitem_raises {A} (g : grid A) (x y : Z) (v : A) (e : exn) :
  setitem g x y v = Raise e -> e = IndexError.
Proof.
  unfold setitem. destruct (shape g) as [w h].
  destruct (py_index w x) as [i|], (py_index h y); try congruence.
  destruct (g !! i); congruence.
Qed.

Lemma push_neighbours_raises (depth : grid Q) (p : Z * Z) (dc : Q)
  (ds st : list (Z * Z)) (e : exn) :
  push_neighbours depth p dc ds st = Raise e -> e = IndexError.
Proof.
  revert st. induction ds as [|dir ds IH]; intros st; simpl; [done|].
  destruct (getitem depth _ _) eqn:E; simpl; [apply IH| |done].
  intros [= <-]. by eapply getitem_raises.
Qed.

Lemma visit_raises (depth : grid Q) (cur : Z) (m : grid Z) (a : Aabb)
  (p : Z * Z) (st : list (Z * Z)) (e : exn) :
  visit depth cur m a p st = Raise e -> e = IndexError.
Proof.
  unfold visit. generalize dirs. intros ds.
  destruct (getitem depth _ _) as [dc| |] eqn:Hdc; simpl; [| |done].
  2: { intros [= <-]. by eapply getitem_raises. }
  destruct (getitem m _ _) as [c| |] eqn:Hc; simpl; [| |done].
  2: { intros [= <-]. by eapply getitem_raises. }
  destruct (if c =? 0 then _ else _) as [st1| |] eqn:Hst; simpl; [| |done].
  2: { intros [= <-]. destruct (c =? 0); [|done].
       by eapply push_neighbours_raises. }
  destruct (setitem m _ _ _) as [m1| |] eqn:Hset; simpl; [done| |done].
  intros [= <-]. by eapply setitem_raises.
Qed.

Lemma flood_raises (fuel : nat) (depth : grid Q) (cur : Z) (m : grid Z)
  (a : Aabb) (st : list (Z * Z)) (e : exn) :
  flood fuel depth cur m a st = Raise e -> e = IndexError.
Proof.
  revert m a st. induction fuel as [|fuel IH]; intros m a st.
  - by destruct st.
  - destruct st as [|p st]; simpl; [done|].
    destruct (visit depth cur m a p st) as [[[m1 a1] st1]| |] eqn:Hvisit;
      simpl; [apply IH| |done].
    intros [= <-]. by eapply visit_raises.
Qed.

Lemma scan_raises (d : Depthmap) (x y : nat)
  (st : grid Z * list Segment.t * Z) (e : exn) :
  scan d x y st = Raise e -> e = IndexError.
Proof.
  destruct st as [[m segments] cur]. unfold scan.
  destruct (getitem m _ _) as [c| |] eqn:Hc; simpl; [| |done].
  2: { intros [= <-]. by eapply getitem_raises. }
  destruct (negb (c =? 0)); [done|].
  destruct (flood _ _ _ _ _ _) as [[m1 a1]| |] eqn:Hflood; simpl;
    [done| |done].
  intros [= <-]. by eapply flood_raises.
Qed.

Lemma for_each_raises {S A} (body : S -> A -> result S) (l : list A)
  (e0 e : exn) :
  (forall s a, body s a = Raise e -> e = e0) ->
  forall s, for_each body l s = Raise e -> e = e0.
Proof.
  intros Hbody. induction l as [|a l IH]; intros s; simpl; [done|].
  destruct (body s a) as [s1| |] eqn:E; simpl; [apply IH| |done].
  intros [= <-]. by eapply Hbody.
Qed.

(** X19.  The exceptions of the segmentation (width, height >= 1):
    [detect_objects] raises [AssertionError] when the smoothed depth
    array has not the shape (width, height), and otherwise only
    [IndexError], from a read or a write of the fill outside the image;
    [segment_child] raises what [detect_objects] raises. *)
Theorem detect_objects_raises {K : Constants}
  (d : Depthmap) (floor : Q) (e : exn) :
  (1 <= width d)%nat -> (1 <= height d)%nat ->
  detect_objects d floor = Raise e ->
  segment_child d floor = Raise e
  /\ ((e = AssertionError
       /\ ~ rect (width d) (height d) (depthmap_arr_smooth d))
      \/ (e = IndexError
          /\ rect (width d) (height d) (depthmap_arr_smooth d))).
Proof.
  intros _ _ Hdet. split.
  { unfold segment_child. by rewrite Hdet. }
  revert Hdet. unfold detect_objects, detect_floor.
  destruct (rectb _ _ (depthmap_arr_smooth d)) eqn:Hrect; simpl.
  - apply rectb_spec in Hrect.
    destruct (scan_all d _) as [[[m segments] cur]| |] eqn:Hscan; simpl;
      [done| |done].
    intros [= <-]. right. split; [|done].
    revert Hscan. unfold scan_all. apply for_each_raises.
    intros s x. apply for_each_raises. intros s1 y. apply scan_raises.
  - intros [= <-]. left. split; [done|].
    intros H. apply rectb_spec in H. congruence.
Qed.

Lemma detect_objects_raises_witness :
  exists d,
    flat_3x3 = Ok d
    /\ segment_child (K := sentinels) d 0 = Raise IndexError
    /\ ((IndexError = AssertionError
         /\ ~ rect (width d) (height d) (depthmap_arr_smooth d))
        \/ (IndexError = IndexError
            /\ rect (width d) (height d) (depthmap_arr_smooth d))).
Proof.
  eexists. split; [vm_compute; reflexivity|].
  apply (detect_objects_raises (K := sentinels) _ 0 IndexError).
  - simpl. lia.
  - simpl. lia.
  - vm_compute. reflexivity.
Defined.

(** * The Depthmap of an array *)

Lemma init_from_array
  (intrinsics : grid Q) (w h : nat) (arr : grid Q)
  (depth_scale max_confidence : Q) (device_pose : list Q) (d : Depthmap) :
  __init__ intrinsics w h None (Some arr) depth_scale max_confidence
           device_pose = Ok d ->
  width d = w /\ height d = h
  /\ depthmap_arr d = arr
  /\ depthmap_arr_smooth d = smoothen_depthmap_array arr
  /\ confidence_arr d = None.
Proof.
  unfold __init__.
  destruct (getitem intrinsics 1 0); simpl; [|done..].
  destruct (getitem intrinsics 1 1); simpl; [|done..].
  destruct (getitem intrinsics 1 2); simpl; [|done..].
  destruct (getitem intrinsics 1 3); simpl; [|done..].
  destruct (reshape_4_4_T device_pose); simpl; [|done..].
  intros [= <-]. done.
Qed.

Lemma rect_unique {A} (w h w' h' : nat) (g : grid A) :
  (1 <= w')%nat -> rect w' h' g -> rect w h g -> w = w' /\ h = h'.
Proof.
  intros Hw [Hl Hr] [Hl' Hr'].
  split; [congruence|].
  destruct g as [|row g]; [simpl in Hl; lia|].
  apply Forall_cons in Hr as [Hrow _]. apply Forall_cons in Hr' as [Hrow' _].
  simpl in Hrow, Hrow'. congruence.
Qed.

(** X20.  A Depthmap constructed from an array of the shape (w', h')
    keeps the array, smooths it to the same shape and has no confidence
    array.  Its analyses work only when (w', h') is the (width, height)
    given to the constructor: otherwise [detect_floor],
    [detect_objects], [segment_child] and [get_floor_level] raise
    [AssertionError]. *)
Theorem construction_from_array {K : Constants}
  (intrinsics : grid Q) (w h w' h' : nat) (arr : grid Q)
  (depth_scale max_confidence : Q) (device_pose : list Q) (d : Depthmap) :
  (1 <= w')%nat -> (1 <= h')%nat -> rect w' h' arr ->
  __init__ intrinsics w h None (Some arr) depth_scale max_confidence
           device_pose = Ok d ->
  depthmap_arr d = arr
  /\ rect w' h' (depthmap_arr_smooth d)
  /\ confidence_arr d = None
  /\ (w' = w /\ h' = h ->
      forall floor, exists m0, detect_floor d floor = Ok m0)
  /\ (~ (w' = w /\ h' = h) ->
      get_floor_level d = Raise AssertionError
      /\ forall floor,
           detect_floor d floor = Raise AssertionError
           /\ detect_objects d floor = Raise AssertionError
           /\ segment_child d floor = Raise AssertionError).
Proof.
  intros Hw' Hh' Harr Hinit.
  apply init_from_array in Hinit as (Hw & Hh & Hd & Hsmooth & Hconf).
  pose proof (smoothen_rect w' h' arr Harr) as Hrect.
  rewrite <- Hsmooth in Hrect.
  split; [done|]. split; [done|]. split; [done|]. split.
  - intros [-> ->] floor. apply detect_floor_raises. by rewrite Hw, Hh.
  - intros Hshape.
    assert (Hno : rectb (width d) (height d) (depthmap_arr_smooth d) = false).
    { destruct (rectb _ _ _) eqn:Hr; [|done].
      apply rectb_spec in Hr. rewrite Hw, Hh in Hr.
      destruct (rect_unique w h w' h' _ Hw' Hrect Hr) as [-> ->].
      by destruct Hshape. }
    assert (Hfloor : forall floor,
               detect_floor d floor = Raise AssertionError).
    { intros floor. unfold detect_floor. by rewrite Hno. }
    split.
    + unfold get_floor_level. by rewrite Hno.
    + intros floor. split; [done|].
      assert (Hdet : detect_objects d floor = Raise AssertionError).
      { unfold detect_objects. by rewrite Hfloor. }
      split; [done|]. unfold segment_child. by rewrite Hdet.
Qed.

Lemma construction_from_array_witness :
  exists d,
    __init__ centred_intrinsics 3 2 None
             (Some [[1; 1; 1]; [1; 1; 1]]%Q) (1 # 1000) 7
             IDENTITY_MATRIX_4D = Ok d
    /\ depthmap_arr d = [[1; 1; 1]; [1; 1; 1]]%Q
    /\ rect 2 3 (depthmap_arr_smooth d)
    /\ confidence_arr d = None
    /\ (2%nat = 3%nat /\ 3%nat = 2%nat ->
        forall floor, exists m0,
          detect_floor (K := sentinels) d floor = Ok m0)
    /\ (~ (2%nat = 3%nat /\ 3%nat = 2%nat) ->
        get_floor_level d = Raise AssertionError
        /\ forall floor,
             detect_floor (K := sentinels) d floor = Raise AssertionError
             /\ detect_objects (K := sentinels) d floor
                = Raise AssertionError
             /\ segment_child (K := sentinels) d floor
                = Raise AssertionError).
Proof.
  eexists. split; [vm_compute; reflexivity|].
  apply (construction_from_array (K := sentinels) centred_intrinsics 3 2 2 3
           [[1; 1; 1]; [1; 1; 1]]%Q (1 # 1000) 7 IDENTITY_MATRIX_4D).
  - lia.
  - lia.
  - split; [reflexivity|]. repeat constructor.
  - vm_compute. reflexivity.
Defined.

(** * The fill relabels *)

Lemma py_index_Some (n : nat) (a : Z) (i : nat) :
  py_index n a = Some i <->
  (0 <= a < Z.of_nat n /\ Z.of_nat i = a)
  \/ (- Z.of_nat n <= a < 0 /\ Z.of_nat i = a + Z.of_nat n).
Proof.
  unfold py_index.
  destruct ((0 <=? a) && (a <? Z.of_nat n)) eqn:E1.
  - apply andb_true_iff in E1 as [H1 H2].
    apply Z.leb_le in H1. apply Z.ltb_lt in H2. split.
    + intros [= <-]. left. lia.
    + intros [[_ H]|[? _]]; [|lia]. f_equal. lia.
  - apply andb_false_iff in E1.
    destruct ((- Z.of_nat n <=? a) && (a <? 0)) eqn:E2.
    + apply andb_true_iff in E2 as [H1 H2].
      apply Z.leb_le in H1. apply Z.ltb_lt in H2. split.
      * intros [= <-]. right. lia.
      * intros [[? _]|[_ H]]; [lia|]. f_equal. lia.
    + apply andb_false_iff in E2. split; [done|].
      rewrite Z.leb_gt, Z.ltb_ge in E1. rewrite Z.leb_gt, Z.ltb_ge in E2.
      lia.
Qed.

Lemma py_index_shift (n : nat) (a dx : Z) (i k k' : nat) :
  py_index n a = Some i ->
  py_index n (a + dx) = Some k ->
  py_index n (Z.of_nat i + dx) = Some k' ->
  k = k'.
Proof. rewrite !py_index_Some. lia. Qed.

Lemma cell_of_shift (w h : nat) (p dir : Z * Z) (i j k l k' l' : nat) :
  cell_of w h p i j ->
  cell_of w h (p.1 + dir.1, p.2 + dir.2) k l ->
  cell_of w h (Z.of_nat i + dir.1, Z.of_nat j + dir.2) k' l' ->
  k = k' /\ l = l'.
Proof.
  intros [Hi Hj] [Hk Hl] [Hk' Hl']. split.
  - exact (py_index_shift w p.1 dir.1 i k k' Hi Hk Hk').
  - exact (py_index_shift h p.2 dir.2 j l l' Hj Hl Hl').
Qed.

Lemma cell_of_unique (w h : nat) (p : Z * Z) (i j i' j' : nat) :
  cell_of w h p i j -> cell_of w h p i' j' -> i = i' /\ j = j'.
Proof. intros [Hi Hj] [Hi' Hj']. split; congruence. Qed.

(** Reading a rectangular array at a pixel is reading its cell. *)
Lemma getitem_cell {A} (w h : nat) (g : grid A) (p : Z * Z) (c : A) :
  rect w h g ->
  getitem g p.1 p.2 = Ok c <->
  exists i j, cell_of w h p i j /\ get g i j = Some c.
Proof.
  intros Hrect. split.
  - intros Hget.
    pose proof (getitem_bounds _ _ _ _ _ _ Hrect Hget) as [Hx Hy].
    apply getitem_Ok in Hget as (i & j & Hi & Hj & Hc).
    rewrite (rect_shape w h) in Hi, Hj by (done || lia).
    by exists i, j.
  - intros (i & j & [Hi Hj] & Hc).
    assert (Hw : (0 < w)%nat) by (apply py_index_bounds in Hi; lia).
    unfold getitem. rewrite (rect_shape w h) by done.
    by rewrite Hi, Hj, Hc.
Qed.

(** Writing a rectangular array at a pixel is writing its cell. *)
Lemma setitem_cell {A} (w h : nat) (g g' : grid A) (p : Z * Z) (v : A) :
  rect w h g -> setitem g p.1 p.2 v = Ok g' ->
  exists i j,
    cell_of w h p i j
    /\ forall x y, get g' x y
                   = if decide (x = i /\ y = j)
                     then (fun _ => v) <$> get g x y
                     else get g x y.
Proof.
  intros Hrect Hset.
  apply setitem_Ok in Hset as (i & j & Hi & Hj & Hg').
  assert (Hw : (0 < w)%nat).
  { destruct w as [|w]; [|lia].
    destruct Hrect as [Hl _]. apply nil_length_inv in Hl as ->.
    simpl in Hi. apply py_index_bounds in Hi. lia. }
  rewrite (rect_shape w h) in Hi, Hj by done.
  by exists i, j.
Qed.

Lemma push_neighbours_spec (depth : grid Q) (p : Z * Z) (dc : Q)
  (ds st st' : list (Z * Z)) :
  push_neighbours depth p dc ds st = Ok st' ->
  (forall s, s ∈ st -> s ∈ st')
  /\ forall dir, dir ∈ ds ->
       exists dq,
         getitem depth (p.1 + dir.1) (p.2 + dir.2) = Ok dq
         /\ (continuous dq dc -> (p.1 + dir.1, p.2 + dir.2) ∈ st').
Proof.
  revert st. induction ds as [|d0 ds IH]; intros st.
  - intros [= <-]. split; [done|]. intros dir Hdir.
    by apply elem_of_nil in Hdir.
  - cbn [push_neighbours fst snd].
    destruct (getitem depth _ _) as [dq| |] eqn:Hdq;
      cbn [mbind result_bind]; [|done..].
    intros Hpush. apply IH in Hpush as [Hsub Hds]. split.
    + intros s Hs. apply Hsub.
      destruct (_ && _); [by right|done].
    + intros dir Hdir. apply elem_of_cons in Hdir as [->|Hdir].
      * exists dq. split; [done|]. intros [Hpos Hnear].
        apply Hsub. apply Qlt_bool_iff in Hpos, Hnear.
        rewrite Hpos, Hnear. by left.
      * by apply Hds.
Qed.

Lemma visit_cells (w h : nat) (depth : grid Q) (cur : Z) (m : grid Z)
  (a : Aabb) (p : Z * Z) (st : list (Z * Z)) (m' : grid Z) (a' : Aabb)
  (st' : list (Z * Z)) :
  rect w h m ->
  visit depth cur m a p st = Ok (m', a', st') ->
  exists i j dc c,
    cell_of w h p i j
    /\ getitem depth p.1 p.2 = Ok dc
    /\ get m i j = Some c
    /\ (if c =? 0 then push_neighbours depth p dc dirs st else Ok st)
       = Ok st'
    /\ rect w h m'
    /\ get m' i j = Some cur
    /\ forall x y, ~ (x = i /\ y = j) -> get m' x y = get m x y.
Proof.
  intros Hrect Hvisit.
  apply visit_Ok in Hvisit as (dc & c & Hdc & Hc & Hst & _ & Hset).
  pose proof (setitem_rect _ _ _ _ _ _ _ Hrect Hset) as Hrect'.
  apply (getitem_cell w h) in Hc as (i & j & Hcell & Hc); [|done].
  destruct (setitem_cell w h _ _ _ _ Hrect Hset) as (i' & j' & Hcell' & Hm').
  destruct (cell_of_unique _ _ _ _ _ _ _ Hcell Hcell') as [<- <-].
  exists i, j, dc, c.
  split; [done|]. split; [done|]. split; [done|]. split; [done|].
  split; [done|]. split.
  - rewrite Hm', decide_True, Hc by done. done.
  - intros x y Hne. by rewrite Hm', decide_False.
Qed.

Lemma visit_stack_kept (depth : grid Q) (cur : Z) (m : grid Z)
  (a : Aabb) (p : Z * Z) (st : list (Z * Z)) (m' : grid Z) (a' : Aabb)
  (st' : list (Z * Z)) (s : Z * Z) :
  visit depth cur m a p st = Ok (m', a', st') -> s ∈ st -> s ∈ st'.
Proof.
  intros Hvisit Hs.
  apply visit_Ok in Hvisit as (dc & c & _ & _ & Hst & _).
  destruct (c =? 0).
  - apply push_neighbours_spec in Hst as [Hsub _]. by apply Hsub.
  - by injection Hst as <-.
Qed.

(** One turn of the loop labels the pixel it pops, whatever its label,
    and unlabels nothing. *)
Lemma visit_labels (w h : nat) (depth : grid Q) (cur : Z) (m : grid Z)
  (a : Aabb) (p : Z * Z) (st : list (Z * Z)) (m' : grid Z) (a' : Aabb)
  (st' : list (Z * Z)) :
  rect w h m ->
  visit depth cur m a p st = Ok (m', a', st') ->
  getitem m' p.1 p.2 = Ok cur
  /\ forall s, getitem m s.1 s.2 = Ok cur -> getitem m' s.1 s.2 = Ok cur.
Proof.
  intros Hrect Hvisit.
  destruct (visit_cells w h _ _ _ _ _ _ _ _ _ Hrect Hvisit)
    as (i & j & dc & c & Hcell & _ & _ & _ & Hrect' & Hcur & Hother).
  split.
  - apply (getitem_cell w h); [done|]. by exists i, j.
  - intros s Hs.
    apply (getitem_cell w h) in Hs as (k & l & Hcell_s & Hs); [|done].
    apply (getitem_cell w h); [done|]. exists k, l. split; [done|].
    destruct (decide (k = i /\ l = j)) as [[-> ->]|Hne]; [done|].
    by rewrite Hother.
Qed.

(** A fill labels every pixel of its stack with its id. *)
Lemma flood_labels_stack (w h : nat) (fuel : nat) (depth : grid Q) (cur : Z)
  (m : grid Z) (a : Aabb) (st : list (Z * Z)) (m' : grid Z) (a' : Aabb)
  (s : Z * Z) :
  rect w h m ->
  flood fuel depth cur m a st = Ok (m', a') ->
  s ∈ st -> getitem m' s.1 s.2 = Ok cur.
Proof.
  intros Hrect Hflood Hs.
  apply (flood_invariant
           (fun m _ st => rect w h m
                          /\ (getitem m s.1 s.2 = Ok cur \/ s ∈ st))
           depth cur) in Hflood.
  - destruct Hflood as [_ [Hcur|Hnil]]; [done|].
    by apply elem_of_nil in Hnil.
  - intros m1 a1 p st1 m2 a2 st2 [Hrect1 Hor] Hvisit.
    destruct (visit_labels w h _ _ _ _ _ _ _ _ _ Hrect1 Hvisit)
      as [Hpop Hkeep].
    split.
    { apply visit_Ok in Hvisit as (_ & _ & _ & _ & _ & _ & Hset).
      by eapply setitem_rect. }
    destruct Hor as [Hcur|Hin]; [left; by apply Hkeep|].
    apply elem_of_cons in Hin as [->|Hin]; [by left|].
    right. by eapply visit_stack_kept.
  - split; [done|]. by right.
Qed.

(** A fill that pops an unlabeled pixel labels the continuous neighbours
    of the pixel with its id, whatever their label. *)
Lemma flood_relabels_neighbour (w h : nat) (fuel : nat) (depth : grid Q)
  (cur : Z) (m : grid Z) (a : Aabb) (p : Z * Z) (st : list (Z * Z))
  (m' : grid Z) (a' : Aabb) (dir : Z * Z) (dc dq : Q) :
  rect w h m ->
  flood fuel depth cur m a (p :: st) = Ok (m', a') ->
  getitem m p.1 p.2 = Ok 0 ->
  getitem depth p.1 p.2 = Ok dc ->
  dir ∈ dirs ->
  getitem depth (p.1 + dir.1) (p.2 + dir.2) = Ok dq ->
  continuous dq dc ->
  getitem m' (p.1 + dir.1) (p.2 + dir.2) = Ok cur.
Proof.
  intros Hrect Hflood Hzero Hdc Hdir Hdq Hcont.
  destruct fuel as [|fuel]; [done|]. simpl in Hflood.
  destruct (visit depth cur m a p st) as [[[m1 a1] st1]| |] eqn:Hvisit;
    simpl in Hflood; [|done..].
  pose proof Hvisit as Hvisit'.
  apply visit_Ok in Hvisit' as (dc' & c & Hdc' & Hc & Hst & _ & Hset).
  rewrite Hdc in Hdc'. injection Hdc' as <-.
  rewrite Hzero in Hc. injection Hc as <-.
  change (0 =? 0) with true in Hst. cbv iota in Hst.
  apply push_neighbours_spec in Hst as [_ Hpushed].
  destruct (Hpushed dir Hdir) as (dq' & Hdq' & Hin).
  rewrite Hdq in Hdq'. injection Hdq' as <-.
  apply (flood_labels_stack w h fuel depth cur m1 a1 st1 m' a'
           (p.1 + dir.1, p.2 + dir.2)); [|done|by apply Hin].
  by eapply setitem_rect.
Qed.

Lemma visit_expanding (w h : nat) (depth : grid Q) (cur : Z)
  (ms m : grid Z) (a : Aabb) (p : Z * Z) (st : list (Z * Z))
  (m' : grid Z) (a' : Aabb) (st' : list (Z * Z)) :
  rect w h depth -> cur <> 0 ->
  expanding w h depth cur ms m (p :: st) ->
  visit depth cur m a p st = Ok (m', a', st') ->
  expanding w h depth cur ms m' st'.
Proof.
  intros Hdepth Hcur (Hrect & Honly & Hexp) Hvisit.
  destruct (visit_cells w h _ _ _ _ _ _ _ _ _ Hrect Hvisit)
    as (i0 & j0 & dc0 & c0 & Hcell & Hdc0 & Hc0 & Hst & Hrect' & Hpop
        & Hother).
  assert (Hkeep : forall k l, get m k l = Some cur -> get m' k l = Some cur).
  { intros k l Hkl.
    destruct (decide (k = i0 /\ l = j0)) as [[-> ->]|Hne]; [done|].
    by rewrite Hother. }
  assert (Hsub : forall s, s ∈ st -> s ∈ st').
  { intros s. by eapply visit_stack_kept. }
  assert (Hold : forall k l,
             (get m k l = Some cur
              \/ exists s, s ∈ p :: st /\ cell_of w h s k l) ->
             get m' k l = Some cur
             \/ exists s, s ∈ st' /\ cell_of w h s k l).
  { intros k l [Hkl|(s & Hs & Hcs)]; [left; by apply Hkeep|].
    apply elem_of_cons in Hs as [->|Hs].
    - destruct (cell_of_unique _ _ _ _ _ _ _ Hcell Hcs) as [<- <-].
      by left.
    - right. exists s. split; [by apply Hsub|done]. }
  split; [done|]. split.
  - intros i j c Hc.
    destruct (decide (i = i0 /\ j = j0)) as [[-> ->]|Hne].
    + left. congruence.
    + rewrite Hother in Hc by done. by apply Honly.
  - intros i j dir dc dq k l Hms Hm' Hdir Hdc Hkl Hdq Hcont.
    destruct (decide (i = i0 /\ j = j0)) as [[-> ->]|Hne].
    + destruct (Z.eqb_spec c0 0) as [->|Hnz].
      * (* the pixel is expanded in this turn *)
        apply push_neighbours_spec in Hst as [_ Hpushed].
        destruct (Hpushed dir Hdir) as (dq' & Hdq' & Hin).
        apply (getitem_cell w h) in Hdc0 as (i1 & j1 & Hcell1 & Hdc1);
          [|done].
        destruct (cell_of_unique _ _ _ _ _ _ _ Hcell Hcell1) as [<- <-].
        rewrite Hdc in Hdc1. injection Hdc1 as <-.
        apply (getitem_cell w h _
                 (p.1 + dir.1, p.2 + dir.2)) in Hdq'
          as (k' & l' & Hcell' & Hdq'); [|done].
        destruct (cell_of_shift _ _ _ _ _ _ _ _ _ _ Hcell Hcell' Hkl)
          as [-> ->].
        rewrite Hdq in Hdq'. injection Hdq' as <-.
        right. exists (p.1 + dir.1, p.2 + dir.2). split; [|done].
        by apply Hin.
      * (* the pixel was expanded before *)
        assert (Hwas : get m i0 j0 = Some cur).
        { destruct (Honly _ _ _ Hc0) as [->|Hsame]; [done|]. congruence. }
        apply Hold. by eapply Hexp.
    + rewrite Hother in Hm' by done. apply Hold. by eapply Hexp.
Qed.

Lemma flood_expanding (w h : nat) (fuel : nat) (depth : grid Q) (cur : Z)
  (m : grid Z) (a : Aabb) (st : list (Z * Z)) (m' : grid Z) (a' : Aabb) :
  rect w h depth -> rect w h m -> cur <> 0 ->
  flood fuel depth cur m a st = Ok (m', a') ->
  expanding w h depth cur m m' [].
Proof.
  intros Hdepth Hrect Hcur Hflood.
  apply (flood_invariant (fun m1 _ st1 => expanding w h depth cur m m1 st1)
           depth cur) in Hflood; [done| |].
  - intros m1 a1 p st1 m2 a2 st2. by apply visit_expanding.
  - split; [done|]. split; [by right|].
    intros i j dir dc dq k l H0 Hc. congruence.
Qed.

Lemma scan_relabelled (d : Depthmap) (m0 : grid Z) (x y : nat)
  (st st' : grid Z * list Segment.t * Z) :
  rect (width d) (height d) (depthmap_arr d) ->
  (x < width d)%nat -> (y < height d)%nat ->
  scan_inv d m0 st
  /\ relabelled (width d) (height d) (depthmap_arr d) m0 st.1.1 ->
  scan d x y st = Ok st' ->
  scan_inv d m0 st'
  /\ relabelled (width d) (height d) (depthmap_arr d) m0 st'.1.1.
Proof.
  intros Hdepth Hx Hy [Hinv Hrel] Hscan.
  split; [by eapply scan_step|].
  destruct st as [[m segments] cur]. simpl in Hrel.
  destruct Hinv as (Hcur & Hrect & _).
  apply scan_Ok in Hscan
    as [(c & _ & _ & ->)|(m' & a' & _ & Hflood & ->)]; [done|].
  simpl.
  apply (flood_expanding (width d) (height d)) in Hflood; [|done|done|lia].
  destruct Hflood as (Hrect' & Honly & Hexp).
  intros i j c dir dc dq k l Hm0 Hc Hne Hdir Hdc Hkl Hdq Hcont.
  pose proof (rect_bounds _ _ _ _ _ _ Hdepth Hdq) as Hkl'.
  destruct (rect_get _ _ m' k l Hrect') as [c' Hc']; [lia..|].
  destruct (rect_bounds _ _ _ _ _ _ Hrect' Hc) as [Hi Hj].
  destruct (rect_get _ _ m i j Hrect Hi Hj) as [c1 Hc1].
  destruct (Z.eq_dec c1 0) as [->|Hnz].
  - (* labeled by this fill *)
    assert (c = cur) as ->.
    { destruct (Honly _ _ _ Hc) as [->|Hsame]; [done|]. congruence. }
    destruct (Hexp i j dir dc dq k l Hc1 Hc Hdir Hdc Hkl Hdq Hcont)
      as [Hcur'|(s & Hs & _)].
    + exists cur. split; [done|lia].
    + by apply elem_of_nil in Hs.
  - (* labeled before this fill *)
    destruct (Hrel i j c1 dir dc dq k l Hm0 Hc1 Hnz Hdir Hdc Hkl Hdq Hcont)
      as (c2 & Hc2 & Hneg).
    exists c'. split; [done|].
    destruct (Honly _ _ _ Hc') as [->|Hsame]; [lia|]. congruence.
Qed.

Lemma scan_all_relabelled (d : Depthmap) (m0 : grid Z)
  (st st' : grid Z * list Segment.t * Z) :
  rect (width d) (height d) (depthmap_arr d) ->
  scan_inv d m0 st
  /\ relabelled (width d) (height d) (depthmap_arr d) m0 st.1.1 ->
  scan_all d st = Ok st' ->
  scan_inv d m0 st'
  /\ relabelled (width d) (height d) (depthmap_arr d) m0 st'.1.1.
Proof.
  intros Hdepth. unfold scan_all.
  apply (for_each_inv
           (fun s => scan_inv d m0 s
                     /\ relabelled (width d) (height d) (depthmap_arr d)
                                   m0 s.1.1)).
  intros s x s' Hx Hs.
  apply (for_each_inv
           (fun s => scan_inv d m0 s
                     /\ relabelled (width d) (height d) (depthmap_arr d)
                                   m0 s.1.1)); [|done].
  intros s1 y s2 Hy. apply elem_of_seq in Hx, Hy.
  apply scan_relabelled; [done|lia..].
Qed.

(** In the mask [detect_objects] returns, the continuous neighbours of a
    pixel that [detect_floor] left unlabeled carry a segment id. *)
Lemma detect_objects_relabels {K : Constants} (d : Depthmap) (floor : Q)
  (m0 m : grid Z) (segments : list Segment.t) (x y : nat) (dir : Z * Z)
  (dc dq : Q) :
  rect (width d) (height d) (depthmap_arr d) ->
  detect_floor d floor = Ok m0 ->
  detect_objects d floor = Ok (m, segments) ->
  get m0 x y = Some 0 ->
  dir ∈ dirs ->
  get (depthmap_arr d) x y = Some dc ->
  getitem (depthmap_arr d) (Z.of_nat x + dir.1) (Z.of_nat y + dir.2)
  = Ok dq ->
  continuous dq dc ->
  exists c, getitem m (Z.of_nat x + dir.1) (Z.of_nat y + dir.2) = Ok c
            /\ c < 0.
Proof.
  intros Hdepth Hfloor Hdet Hzero Hdir Hdc Hdq Hcont.
  apply detect_objects_Ok in Hdet as (m0' & cur & Hfloor' & Hscan).
  rewrite Hfloor in Hfloor'. injection Hfloor' as <-.
  pose proof (detect_floor_rect d floor m0 Hfloor) as Hrect0.
  destruct (rect_bounds _ _ _ _ _ _ Hrect0 Hzero) as [Hx Hy].
  assert (Hst : scanning (m0, @nil Segment.t, -1))
    by (unfold scanning; simpl; lia).
  destruct (scan_all_labels d _ _ Hst Hscan x y Hx Hy) as (c & Hc & Hne).
  simpl in Hc.
  apply (scan_all_relabelled d m0) in Hscan as [Hinv Hrel]; [|done|].
  - simpl in Hrel. destruct Hinv as (_ & Hrect & _).
    apply (getitem_cell (width d) (height d) _
             (Z.of_nat x + dir.1, Z.of_nat y + dir.2)) in Hdq
      as (k & l & Hkl & Hdq); [|done].
    destruct (Hrel x y c dir dc dq k l Hzero Hc Hne Hdir Hdc Hkl Hdq Hcont)
      as (c' & Hc' & Hneg).
    exists c'. split; [|done].
    apply (getitem_cell (width d) (height d) _
             (Z.of_nat x + dir.1, Z.of_nat y + dir.2)); [done|].
    by exists k, l.
  - split; [by eapply scan_inv_start|]. simpl.
    intros i j c0 dir0 dc0 dq0 k l H0 Hc0 Hne0. congruence.
Qed.

(** * Labels of the segmentation *)

Lemma visit_labelled_no_push (depth : grid Q) (cur : Z) (m : grid Z)
  (a : Aabb) (p : Z * Z) (st : list (Z * Z)) (c : Z)
  (m' : grid Z) (a' : Aabb) (st' : list (Z * Z)) :
  getitem m p.1 p.2 = Ok c -> c <> 0 ->
  visit depth cur m a p st = Ok (m', a', st') -> st' = st.
Proof.
  intros Hc Hne Hvisit.
  apply visit_Ok in Hvisit as (dc & c' & _ & Hc' & Hst & _).
  rewrite Hc in Hc'. injection Hc' as <-.
  destruct (Z.eqb_spec c 0); [done|]. by injection Hst.
Qed.

(** C1 (amended).  In the mask returned by [detect_objects] every pixel
    carries exactly one value, which is FLOOR, INVALID, 0 or a negative
    segment id, and a pixel whose value is not a segment id has kept the
    label [detect_floor] gave it.  The fill tests the label of the pixel
    it pops, not of the neighbour it pushes: a popped pixel that carries
    a label leaves the stack as it is; a fill labels every pixel of its
    stack with its id, whatever label the pixel carried; and a fill that
    pops an unlabeled pixel labels with its id every neighbour of the
    pixel that is valid and continuous in depth, FLOOR and INVALID
    neighbours included.  So, when the depth array has the shape
    (width, height), every such neighbour of a pixel that [detect_floor]
    left unlabeled carries a negative segment id in the returned mask,
    whatever label [detect_floor] gave it. *)
Theorem detect_objects_labels {K : Constants}
  (d : Depthmap) (floor : Q) (m : grid Z) (segments : list Segment.t) :
  detect_objects d floor = Ok (m, segments) ->
  exists m0,
    detect_floor d floor = Ok m0
    /\ (forall x y, (x < width d)%nat -> (y < height d)%nat ->
          exists c, get m x y = Some c
                    /\ (c = MASK_FLOOR \/ c = MASK_INVALID \/ c = 0 \/ c < 0)
                    /\ (get m0 x y = Some c \/ c < 0))
    /\ (forall cur mask a p st c mask' a' st',
          getitem mask p.1 p.2 = Ok c -> c <> 0 ->
          visit (depthmap_arr d) cur mask a p st = Ok (mask', a', st') ->
          st' = st)
    /\ (forall fuel cur mask a st mask' a' s,
          rect (width d) (height d) mask ->
          flood fuel (depthmap_arr d) cur mask a st = Ok (mask', a') ->
          s ∈ st -> getitem mask' s.1 s.2 = Ok cur)
    /\ (forall fuel cur mask a p st mask' a' dir dc dq,
          rect (width d) (height d) mask ->
          flood fuel (depthmap_arr d) cur mask a (p :: st)
          = Ok (mask', a') ->
          getitem mask p.1 p.2 = Ok 0 ->
          getitem (depthmap_arr d) p.1 p.2 = Ok dc ->
          dir ∈ dirs ->
          getitem (depthmap_arr d) (p.1 + dir.1) (p.2 + dir.2) = Ok dq ->
          continuous dq dc ->
          getitem mask' (p.1 + dir.1) (p.2 + dir.2) = Ok cur)
    /\ (rect (width d) (height d) (depthmap_arr d) ->
        forall x y dir dc dq,
          get m0 x y = Some 0 ->
          dir ∈ dirs ->
          get (depthmap_arr d) x y = Some dc ->
          getitem (depthmap_arr d) (Z.of_nat x + dir.1) (Z.of_nat y + dir.2)
          = Ok dq ->
          continuous dq dc ->
          exists c,
            getitem m (Z.of_nat x + dir.1) (Z.of_nat y + dir.2) = Ok c
            /\ c < 0).
Proof.
  intros Hdet. pose proof Hdet as Hinv.
  apply detect_objects_inv in Hinv
    as (m0 & current_id & Hfloor & _ & Hrect & Hlab & _).
  exists m0. split; [done|]. split; [|split; [|split; [|split]]].
  - intros x y Hx Hy.
    destruct (rect_get _ _ _ x y Hrect Hx Hy) as [c Hc].
    exists c. split; [done|].
    destruct (Hlab x y c Hc) as [H0|Hneg].
    + split; [|by left].
      destruct (detect_floor_values _ _ _ _ _ _ Hfloor H0) as [->|[->| ->]];
        auto.
    + split; [|by right]. auto.
  - intros cur mask a p st c mask' a' st'. apply visit_labelled_no_push.
  - intros fuel cur mask a st mask' a' s. apply flood_labels_stack.
  - intros fuel cur mask a p st mask' a' dir dc dq.
    apply flood_relabels_neighbour.
  - intros Hdepth x y dir dc dq.
    by apply (detect_objects_relabels d floor m0 m segments).
Qed.

(** C1 as stated fails: in [framed_5x5] the pixel (1, 2), labeled INVALID
    by [detect_floor], is relabeled with the segment id -1. *)
Lemma detect_objects_relabels_invalid :
  exists d m0 m segments,
    framed_5x5 = Ok d
    /\ detect_floor (K := sentinels) d 0 = Ok m0
    /\ detect_objects (K := sentinels) d 0 = Ok (m, segments)
    /\ get m0 1 2 = Some (MASK_INVALID (Constants := sentinels))
    /\ get m 1 2 = Some (-1).
Proof.
  eexists _, _, _, _.
  split; [vm_compute; reflexivity|].
  split; [vm_compute; reflexivity|].
  split; [vm_compute; reflexivity|].
  split; reflexivity.
Qed.

(** The theorem at [framed_5x5]: the pixel (2, 2) is left unlabeled by
    [detect_floor] and its neighbour (1, 2), labeled INVALID, has a
    positive depth that is continuous with the depth at (2, 2); so
    (1, 2) ends with a segment id. *)
Lemma detect_objects_labels_witness :
  exists d m0 m segments,
    framed_5x5 = Ok d
    /\ detect_floor (K := sentinels) d 0 = Ok m0
    /\ detect_objects (K := sentinels) d 0 = Ok (m, segments)
    /\ get m0 2 2 = Some 0
    /\ get m0 1 2 = Some (MASK_INVALID (Constants := sentinels))
    /\ exists c, getitem m 1 2 = Ok c /\ c < 0.
Proof.
  eexists _, _, _, _.
  split; [vm_compute; reflexivity|].
  lazymatch goal with
  | |- detect_floor ?d _ = _ /\ _ => pose (dm := d)
  end.
  split; [vm_compute; reflexivity|].
  split; [vm_compute; reflexivity|].
  split; [reflexivity|]. split; [reflexivity|].
  lazymatch goal with
  | |- exists c, getitem ?m _ _ = _ /\ _ => pose (mm := m)
  end.
  assert (Hdet : exists segments,
             detect_objects (K := sentinels) dm 0 = Ok (mm, segments))
    by (eexists; vm_compute; reflexivity).
  destruct Hdet as [segments Hdet].
  destruct (detect_objects_labels (K := sentinels) dm 0 mm segments Hdet)
    as (m0 & Hfloor & _ & _ & _ & _ & Hrel).
  vm_compute in Hfloor. injection Hfloor as <-.
  eapply (Hrel ltac:(apply rectb_spec; vm_compute; reflexivity)
               2%nat 2%nat (-1, 0)).
  - reflexivity.
  - apply list_elem_of_here.
  - vm_compute. reflexivity.
  - vm_compute. reflexivity.
  - split; vm_compute; reflexivity.
Defined.
